(** * Dev Tasks and the QR share link

    A shallow embedding of the two browser applications of the repository:
    the to-do list ([apps/app/src/main.js]) and the QR-code generator's
    share-link pipeline.  Handlers that mutate the module-level variables
    become functions on an explicit [World]; host built-ins ([btoa], [atob],
    [JSON.stringify], [JSON.parse], [Date], [Array.prototype.sort],
    [String.prototype.trim]) are written out as executable functions on
    sequences of UTF-16 code units.  What belongs to the host alone stays a
    parameter: the collation of [localeCompare], and what [Date] makes of
    a text that is not a date-only text. *)

From Stdlib Require Import List ZArith NArith Lia Bool String Ascii.
From Stdlib Require Import Sorting.Sorted Sorting.Permutation.
From Stdlib Require DecimalN DecimalFacts.
Import ListNotations.

(** ** Strings

    A JavaScript string is a sequence of 16-bit code units. *)

Abbreviation codeunit := N (only parsing).
Abbreviation jsstring := (list N) (only parsing).

(** An ASCII literal of the source, as code units. *)
Definition js (s : string) : jsstring :=
  map N_of_ascii (list_ascii_of_string s).

(** Every code unit fits in 16 bits. *)
Definition wf_string (s : jsstring) : Prop :=
  Forall (fun c => (c < 65536)%N) s.

(** [!!s] for a string: the empty string is the only falsy one. *)
Definition truthy (s : jsstring) : bool :=
  match s with [] => false | _ :: _ => true end.

(** [a === b] on strings. *)
Fixpoint str_eqb (a b : jsstring) : bool :=
  match a, b with
  | [], [] => true
  | x :: a', y :: b' => N.eqb x y && str_eqb a' b'
  | _, _ => false
  end.

(** [String.prototype.localeCompare] belongs to the host.  The development
    is parametric in it: it takes a collation, a total preorder on strings
    (negative, zero or positive result, with opposite signs for the two
    directions).  Strings that differ may compare as equal: the host's
    collation does so for canonically equivalent spellings. *)
Class Collator := {
  localeCompare : jsstring -> jsstring -> Z;
  localeCompare_antisym :
    forall a b, Z.sgn (localeCompare a b) = (- Z.sgn (localeCompare b a))%Z;
  localeCompare_trans :
    forall a b c, (localeCompare a b <= 0)%Z -> (localeCompare b c <= 0)%Z ->
                  (localeCompare a c <= 0)%Z
}.

(** The code-unit order, the collation used to run examples. *)
Fixpoint ordinalCompare (a b : jsstring) : Z :=
  match a, b with
  | [], [] => 0
  | [], _ :: _ => -1
  | _ :: _, [] => 1
  | x :: a', y :: b' =>
      match N.compare x y with
      | Lt => -1
      | Gt => 1
      | Eq => ordinalCompare a' b'
      end
  end%Z.

(** A collation that, like the host's, takes canonically equivalent
    spellings as equal: here [e] followed by the combining acute accent
    (U+0301) and the precomposed letter (U+00E9).  It composes the pair and
    compares code units. *)
Fixpoint compose (s : jsstring) : jsstring :=
  match s with
  | [] => []
  | c :: r =>
      match r with
      | d :: r' =>
          if ((c =? 101) && (d =? 769))%N then 233%N :: compose r'
          else c :: compose r
      | [] => [c]
      end
  end.

Definition canonicalCompare (a b : jsstring) : Z :=
  ordinalCompare (compose a) (compose b).

(** ** Tasks *)

Record Task := {
  id : Z;
  task : jsstring;
  project : jsstring;
  organization : jsstring;
  dueDate : jsstring;
  completed : bool;
  createdAt : jsstring
}.

(** ** Sorting *)

(** [Array.prototype.sort(comparefn)]: the stable sort of ECMAScript, as the
    insertion sort that puts an element in front of the first element it does
    not compare greater than. *)
Fixpoint sort_insert {A} (comparefn : A -> A -> Z) (x : A) (l : list A) : list A :=
  match l with
  | [] => [x]
  | y :: l' =>
      if (comparefn x y <=? 0)%Z then x :: y :: l'
      else y :: sort_insert comparefn x l'
  end.

Fixpoint Array_sort {A} (comparefn : A -> A -> Z) (l : list A) : list A :=
  match l with
  | [] => []
  | x :: l' => sort_insert comparefn x (Array_sort comparefn l')
  end.

Section Sorting.
Context {collator : Collator}.

(** The comparator of the ['date'] branch of [sortTasks]. *)
Definition compareDate (a b : Task) : Z :=
  if negb (truthy (dueDate a)) && negb (truthy (dueDate b))
  then localeCompare (createdAt b) (createdAt a)
  else if negb (truthy (dueDate a)) then 1
  else if negb (truthy (dueDate b)) then -1
  else localeCompare (dueDate a) (dueDate b).

(** The comparator of the other branch of [sortTasks]. *)
Definition compareProject (a b : Task) : Z :=
  if negb (str_eqb (project a) (project b)) then
    if negb (truthy (project a)) then 1
    else if negb (truthy (project b)) then -1
    else localeCompare (project a) (project b)
  else
    if negb (truthy (dueDate a)) && negb (truthy (dueDate b))
    then localeCompare (createdAt b) (createdAt a)
    else if negb (truthy (dueDate a)) then 1
    else if negb (truthy (dueDate b)) then -1
    else localeCompare (dueDate a) (dueDate b).

Definition comparator (currentSortMode : jsstring) : Task -> Task -> Z :=
  if str_eqb currentSortMode (js "date") then compareDate else compareProject.

Definition sortTasks (tasks : list Task) (currentSortMode : jsstring) : list Task :=
  if str_eqb currentSortMode (js "date")
  then Array_sort compareDate tasks
  else Array_sort compareProject tasks.

End Sorting.

(** *** What the two sort modes promise

    [dueDateRule a b] and [projectRule a b] say that [a] may stand before
    [b] in the sorted list. *)

Definition dated (t : Task) : Prop := dueDate t <> [].
Definition named (t : Task) : Prop := project t <> [].

Section SortRules.
Context {collator : Collator}.

Definition dueDateRule (a b : Task) : Prop :=
  (* dated tasks ascend by date string *)
  (dated a -> dated b -> (localeCompare (dueDate a) (dueDate b) <= 0)%Z) /\
  (* no undated task stands before a dated one *)
  (dated b -> dated a) /\
  (* undated tasks descend by creation time *)
  (~ dated a -> ~ dated b -> (localeCompare (createdAt b) (createdAt a) <= 0)%Z).

Definition projectRule (a b : Task) : Prop :=
  (* named projects ascend by name *)
  (named a -> named b -> (localeCompare (project a) (project b) <= 0)%Z) /\
  (* no task without a project stands before one with a project *)
  (named b -> named a) /\
  (* within one project the due-date rule decides *)
  (project a = project b -> dueDateRule a b).

(** The tie left by the keys of a mode: due dates, or for two tasks
    without one creation times, that the collation takes as equal. *)
Definition dueDateTie (a b : Task) : Prop :=
  (dated a /\ dated b /\ localeCompare (dueDate a) (dueDate b) = 0%Z) \/
  (~ dated a /\ ~ dated b /\ localeCompare (createdAt a) (createdAt b) = 0%Z).

Definition modeTie (currentSortMode : jsstring) (a b : Task) : Prop :=
  if str_eqb currentSortMode (js "date") then dueDateTie a b
  else project a = project b /\ dueDateTie a b.

(** Two project names that the collation tells apart when they differ. *)
Definition told_apart (p q : jsstring) : Prop :=
  p = q \/ localeCompare p q <> 0%Z.

(** The project names of a task list are told apart by the collation: no
    two of them differ and compare as equal. *)
Definition names_told_apart (tasks : list Task) : Prop :=
  forall a b, In a tasks -> In b tasks -> told_apart (project a) (project b).

(** In mode ['date'] no project name is compared. *)
Definition names_told_apart_in (currentSortMode : jsstring) (tasks : list Task) : Prop :=
  if str_eqb currentSortMode (js "date") then True else names_told_apart tasks.

(** [a] sorts before [b]. *)
Definition before (currentSortMode : jsstring) (a b : Task) : Prop :=
  (comparator currentSortMode a b < 0)%Z.

(** The comparison of [a] and [b] is decisive: one and only one of them
    sorts before the other. *)
Definition decisive (currentSortMode : jsstring) (a b : Task) : Prop :=
  (before currentSortMode a b /\ ~ before currentSortMode b a) \/
  (before currentSortMode b a /\ ~ before currentSortMode a b).

End SortRules.

(** Tasks to run the sort on. *)
Definition mkTask (i : Z) (text proj due created : string) : Task :=
  {| id := i; task := js text; project := js proj; organization := [];
     dueDate := js due; completed := false; createdAt := js created |}.

Definition taskA : Task := mkTask 1 "Write report" EmptyString "2025-01-01" "2024-12-01T10:00:00.000Z".
Definition taskB : Task := mkTask 2 "Fix bug" EmptyString "2025-01-01" "2024-12-02T10:00:00.000Z".

(** Three tasks of one project, whose name the second task spells with a
    combining accent. *)
Definition cafeMarch : Task :=
  {| id := 1; task := js "Order beans"; project := js "Caf" ++ [233%N];
     organization := []; dueDate := js "2025-03-01"; completed := false;
     createdAt := js "2025-01-01T10:00:00.000Z" |}.

Definition cafeSpelled : Task :=
  {| id := 2; task := js "Print menu"; project := js "Cafe" ++ [769%N];
     organization := []; dueDate := js "2025-02-15"; completed := false;
     createdAt := js "2025-01-02T10:00:00.000Z" |}.

Definition cafeFebruary : Task :=
  {| id := 3; task := js "Hire barista"; project := js "Caf" ++ [233%N];
     organization := []; dueDate := js "2025-02-01"; completed := false;
     createdAt := js "2025-01-03T10:00:00.000Z" |}.

Definition cafeTasks : list Task := [cafeMarch; cafeSpelled; cafeFebruary].

(** ** Numerals

    [Number.prototype.toString] and the numeral grammar of JSON, for the
    integral numbers the application stores ([Date.now()] readings). *)

Fixpoint uint_chars (u : Decimal.uint) : jsstring :=
  match u with
  | Decimal.Nil => []
  | Decimal.D0 u => 48 :: uint_chars u
  | Decimal.D1 u => 49 :: uint_chars u
  | Decimal.D2 u => 50 :: uint_chars u
  | Decimal.D3 u => 51 :: uint_chars u
  | Decimal.D4 u => 52 :: uint_chars u
  | Decimal.D5 u => 53 :: uint_chars u
  | Decimal.D6 u => 54 :: uint_chars u
  | Decimal.D7 u => 55 :: uint_chars u
  | Decimal.D8 u => 56 :: uint_chars u
  | Decimal.D9 u => 57 :: uint_chars u
  end%N.

Definition Number_toString (n : Z) : jsstring :=
  (if (n <? 0)%Z then [45%N] else []) ++ uint_chars (N.to_uint (Z.abs_N n)).

Definition is_digit (c : codeunit) : bool := ((48 <=? c) && (c <=? 57))%N.

Definition push_digit (c : codeunit) (u : Decimal.uint) : Decimal.uint :=
  if (c =? 48)%N then Decimal.D0 u
  else if (c =? 49)%N then Decimal.D1 u
  else if (c =? 50)%N then Decimal.D2 u
  else if (c =? 51)%N then Decimal.D3 u
  else if (c =? 52)%N then Decimal.D4 u
  else if (c =? 53)%N then Decimal.D5 u
  else if (c =? 54)%N then Decimal.D6 u
  else if (c =? 55)%N then Decimal.D7 u
  else if (c =? 56)%N then Decimal.D8 u
  else Decimal.D9 u.

(** The longest run of digits at the head of [s], and what follows it. *)
Fixpoint read_digits (s : jsstring) : Decimal.uint * jsstring :=
  match s with
  | [] => (Decimal.Nil, [])
  | c :: r =>
      if is_digit c
      then let (u, rest) := read_digits r in (push_digit c u, rest)
      else (Decimal.Nil, s)
  end.

(** The largest magnitude up to which every integer is a Number. *)
Definition MAX_SAFE : Z := 2 ^ 53.

(** ** JSON *)

#[local] Set Warnings "-register-all".
Inductive json :=
| JNull
| JBool (b : bool)
| JNum (n : Z)
| JStr (s : jsstring)
| JArr (l : list json)
| JObj (l : list (jsstring * json)).

(** *** [JSON.stringify] *)

Definition hex_digit (d : N) : codeunit :=
  if (d <? 10)%N then (48 + d)%N else (87 + d)%N.

Definition hex4 (c : codeunit) : jsstring :=
  [hex_digit (c / 4096); hex_digit ((c / 256) mod 16);
   hex_digit ((c / 16) mod 16); hex_digit (c mod 16)]%N.

Definition unicode_escape (c : codeunit) : jsstring := 92%N :: 117%N :: hex4 c.

Definition is_high_surrogate (c : codeunit) : bool := ((55296 <=? c) && (c <=? 56319))%N.
Definition is_low_surrogate (c : codeunit) : bool := ((56320 <=? c) && (c <=? 57343))%N.

(** One code unit that is not a surrogate, as [QuoteJSONString] writes it. *)
Definition quote_unit (c : codeunit) : jsstring :=
  if (c =? 8)%N then [92; 98]%N
  else if (c =? 9)%N then [92; 116]%N
  else if (c =? 10)%N then [92; 110]%N
  else if (c =? 12)%N then [92; 102]%N
  else if (c =? 13)%N then [92; 114]%N
  else if (c =? 34)%N then [92; 34]%N
  else if (c =? 92)%N then [92; 92]%N
  else if (c <? 32)%N then unicode_escape c
  else [c].

(** A surrogate pair is written as it is, a lone surrogate as an escape. *)
Fixpoint quote_units (s : jsstring) : jsstring :=
  match s with
  | [] => []
  | c :: r =>
      if is_high_surrogate c then
        match r with
        | d :: r' =>
            if is_low_surrogate d then c :: d :: quote_units r'
            else unicode_escape c ++ quote_units r
        | [] => unicode_escape c
        end
      else if is_low_surrogate c then unicode_escape c ++ quote_units r
      else quote_unit c ++ quote_units r
  end.

Definition QuoteJSONString (s : jsstring) : jsstring :=
  34%N :: quote_units s ++ [34%N].

(** Texts joined by commas. *)
Fixpoint join_comma (l : list jsstring) : jsstring :=
  match l with
  | [] => []
  | [x] => x
  | x :: r => x ++ 44%N :: join_comma r
  end.

Fixpoint JSON_stringify (v : json) : jsstring :=
  match v with
  | JNull => js "null"
  | JBool true => js "true"
  | JBool false => js "false"
  | JNum n => Number_toString n
  | JStr s => QuoteJSONString s
  | JArr l => 91%N :: join_comma (map JSON_stringify l) ++ [93%N]
  | JObj l =>
      123%N ::
      join_comma
        (map (fun kv => QuoteJSONString (fst kv) ++ 58%N :: JSON_stringify (snd kv)) l)
      ++ [125%N]
  end.

(** *** [JSON.parse]

    [PSyntaxError] is the [SyntaxError] the host throws.  [PUnsupported]
    marks a text this model does not interpret: a numeral with a fraction
    or an exponent, or an integer beyond [MAX_SAFE]. *)

Inductive parsed (A : Type) :=
| POk (a : A) (rest : jsstring)
| PSyntaxError
| PUnsupported.
Arguments POk {A} a rest.
Arguments PSyntaxError {A}.
Arguments PUnsupported {A}.

Definition is_ws (c : codeunit) : bool :=
  ((c =? 32) || (c =? 9) || (c =? 10) || (c =? 13))%N.

Fixpoint skip_ws (s : jsstring) : jsstring :=
  match s with
  | c :: r => if is_ws c then skip_ws r else s
  | [] => []
  end.

Definition hex_value (c : codeunit) : option N :=
  if is_digit c then Some (c - 48)%N
  else if ((97 <=? c) && (c <=? 102))%N then Some (c - 87)%N
  else if ((65 <=? c) && (c <=? 70))%N then Some (c - 55)%N
  else None.

Definition hex4_value (a b c d : codeunit) : option codeunit :=
  match hex_value a, hex_value b, hex_value c, hex_value d with
  | Some x, Some y, Some z, Some w => Some (x * 4096 + y * 256 + z * 16 + w)%N
  | _, _, _, _ => None
  end.

Definition prepend (c : codeunit) (p : parsed jsstring) : parsed jsstring :=
  match p with
  | POk t rest => POk (c :: t) rest
  | PSyntaxError => PSyntaxError
  | PUnsupported => PUnsupported
  end.

(** The characters of a string literal after its opening quote. *)
Fixpoint parse_chars (s : jsstring) : parsed jsstring :=
  match s with
  | [] => PSyntaxError
  | c :: r =>
      if (c =? 34)%N then POk [] r
      else if (c =? 92)%N then
        match r with
        | [] => PSyntaxError
        | e :: r1 =>
            if (e =? 34)%N then prepend 34%N (parse_chars r1)
            else if (e =? 92)%N then prepend 92%N (parse_chars r1)
            else if (e =? 47)%N then prepend 47%N (parse_chars r1)
            else if (e =? 98)%N then prepend 8%N (parse_chars r1)
            else if (e =? 102)%N then prepend 12%N (parse_chars r1)
            else if (e =? 110)%N then prepend 10%N (parse_chars r1)
            else if (e =? 114)%N then prepend 13%N (parse_chars r1)
            else if (e =? 116)%N then prepend 9%N (parse_chars r1)
            else if (e =? 117)%N then
              match r1 with
              | h1 :: h2 :: h3 :: h4 :: r2 =>
                  match hex4_value h1 h2 h3 h4 with
                  | Some u => prepend u (parse_chars r2)
                  | None => PSyntaxError
                  end
              | _ => PSyntaxError
              end
            else PSyntaxError
        end
      else if (c <? 32)%N then PSyntaxError
      else prepend c (parse_chars r)
  end.

(** A literal name ([null], [true], [false]) after its first letter. *)
Fixpoint expect (word : jsstring) (s : jsstring) (v : json) : parsed json :=
  match word with
  | [] => POk v s
  | w :: word' =>
      match s with
      | c :: r => if (c =? w)%N then expect word' r v else PSyntaxError
      | [] => PSyntaxError
      end
  end.

(** The digits of a numeral, after the sign if there is one. *)
Definition parse_digits (negative : bool) (body : jsstring) : parsed json :=
  let (u, rest) := read_digits body in
  let leading_zero :=
    match u with
    | Decimal.D0 Decimal.Nil => false
    | Decimal.D0 _ => true
    | _ => false
    end in
  let n := Z.of_N (N.of_uint u) in
  match u with
  | Decimal.Nil => PSyntaxError
  | _ =>
      if leading_zero then PSyntaxError
      else if match rest with
              | c :: _ => ((c =? 46) || (c =? 101) || (c =? 69))%N
              | [] => false
              end
      then PUnsupported
      else if (MAX_SAFE <? n)%Z then PUnsupported
      else POk (JNum (if negative then - n else n)%Z) rest
  end.

Definition parse_number (s : jsstring) : parsed json :=
  match s with
  | c :: r => if (c =? 45)%N then parse_digits true r else parse_digits false s
  | [] => PSyntaxError
  end.

Fixpoint parse_value (fuel : nat) (s : jsstring) {struct fuel} : parsed json :=
  match fuel with
  | O => PUnsupported
  | S fuel' =>
      match skip_ws s with
      | [] => PSyntaxError
      | c :: r =>
          if (c =? 110)%N then expect (js "ull") r JNull
          else if (c =? 116)%N then expect (js "rue") r (JBool true)
          else if (c =? 102)%N then expect (js "alse") r (JBool false)
          else if (c =? 34)%N then
            match parse_chars r with
            | POk str rest => POk (JStr str) rest
            | PSyntaxError => PSyntaxError
            | PUnsupported => PUnsupported
            end
          else if (c =? 91)%N then
            match skip_ws r with
            | [] => PSyntaxError
            | c' :: r' =>
                if (c' =? 93)%N then POk (JArr []) r'
                else
                  match parse_elements fuel' r with
                  | POk l rest => POk (JArr l) rest
                  | PSyntaxError => PSyntaxError
                  | PUnsupported => PUnsupported
                  end
            end
          else if (c =? 123)%N then
            match skip_ws r with
            | [] => PSyntaxError
            | c' :: r' =>
                if (c' =? 125)%N then POk (JObj []) r'
                else
                  match parse_members fuel' r with
                  | POk l rest => POk (JObj l) rest
                  | PSyntaxError => PSyntaxError
                  | PUnsupported => PUnsupported
                  end
            end
          else if (c =? 45)%N || is_digit c then parse_number (c :: r)
          else PSyntaxError
      end
  end

with parse_elements (fuel : nat) (s : jsstring) {struct fuel} : parsed (list json) :=
  match fuel with
  | O => PUnsupported
  | S fuel' =>
      match parse_value fuel' s with
      | POk v rest =>
          match skip_ws rest with
          | [] => PSyntaxError
          | c :: rest' =>
              if (c =? 44)%N then
                match parse_elements fuel' rest' with
                | POk l rest'' => POk (v :: l) rest''
                | PSyntaxError => PSyntaxError
                | PUnsupported => PUnsupported
                end
              else if (c =? 93)%N then POk [v] rest'
              else PSyntaxError
          end
      | PSyntaxError => PSyntaxError
      | PUnsupported => PUnsupported
      end
  end

with parse_members (fuel : nat) (s : jsstring) {struct fuel}
  : parsed (list (jsstring * json)) :=
  match fuel with
  | O => PUnsupported
  | S fuel' =>
      match skip_ws s with
      | [] => PSyntaxError
      | q :: r =>
          if negb (q =? 34)%N then PSyntaxError
          else
            match parse_chars r with
            | POk key rest =>
                match skip_ws rest with
                | [] => PSyntaxError
                | colon :: rest1 =>
                    if negb (colon =? 58)%N then PSyntaxError
                    else
                      match parse_value fuel' rest1 with
                      | POk v rest2 =>
                          match skip_ws rest2 with
                          | [] => PSyntaxError
                          | c :: rest3 =>
                              if (c =? 44)%N then
                                match parse_members fuel' rest3 with
                                | POk l rest4 => POk ((key, v) :: l) rest4
                                | PSyntaxError => PSyntaxError
                                | PUnsupported => PUnsupported
                                end
                              else if (c =? 125)%N then POk [(key, v)] rest3
                              else PSyntaxError
                          end
                      | PSyntaxError => PSyntaxError
                      | PUnsupported => PUnsupported
                      end
                end
            | PSyntaxError => PSyntaxError
            | PUnsupported => PUnsupported
            end
      end
  end.

(** [JSON.parse(text)]: one value, then nothing but white space.  Every call
    of the parser consumes a character, so the length of the text is fuel
    enough. *)
Definition JSON_parse (text : jsstring) : parsed json :=
  match parse_value (S (List.length text)) text with
  | POk v rest =>
      match skip_ws rest with
      | [] => POk v []
      | _ :: _ => PSyntaxError
      end
  | PSyntaxError => PSyntaxError
  | PUnsupported => PUnsupported
  end.

(** The values [JSON.stringify] and [JSON.parse] carry faithfully: strings
    of 16-bit code units and integers within [MAX_SAFE]. *)
Fixpoint wf_json (v : json) : Prop :=
  match v with
  | JNull | JBool _ => True
  | JNum n => (Z.abs n <= MAX_SAFE)%Z
  | JStr s => wf_string s
  | JArr l =>
      (fix all (l : list json) : Prop :=
         match l with
         | [] => True
         | v :: l' => wf_json v /\ all l'
         end) l
  | JObj l =>
      (fix all (l : list (jsstring * json)) : Prop :=
         match l with
         | [] => True
         | kv :: l' => wf_string (fst kv) /\ wf_json (snd kv) /\ all l'
         end) l
  end.

(** The fuel [parse_value] needs to read a value back. *)
Fixpoint weight (v : json) : nat :=
  match v with
  | JArr l =>
      S ((fix sum (l : list json) : nat :=
            match l with
            | [] => O
            | v :: l' => S (weight v + sum l')
            end) l)
  | JObj l =>
      S ((fix sum (l : list (jsstring * json)) : nat :=
            match l with
            | [] => O
            | kv :: l' => S (weight (snd kv) + sum l')
            end) l)
  | _ => 1%nat
  end.

Definition weights (l : list json) : nat :=
  fold_right (fun v n => S (weight v + n)) O l.

Definition member_weights (l : list (jsstring * json)) : nat :=
  fold_right (fun kv n => S (weight (snd kv) + n)) O l.

Definition stringify_member (kv : jsstring * json) : jsstring :=
  QuoteJSONString (fst kv) ++ 58%N :: JSON_stringify (snd kv).

(** ** [btoa] and [atob] *)

Definition b64_char (v : N) : codeunit :=
  if (v <? 26)%N then (65 + v)%N
  else if (v <? 52)%N then (71 + v)%N
  else if (v <? 62)%N then (v - 4)%N
  else if (v =? 62)%N then 43%N
  else 47%N.

Definition b64_index (c : codeunit) : option N :=
  if ((65 <=? c) && (c <=? 90))%N then Some (c - 65)%N
  else if ((97 <=? c) && (c <=? 122))%N then Some (c - 71)%N
  else if ((48 <=? c) && (c <=? 57))%N then Some (c + 4)%N
  else if (c =? 43)%N then Some 62%N
  else if (c =? 47)%N then Some 63%N
  else None.

Fixpoint b64_encode (s : jsstring) : jsstring :=
  match s with
  | [] => []
  | [a] =>
      [b64_char (a / 4); b64_char ((a mod 4) * 16); 61; 61]
  | [a; b] =>
      [b64_char (a / 4); b64_char ((a mod 4) * 16 + b / 16);
       b64_char ((b mod 16) * 4); 61]
  | a :: b :: c :: r =>
      b64_char (a / 4) :: b64_char ((a mod 4) * 16 + b / 16) ::
      b64_char ((b mod 16) * 4 + c / 64) :: b64_char (c mod 64) ::
      b64_encode r
  end%N.

(** [btoa(s)]: [None] is the [InvalidCharacterError] thrown when [s] holds a
    code unit above 255. *)
Definition btoa (s : jsstring) : option jsstring :=
  if forallb (fun c => (c <=? 255)%N) s then Some (b64_encode s) else None.

Definition is_ascii_ws (c : codeunit) : bool :=
  ((c =? 9) || (c =? 10) || (c =? 12) || (c =? 13) || (c =? 32))%N.

(** One or two [=] at the very end are dropped. *)
Fixpoint drop_padding (s : jsstring) : jsstring :=
  match s with
  | [] => []
  | c :: r =>
      if (c =? 61)%N &&
         match r with
         | [] => true
         | [d] => (d =? 61)%N
         | _ => false
         end
      then []
      else c :: drop_padding r
  end.

Fixpoint b64_decode (s : jsstring) : option jsstring :=
  match s with
  | [] => Some []
  | [_] => None
  | [w; x] =>
      match b64_index w, b64_index x with
      | Some w, Some x => Some [w * 4 + x / 16]
      | _, _ => None
      end
  | [w; x; y] =>
      match b64_index w, b64_index x, b64_index y with
      | Some w, Some x, Some y =>
          Some [w * 4 + x / 16; (x mod 16) * 16 + y / 4]
      | _, _, _ => None
      end
  | w :: x :: y :: z :: r =>
      match b64_index w, b64_index x, b64_index y, b64_index z, b64_decode r with
      | Some w, Some x, Some y, Some z, Some t =>
          Some (w * 4 + x / 16 :: (x mod 16) * 16 + y / 4 :: (y mod 4) * 64 + z :: t)
      | _, _, _, _, _ => None
      end
  end%N.

(** [atob(s)], the forgiving base64 decoding of the HTML standard: ASCII
    white space is removed, padding is dropped from a text whose length is a
    multiple of four, and what remains must be alphabet characters whose
    number is not one more than a multiple of four.  [None] is the
    [InvalidCharacterError]. *)
Definition atob (s : jsstring) : option jsstring :=
  let data := filter (fun c => negb (is_ascii_ws c)) s in
  let data := if (Nat.eqb (Nat.modulo (List.length data) 4) 0)
              then drop_padding data else data in
  b64_decode data.

(** ** [String.prototype.trim] and [Array.prototype.includes] *)

(** White space and line terminators of ECMAScript. *)
Definition is_js_ws (c : codeunit) : bool :=
  ((9 <=? c) && (c <=? 13) || (c =? 32) || (c =? 160) || (c =? 5760) ||
   (8192 <=? c) && (c <=? 8202) || (c =? 8232) || (c =? 8233) ||
   (c =? 8239) || (c =? 8287) || (c =? 12288) || (c =? 65279))%N.

Fixpoint trimStart (s : jsstring) : jsstring :=
  match s with
  | c :: r => if is_js_ws c then trimStart r else s
  | [] => []
  end.

Fixpoint trimEnd (s : jsstring) : jsstring :=
  match s with
  | c :: r =>
      match trimEnd r with
      | [] => if is_js_ws c then [] else [c]
      | r' => c :: r'
      end
  | [] => []
  end.

Definition trim (s : jsstring) : jsstring := trimEnd (trimStart s).

Definition includes (l : list (list N)) (s : jsstring) : bool :=
  existsb (str_eqb s) l.

(** The text up to the first [sep], and the text after it. *)
Fixpoint split_at (sep : codeunit) (s : jsstring) : list N * option (list N) :=
  match s with
  | [] => ([], None)
  | c :: r =>
      if (c =? sep)%N then ([], Some r)
      else let (a, b) := split_at sep r in (c :: a, b)
  end.

Fixpoint split_all (fuel : nat) (sep : codeunit) (s : jsstring) : list (list N) :=
  match fuel with
  | O => [s]
  | S fuel' =>
      match split_at sep s with
      | (a, None) => [a]
      | (a, Some b) => a :: split_all fuel' sep b
      end
  end.

(** ** Dates

    A time value is a number of milliseconds since the epoch, in UTC. *)

Definition msPerDay : Z := 86400000.

(** Day number of a date of the proleptic Gregorian calendar, and back. *)
Definition days_from_civil (y m d : Z) : Z :=
  let y := if (m <=? 2)%Z then (y - 1)%Z else y in
  let era := (y / 400)%Z in
  let yoe := (y - era * 400)%Z in
  let mp := ((m + 9) mod 12)%Z in
  let doy := ((153 * mp + 2) / 5 + d - 1)%Z in
  let doe := (yoe * 365 + yoe / 4 - yoe / 100 + doy)%Z in
  (era * 146097 + doe - 719468)%Z.

Definition civil_from_days (z : Z) : Z * Z * Z :=
  let z := (z + 719468)%Z in
  let era := (z / 146097)%Z in
  let doe := (z - era * 146097)%Z in
  let yoe := ((doe - doe / 1460 + doe / 36524 - doe / 146096) / 365)%Z in
  let y := (yoe + era * 400)%Z in
  let doy := (doe - (365 * yoe + yoe / 4 - yoe / 100))%Z in
  let mp := ((5 * doy + 2) / 153)%Z in
  let d := (doy - (153 * mp + 2) / 5 + 1)%Z in
  let m := if (mp <? 10)%Z then (mp + 3)%Z else (mp - 9)%Z in
  (if (m <=? 2)%Z then (y + 1)%Z else y, m, d).

Definition is_leap (y : Z) : bool :=
  ((y mod 4 =? 0) && negb (y mod 100 =? 0) || (y mod 400 =? 0))%Z.

Definition days_in_month (y m : Z) : Z :=
  if (m =? 2)%Z then (if is_leap y then 29 else 28)%Z
  else if ((m =? 4) || (m =? 6) || (m =? 9) || (m =? 11))%Z then 30%Z
  else 31%Z.

Definition digit_value (c : codeunit) : option Z :=
  if is_digit c then Some (Z.of_N (c - 48)) else None.

Definition number2 (a b : codeunit) : option Z :=
  match digit_value a, digit_value b with
  | Some x, Some y => Some (x * 10 + y)%Z
  | _, _ => None
  end.

Definition number4 (a b c d : codeunit) : option Z :=
  match number2 a b, number2 c d with
  | Some x, Some y => Some (x * 100 + y)%Z
  | _, _ => None
  end.

(** The time value of a text in the date-only form [YYYY-MM-DD] that names
    a day of the calendar: [new Date(dateString)] reads it as UTC midnight
    of that day, on every host.  [None] says that the text is not such a
    text; what [new Date] makes of it then is the host's ([otherDate]
    below). *)
Definition Date_parse (s : jsstring) : option Z :=
  match s with
  | [y1; y2; y3; y4; h1; m1; m2; h2; d1; d2] =>
      if ((h1 =? 45) && (h2 =? 45))%N then
        match number4 y1 y2 y3 y4, number2 m1 m2, number2 d1 d2 with
        | Some y, Some m, Some d =>
            if ((1 <=? m) && (m <=? 12) && (1 <=? d) && (d <=? days_in_month y m))%Z
            then Some (days_from_civil y m d * msPerDay)%Z
            else None
        | _, _, _ => None
        end
      else None
  | _ => None
  end.

Definition digit_of (n : Z) : codeunit := (48 + Z.to_N (n mod 10))%N.

Definition pad2 (n : Z) : jsstring := [digit_of (n / 10); digit_of n].
Definition pad3 (n : Z) : jsstring := [digit_of (n / 100); digit_of (n / 10); digit_of n].
Definition pad4 (n : Z) : jsstring := digit_of (n / 1000) :: pad3 n.
Definition pad6 (n : Z) : jsstring := digit_of (n / 100000) :: digit_of (n / 10000) :: pad4 n.

(** [new Date(t).toISOString()]. *)
Definition toISOString (t : Z) : jsstring :=
  let '(y, m, d) := civil_from_days (t / msPerDay) in
  let ms := (t mod msPerDay)%Z in
  (if ((0 <=? y) && (y <=? 9999))%Z then pad4 y
   else (if (y <? 0)%Z then 45%N else 43%N) :: pad6 (Z.abs y))
  ++ 45%N :: pad2 m ++ 45%N :: pad2 d ++ 84%N ::
  pad2 (ms / 3600000) ++ 58%N :: pad2 (ms / 60000 mod 60) ++ 58%N ::
  pad2 (ms / 1000 mod 60) ++ 46%N :: pad3 (ms mod 1000) ++ [90%N].

(** ** The host of one handler run

    The clock reading, the local time zone (local time minus UTC, in
    milliseconds, taken as a fixed offset), which storage the host offers,
    whether the storage call of this run fails, and what the host's [Date]
    makes of a text that is not a date-only text naming a day of the
    calendar: its time value, or [None] for an Invalid Date.  (Hosts read a
    date and time without offset as local time, and differ on the rest: V8
    reads [2025-02-30] as 2 March.)  The clock readings taken during one
    run are taken to coincide. *)
Record Host := {
  now : Z;
  timezone : Z;
  hasCreationStorage : bool;
  storageFails : bool;
  otherDate : jsstring -> option Z
}.

(** [new Date(dateString).getTime()] on the host; [None] is the time value
    [NaN] of an Invalid Date. *)
Definition new_Date (h : Host) (dateString : jsstring) : option Z :=
  match Date_parse dateString with
  | Some t => Some t
  | None => otherDate h dateString
  end.

(** A date and time without offset, [YYYY-MM-DDTHH:mm], read as local time
    in the zone [tz]; every other text is an Invalid Date.  The hosts of
    the examples read texts that are not date-only this way. *)
Definition localDateTime (tz : Z) (s : jsstring) : option Z :=
  match s with
  | [y1; y2; y3; y4; h1; m1; m2; h2; d1; d2; t; H1; H2; c; M1; M2] =>
      if ((h1 =? 45) && (h2 =? 45) && (t =? 84) && (c =? 58))%N then
        match number4 y1 y2 y3 y4, number2 m1 m2, number2 d1 d2,
              number2 H1 H2, number2 M1 M2 with
        | Some y, Some m, Some d, Some H, Some M =>
            if ((1 <=? m) && (m <=? 12) && (1 <=? d) && (d <=? days_in_month y m)
                && (H <=? 23) && (M <=? 59))%Z
            then Some (days_from_civil y m d * msPerDay
                       + (H * 60 + M) * 60000 - tz)%Z
            else None
        | _, _, _, _, _ => None
        end
      else None
  | _ => None
  end.

(** The local calendar day of a time value. *)
Definition localDay (h : Host) (t : Z) : Z := ((t + timezone h) / msPerDay)%Z.

Definition monthShort (m : Z) : jsstring :=
  if (m =? 1)%Z then js "Jan" else if (m =? 2)%Z then js "Feb"
  else if (m =? 3)%Z then js "Mar" else if (m =? 4)%Z then js "Apr"
  else if (m =? 5)%Z then js "May" else if (m =? 6)%Z then js "Jun"
  else if (m =? 7)%Z then js "Jul" else if (m =? 8)%Z then js "Aug"
  else if (m =? 9)%Z then js "Sep" else if (m =? 10)%Z then js "Oct"
  else if (m =? 11)%Z then js "Nov" else js "Dec".

(** [formatDate(dateString)]: the three dates are set to their local
    midnight and compared; [toLocaleDateString('en-US', options)] writes
    the month name and the day, and the year when it is not this year. *)
Definition formatDate (h : Host) (dateString : jsstring) : jsstring :=
  if negb (truthy dateString) then []
  else
    match new_Date h dateString with
    | None => js "Invalid Date"
    | Some date =>
        let today := localDay h (now h) in
        let tomorrow := (today + 1)%Z in
        let day := localDay h date in
        if (day =? today)%Z then js "Today"
        else if (day =? tomorrow)%Z then js "Tomorrow"
        else
          let '(y, m, d) := civil_from_days day in
          let '(thisYear, _, _) := civil_from_days today in
          monthShort m ++ js " " ++ Number_toString d ++
          (if negb (y =? thisYear)%Z then js ", " ++ Number_toString y else [])
    end.

(** ** Rendering *)

(** [escapeHtml(text)]: the text becomes the content of an element and the
    element is serialized. *)
Definition escape_text_unit (c : codeunit) : jsstring :=
  if (c =? 38)%N then js "&amp;"
  else if (c =? 60)%N then js "&lt;"
  else if (c =? 62)%N then js "&gt;"
  else if (c =? 160)%N then js "&nbsp;"
  else [c].

Definition escapeHtml (text : jsstring) : jsstring :=
  flat_map escape_text_unit text.

(** A double quote, and a line break followed by the indentation of the
    template. *)
Definition dq : jsstring := [34%N].
Definition nl (indent : nat) : jsstring := 10%N :: repeat 32%N indent.

(** The glyphs in front of the three tags, as the source file has them. *)
Definition glyph_project : jsstring := [63743; 252; 236; 197]%N.
Definition glyph_org : jsstring := [63743; 252; 232; 162]%N.
Definition glyph_due : jsstring := [63743; 252; 236; 214]%N.

Definition isOverdue (h : Host) (t : Task) : bool :=
  truthy (dueDate t) &&
  match new_Date h (dueDate t) with
  | Some due => (due <? now h)%Z
  | None => false
  end &&
  negb (completed t).

Definition dueTag (h : Host) (t : Task) : jsstring :=
  js "<span class=" ++ dq ++ js "task-tag due " ++
  (if isOverdue h t then js "overdue" else []) ++ dq ++ js ">" ++
  glyph_due ++ js " " ++ formatDate h (dueDate t) ++ js "</span>".

(** The template of one row. *)
Definition renderTask (h : Host) (t : Task) : jsstring :=
  nl 12 ++ js "<div class=" ++ dq ++ js "task-item " ++
    (if completed t then js "completed" else []) ++ dq ++ js " " ++
  nl 17 ++ js "onclick=" ++ dq ++ js "showEditView(" ++ Number_toString (id t) ++
    js ")" ++ dq ++
  nl 17 ++ js "data-task-id=" ++ dq ++ Number_toString (id t) ++ dq ++ js ">" ++
  nl 16 ++ js "<div class=" ++ dq ++ js "task-title" ++ dq ++ js ">" ++
    escapeHtml (task t) ++ js "</div>" ++
  nl 16 ++ js "<div class=" ++ dq ++ js "task-meta" ++ dq ++ js ">" ++
  nl 20 ++
    (if truthy (project t)
     then js "<span class=" ++ dq ++ js "task-tag project" ++ dq ++ js ">" ++
          glyph_project ++ js " " ++ escapeHtml (project t) ++ js "</span>"
     else []) ++
  nl 20 ++
    (if truthy (organization t)
     then js "<span class=" ++ dq ++ js "task-tag org" ++ dq ++ js ">" ++
          glyph_org ++ js " " ++ escapeHtml (organization t) ++ js "</span>"
     else []) ++
  nl 20 ++ (if truthy (dueDate t) then dueTag h t else []) ++
  nl 16 ++ js "</div>" ++
  nl 12 ++ js "</div>" ++
  nl 8.

(** What [renderTasks] leaves in the document. *)
Record Rendered := {
  innerHTML : jsstring;
  emptyStateVisible : bool
}.

Section Rendering.
Context {collator : Collator}.

Definition renderTasks (h : Host) (tasks : list Task) (currentSortMode : jsstring)
  : Rendered :=
  match tasks with
  | [] => {| innerHTML := []; emptyStateVisible := true |}
  | _ :: _ =>
      let sortedTasks := sortTasks tasks currentSortMode in
      {| innerHTML := List.concat (map (renderTask h) sortedTasks);
         emptyStateVisible := false |}
  end.

End Rendering.

(** ** The state of the to-do application *)

Module Draft.
Record t := mk {
  task : jsstring;
  project : jsstring;
  organization : jsstring;
  dueDate : jsstring
}.
Definition empty : t := mk [] [] [] [].
End Draft.

(** The four variables that [saveData] stores. *)
Record AppState := {
  tasks : list Task;
  projects : list (list N);
  organizations : list (list N);
  currentSortMode : jsstring
}.

(** The part of the document the handlers write. *)
Record Dom := {
  activeView : jsstring;
  taskList : Rendered;
  confirmTaskBtn_disabled : bool;
  listenersBound : bool
}.

(** The item [dev_tasks_data] of the two storages; [None] when absent. *)
Record Storage := {
  creationStorage_item : option (list N);
  localStorage_item : option (list N)
}.

Record World := {
  appState : AppState;
  isListening : bool;
  currentTaskDraft : Draft.t;
  editingTaskId : option Z;
  dom : Dom;
  storage : Storage
}.

Definition initialApp : AppState :=
  {| tasks := []; projects := []; organizations := [];
     currentSortMode := js "date" |}.

Definition initialDom : Dom :=
  {| activeView := js "mainView";
     taskList := {| innerHTML := []; emptyStateVisible := false |};
     confirmTaskBtn_disabled := true;
     listenersBound := false |}.

(** The module-level variables as the script initializes them, over the
    storage the page finds. *)
Definition initialWorld (s : Storage) : World :=
  {| appState := initialApp; isListening := false;
     currentTaskDraft := Draft.empty; editingTaskId := None;
     dom := initialDom; storage := s |}.

Definition emptyStorage : Storage :=
  {| creationStorage_item := None; localStorage_item := None |}.

Definition with_appState (a : AppState) (w : World) : World :=
  {| appState := a; isListening := isListening w;
     currentTaskDraft := currentTaskDraft w; editingTaskId := editingTaskId w;
     dom := dom w; storage := storage w |}.

Definition with_dom (d : Dom) (w : World) : World :=
  {| appState := appState w; isListening := isListening w;
     currentTaskDraft := currentTaskDraft w; editingTaskId := editingTaskId w;
     dom := d; storage := storage w |}.

Definition with_storage (s : Storage) (w : World) : World :=
  {| appState := appState w; isListening := isListening w;
     currentTaskDraft := currentTaskDraft w; editingTaskId := editingTaskId w;
     dom := dom w; storage := s |}.

Definition with_listening (b : bool) (w : World) : World :=
  {| appState := appState w; isListening := b;
     currentTaskDraft := currentTaskDraft w; editingTaskId := editingTaskId w;
     dom := dom w; storage := storage w |}.

Definition with_draft (d : Draft.t) (w : World) : World :=
  {| appState := appState w; isListening := isListening w;
     currentTaskDraft := d; editingTaskId := editingTaskId w;
     dom := dom w; storage := storage w |}.

Definition with_editing (e : option Z) (w : World) : World :=
  {| appState := appState w; isListening := isListening w;
     currentTaskDraft := currentTaskDraft w; editingTaskId := e;
     dom := dom w; storage := storage w |}.

(** ** Persistence *)

Inductive Error := InvalidCharacterError | SyntaxError | StorageError.

(** How an [async] function ends: its promise is fulfilled, or rejected
    with an error.  [Unmodelled] marks a stored text outside this model: a
    numeral [JSON_parse] does not interpret, or a value of another shape
    than the snapshot [saveData] writes. *)
Inductive Outcome :=
| Fulfilled (w : World)
| Rejected (e : Error) (w : World)
| Unmodelled.

(** The object literal of [saveData], and a task as [JSON.stringify] sees
    it. *)
Definition json_of_task (t : Task) : json :=
  JObj [(js "id", JNum (id t)); (js "task", JStr (task t));
        (js "project", JStr (project t));
        (js "organization", JStr (organization t));
        (js "dueDate", JStr (dueDate t));
        (js "completed", JBool (completed t));
        (js "createdAt", JStr (createdAt t))].

Definition json_of_state (a : AppState) : json :=
  JObj [(js "tasks", JArr (map json_of_task (tasks a)));
        (js "projects", JArr (map JStr (projects a)));
        (js "organizations", JArr (map JStr (organizations a)));
        (js "currentSortMode", JStr (currentSortMode a))].

Definition saveData (h : Host) (w : World) : Outcome :=
  let data := json_of_state (appState w) in
  if hasCreationStorage h then
    match btoa (JSON_stringify data) with
    | None => Fulfilled w                         (* caught *)
    | Some encoded =>
        if storageFails h then Fulfilled w        (* caught *)
        else Fulfilled
               (with_storage
                  {| creationStorage_item := Some encoded;
                     localStorage_item := localStorage_item (storage w) |} w)
    end
  else if storageFails h then Rejected StorageError w
  else Fulfilled
         (with_storage
            {| creationStorage_item := creationStorage_item (storage w);
               localStorage_item := Some (JSON_stringify data) |} w).

(** *** Reading a snapshot back *)

(** [!!v]. *)
Definition json_truthy (v : json) : bool :=
  match v with
  | JNull => false
  | JBool b => b
  | JNum n => negb (n =? 0)%Z
  | JStr s => truthy s
  | JArr _ | JObj _ => true
  end.

(** [data.key]: the last member of that name; [None] is [undefined]. *)
Fixpoint member (key : jsstring) (l : list (list N * json)) : option json :=
  match l with
  | [] => None
  | (k, v) :: l' =>
      match member key l' with
      | Some v' => Some v'
      | None => if str_eqb k key then Some v else None
      end
  end.

Definition property (key : jsstring) (data : json) : option json :=
  match data with
  | JObj l => member key l
  | _ => None
  end.

(** A parsed value as a task: an object with the seven properties of the
    task literal, in its order. *)
Definition task_of_json (v : json) : option Task :=
  match v with
  | JObj [(k1, JNum i); (k2, JStr t); (k3, JStr p); (k4, JStr o);
          (k5, JStr d); (k6, JBool c); (k7, JStr ca)] =>
      if str_eqb k1 (js "id") && str_eqb k2 (js "task") &&
         str_eqb k3 (js "project") && str_eqb k4 (js "organization") &&
         str_eqb k5 (js "dueDate") && str_eqb k6 (js "completed") &&
         str_eqb k7 (js "createdAt")
      then Some {| id := i; task := t; project := p; organization := o;
                   dueDate := d; completed := c; createdAt := ca |}
      else None
  | _ => None
  end.

Fixpoint all_some {A B} (f : A -> option B) (l : list A) : option (list B) :=
  match l with
  | [] => Some []
  | x :: l' =>
      match f x, all_some f l' with
      | Some y, Some r => Some (y :: r)
      | _, _ => None
      end
  end.

Definition tasks_of_json (v : json) : option (list Task) :=
  match v with
  | JArr l => all_some task_of_json l
  | _ => None
  end.

Definition string_of_json (v : json) : option (list N) :=
  match v with
  | JStr s => Some s
  | _ => None
  end.

Definition strings_of_json (v : json) : option (list (list N)) :=
  match v with
  | JArr l => all_some string_of_json l
  | _ => None
  end.

(** [x || fallback], with the value read at its type; the outer [None] is a
    truthy value of another type. *)
Definition or_else {A} (read : json -> option A) (fallback : A)
           (x : option json) : option A :=
  match x with
  | None => Some fallback
  | Some v => if json_truthy v then read v else Some fallback
  end.

(** The assignments at the end of [loadData]. *)
Definition assign (data : json) (w : World) : Outcome :=
  match or_else tasks_of_json [] (property (js "tasks") data),
        or_else strings_of_json [] (property (js "projects") data),
        or_else strings_of_json [] (property (js "organizations") data),
        or_else string_of_json (js "date") (property (js "currentSortMode") data)
  with
  | Some ts, Some ps, Some os, Some mode =>
      Fulfilled
        (with_appState {| tasks := ts; projects := ps; organizations := os;
                     currentSortMode := mode |} w)
  | _, _, _, _ => Unmodelled
  end.

Definition loadData (h : Host) (w : World) : Outcome :=
  if hasCreationStorage h then
    if storageFails h then Fulfilled w                      (* caught *)
    else
      match creationStorage_item (storage w) with
      | None => Fulfilled w
      | Some stored =>
          if truthy stored then
            match atob stored with
            | None => Fulfilled w                           (* caught *)
            | Some text =>
                match JSON_parse text with
                | PSyntaxError => Fulfilled w               (* caught *)
                | PUnsupported => Unmodelled
                | POk data _ =>
                    if json_truthy data then assign data w else Fulfilled w
                end
            end
          else Fulfilled w
      end
  else
    if storageFails h then Rejected StorageError w
    else
      match localStorage_item (storage w) with
      | None => Fulfilled w
      | Some stored =>
          if truthy stored then
            match JSON_parse stored with
            | PSyntaxError => Rejected SyntaxError w
            | PUnsupported => Unmodelled
            | POk data _ =>
                if json_truthy data then assign data w else Fulfilled w
            end
          else Fulfilled w
      end.

(** A handler calls [saveData()] and does not wait for it: it goes on with
    the world the call left, whether the promise is fulfilled or not. *)
Definition unawaited (o : Outcome) (otherwise : World) : World :=
  match o with
  | Fulfilled w => w
  | Rejected _ w => w
  | Unmodelled => otherwise
  end.

(** ** Handlers *)

Definition setView (viewId : jsstring) (d : Dom) : Dom :=
  {| activeView := viewId; taskList := taskList d;
     confirmTaskBtn_disabled := confirmTaskBtn_disabled d;
     listenersBound := listenersBound d |}.

Definition setTaskList (r : Rendered) (d : Dom) : Dom :=
  {| activeView := activeView d; taskList := r;
     confirmTaskBtn_disabled := confirmTaskBtn_disabled d;
     listenersBound := listenersBound d |}.

Definition setConfirmDisabled (b : bool) (d : Dom) : Dom :=
  {| activeView := activeView d; taskList := taskList d;
     confirmTaskBtn_disabled := b;
     listenersBound := listenersBound d |}.

Definition setListenersBound (d : Dom) : Dom :=
  {| activeView := activeView d; taskList := taskList d;
     confirmTaskBtn_disabled := confirmTaskBtn_disabled d;
     listenersBound := true |}.

Definition showView (viewId : jsstring) (w : World) : World :=
  with_dom (setView viewId (dom w)) w.

(** [!editingTaskId]: [null] and [0] are falsy. *)
Definition editing (w : World) : option Z :=
  match editingTaskId w with
  | Some i => if (i =? 0)%Z then None else Some i
  | None => None
  end.

(** [tasks.find(t => t.id === taskId)]. *)
Definition findTask (taskId : Z) (l : list Task) : option Task :=
  find (fun t => (id t =? taskId)%Z) l.

(** The object [find] returned is updated in place: the first task of that
    id changes. *)
Fixpoint updateFound (taskId : Z) (f : Task -> Task) (l : list Task) : list Task :=
  match l with
  | [] => []
  | t :: l' =>
      if (id t =? taskId)%Z then f t :: l'
      else t :: updateFound taskId f l'
  end.

(** What the user left in the edit view, and the answers to the two
    prompts ([None] when a prompt is dismissed). *)
Record EditForm := {
  editTaskInput : jsstring;
  editProjectSelect : jsstring;
  editOrgSelect : jsstring;
  editDueInput : jsstring;
  promptProject : option (list N);
  promptOrg : option (list N)
}.

(** A name is added to a registry when it is not empty and not there. *)
Definition register (name : jsstring) (registry : list (list N)) : list (list N) :=
  if truthy name && negb (includes registry name) then registry ++ [name]
  else registry.

(** The value of a select, with the answer to the prompt in place of
    [__new__]; the name that goes into the task, and the registry. *)
Definition chosen (selected : jsstring) (answer : option (list N))
           (registry : list (list N)) : list N * list (list N) :=
  if str_eqb selected (js "__new__") then
    match answer with
    | Some name => (name, register name registry)
    | None => ([], registry)
    end
  else (selected, registry).

Section Handlers.
Context {collator : Collator}.

(** [renderTasks()] as the handlers call it. *)
Definition rerender (h : Host) (w : World) : World :=
  with_dom
    (setTaskList
       (renderTasks h (tasks (appState w)) (currentSortMode (appState w)))
       (dom w)) w.

(** [saveData(); renderTasks();], the end of every mutating handler. *)
Definition saveAndRender (h : Host) (w : World) : World :=
  rerender h (unawaited (saveData h w) w).

Definition resetTaskDraft (w : World) : World :=
  with_dom (setConfirmDisabled true (dom w)) (with_draft Draft.empty w).

Definition showAddView (w : World) : World :=
  showView (js "addView") (resetTaskDraft w).

Definition showEditView (taskId : Z) (w : World) : World :=
  let w := with_editing (Some taskId) w in
  match findTask taskId (tasks (appState w)) with
  | Some _ => showView (js "editView") w
  | None => w
  end.

Definition cancelAdd (w : World) : World :=
  showView (js "mainView") (resetTaskDraft w).

Definition cancelEdit (w : World) : World :=
  showView (js "mainView") (with_editing None w).

Definition startVoiceInput (w : World) : World := with_listening true w.
Definition stopVoiceInput (w : World) : World := with_listening false w.

Definition handleSideClick (w : World) : World :=
  if str_eqb (activeView (dom w)) (js "addView") then
    if negb (isListening w) then startVoiceInput w else stopVoiceInput w
  else w.

(** [processVoiceResponse(data)]: the fields of [data] that are not empty
    overwrite the draft. *)
Definition processVoiceResponse (data : Draft.t) (w : World) : World :=
  let d := currentTaskDraft w in
  let d' :=
    Draft.mk
      (if truthy (Draft.task data) then Draft.task data else Draft.task d)
      (if truthy (Draft.project data) then Draft.project data else Draft.project d)
      (if truthy (Draft.organization data) then Draft.organization data
       else Draft.organization d)
      (if truthy (Draft.dueDate data) then Draft.dueDate data else Draft.dueDate d) in
  let w := with_draft d' (with_listening false w) in
  with_dom (setConfirmDisabled (negb (truthy (Draft.task d'))) (dom w)) w.

(** [simulateVoiceInput()], which a browser without plugin channel runs
    two seconds after [startVoiceInput]: a fixed task, due in a week. *)
Definition simulateVoiceInput (h : Host) (w : World) : World :=
  let mockResponse :=
    Draft.mk (js "Implement user authentication") (js "WebApp") (js "TechCorp")
             (fst (split_at 84 (toISOString (now h + 7 * 24 * 60 * 60 * 1000)%Z))) in
  processVoiceResponse mockResponse w.

(** [window.onPluginMessage], for a message whose payload parsed to the
    four fields [data]. *)
Definition onPluginMessage (data : Draft.t) (w : World) : World :=
  if isListening w then
    if truthy (Draft.task data) then processVoiceResponse data w else w
  else w.

Definition confirmTask (h : Host) (w : World) : World :=
  let draft := currentTaskDraft w in
  if negb (truthy (Draft.task draft)) then w
  else
    let a := appState w in
    let newTask :=
      {| id := now h;
         task := Draft.task draft;
         project := Draft.project draft;
         organization := Draft.organization draft;
         dueDate := Draft.dueDate draft;
         completed := false;
         createdAt := toISOString (now h) |} in
    let a' :=
      {| tasks := tasks a ++ [newTask];
         projects := register (Draft.project draft) (projects a);
         organizations := register (Draft.organization draft) (organizations a);
         currentSortMode := currentSortMode a |} in
    showView (js "mainView") (saveAndRender h (with_appState a' w)).

Definition saveEdit (h : Host) (form : EditForm) (w : World) : World :=
  match editing w with
  | None => w
  | Some editingId =>
      let a := appState w in
      match findTask editingId (tasks a) with
      | None => w
      | Some _ =>
          let newTask := trim (editTaskInput form) in
          if negb (truthy newTask) then w               (* alert *)
          else
            let (newProject, projects') :=
              chosen (editProjectSelect form) (promptProject form) (projects a) in
            let (newOrg, organizations') :=
              chosen (editOrgSelect form) (promptOrg form) (organizations a) in
            let edit (t : Task) : Task :=
              {| id := id t; task := newTask; project := newProject;
                 organization := newOrg; dueDate := editDueInput form;
                 completed := completed t; createdAt := createdAt t |} in
            let a' :=
              {| tasks := updateFound editingId edit (tasks a);
                 projects := projects';
                 organizations := organizations';
                 currentSortMode := currentSortMode a |} in
            showView (js "mainView") (saveAndRender h (with_appState a' w))
      end
  end.

Definition deleteTask (h : Host) (confirmed : bool) (w : World) : World :=
  match editing w with
  | None => w
  | Some editingId =>
      if confirmed then
        let a := appState w in
        let a' :=
          {| tasks := filter (fun t => negb (id t =? editingId)%Z) (tasks a);
             projects := projects a;
             organizations := organizations a;
             currentSortMode := currentSortMode a |} in
        showView (js "mainView") (saveAndRender h (with_appState a' w))
      else w
  end.

Definition toggleTaskComplete (h : Host) (taskId : Z) (w : World) : World :=
  let a := appState w in
  match findTask taskId (tasks a) with
  | Some _ =>
      let flip (t : Task) : Task :=
        {| id := id t; task := task t; project := project t;
           organization := organization t; dueDate := dueDate t;
           completed := negb (completed t); createdAt := createdAt t |} in
      let a' :=
        {| tasks := updateFound taskId flip (tasks a);
           projects := projects a;
           organizations := organizations a;
           currentSortMode := currentSortMode a |} in
      saveAndRender h (with_appState a' w)
  | None => w
  end.

Definition toggleSort (h : Host) (w : World) : World :=
  let a := appState w in
  let a' :=
    {| tasks := tasks a; projects := projects a;
       organizations := organizations a;
       currentSortMode :=
         if str_eqb (currentSortMode a) (js "date") then js "project"
         else js "date" |} in
  saveAndRender h (with_appState a' w).

(** The [DOMContentLoaded] handler: it waits for [loadData()], so a
    rejection ends it before the listeners are set up. *)
Definition initialize (h : Host) (w : World) : Outcome :=
  match loadData h w with
  | Fulfilled w' => Fulfilled (rerender h (with_dom (setListenersBound (dom w')) w'))
  | Rejected e w' => Rejected e w'
  | Unmodelled => Unmodelled
  end.

(** The events the page reacts to once it is set up. *)
Inductive Event :=
| ShowAddView
| ShowEditView (taskId : Z)
| CancelAdd
| CancelEdit
| SideClick
| PluginMessage (data : Draft.t)
| SimulatedVoice
| ConfirmTask
| SaveEdit (form : EditForm)
| DeleteTask (confirmed : bool)
| ToggleTaskComplete (taskId : Z)
| ToggleSort.

Definition step (h : Host) (e : Event) (w : World) : World :=
  match e with
  | ShowAddView => showAddView w
  | ShowEditView taskId => showEditView taskId w
  | CancelAdd => cancelAdd w
  | CancelEdit => cancelEdit w
  | SideClick => handleSideClick w
  | PluginMessage data => onPluginMessage data w
  | SimulatedVoice => simulateVoiceInput h w
  | ConfirmTask => confirmTask h w
  | SaveEdit form => saveEdit h form w
  | DeleteTask confirmed => deleteTask h confirmed w
  | ToggleTaskComplete taskId => toggleTaskComplete h taskId w
  | ToggleSort => toggleSort h w
  end.

(** A run of the page: each event with the host it finds. *)
Fixpoint run (trace : list (Host * Event)) (w : World) : World :=
  match trace with
  | [] => w
  | (h, e) :: trace' => run trace' (step h e w)
  end.

End Handlers.

(** ** The share link of the QR-code generator *)

(** The five fields of the form; the same record holds the values of the
    inputs and the object [getFormData] returns. *)
Record FormData := {
  title : jsstring;
  url : jsstring;
  description : jsstring;
  iconUrl : jsstring;
  themeColor : jsstring
}.

Definition getFormData (form : FormData) : FormData :=
  {| title := trim (title form);
     url := trim (url form);
     description := trim (description form);
     iconUrl := trim (iconUrl form);
     themeColor := themeColor form |}.

Definition json_of_form (d : FormData) : json :=
  JObj [(js "title", JStr (title d)); (js "url", JStr (url d));
        (js "description", JStr (description d));
        (js "iconUrl", JStr (iconUrl d));
        (js "themeColor", JStr (themeColor d))].

(** [Object.values(data).some(value => value && value !== '#FE5000')]. *)
Definition hasData (d : FormData) : bool :=
  existsb (fun value => truthy value && negb (str_eqb value (js "#FE5000")))
          [title d; url d; description d; iconUrl d; themeColor d].

(** [s.replace(/a/g, b)] for single characters, and [s.replace(/a/g, '')]. *)
Definition replaceAll (a b : codeunit) (s : jsstring) : jsstring :=
  map (fun c => if (c =? a)%N then b else c) s.

Definition removeAll (a : codeunit) (s : jsstring) : jsstring :=
  filter (fun c => negb (c =? a)%N) s.

(** The URL-safe text of [updateShareURL]. *)
Definition urlSafe (encoded : jsstring) : jsstring :=
  removeAll 61 (replaceAll 47 95 (replaceAll 43 45 encoded)).

(** The query [updateShareURL] appends to the address of the page;
    [None] when the share field is cleared instead. *)
Definition shareQuery (form : FormData) : option (list N) :=
  let data := getFormData form in
  if hasData data then
    match btoa (JSON_stringify (json_of_form data)) with
    | Some encoded => Some (js "?jsondata=" ++ urlSafe encoded)
    | None => None                                          (* caught *)
    end
  else None.

(** The value [updateShareURL] leaves in the share field, on a page at
    [origin] and [pathname]. *)
Definition updateShareURL (origin pathname : jsstring) (form : FormData) : jsstring :=
  match shareQuery form with
  | Some query => origin ++ pathname ++ query
  | None => []
  end.

(** *** Reading the query *)

(** What [new URLSearchParams(search).get(name)] finds. *)
Inductive Lookup :=
| Found (value : jsstring)
| Absent
| Escaped.

Definition has_escape (s : jsstring) : bool := existsb (fun c => (c =? 37)%N) s.

Fixpoint lookup_pairs (name : jsstring) (pairs : list (list N)) : Lookup :=
  match pairs with
  | [] => Absent
  | p :: pairs' =>
      if has_escape p then Escaped
      else
        let (n, v) := split_at 61 p in
        if negb (truthy p) then lookup_pairs name pairs'
        else if str_eqb (replaceAll 43 32 n) name
        then Found (replaceAll 43 32 (match v with Some v => v | None => [] end))
        else lookup_pairs name pairs'
  end.

(** [new URLSearchParams(search).get(name)]: the query is cut at [&], each
    piece at its first [=], and [+] stands for a space.  Percent escapes are
    not interpreted here: a query with one is [Escaped]. *)
Definition URLSearchParams_get (search name : jsstring) : Lookup :=
  let query :=
    match search with
    | c :: r => if (c =? 63)%N then r else search
    | [] => []
    end in
  lookup_pairs name (split_all (List.length query) 38 query).

(** One field of [populateForm]: a property that is present goes into its
    input.  [None] marks a property that is there and is not a string. *)
Definition populateField (key : jsstring) (data : json) (current : jsstring)
  : option (list N) :=
  match property key data with
  | None => Some current
  | Some (JStr s) => Some s
  | Some _ => None
  end.

(** [populateForm(data)]. *)
Definition populateForm (data : json) (form : FormData) : option FormData :=
  match populateField (js "title") data (title form),
        populateField (js "url") data (url form),
        populateField (js "description") data (description form),
        populateField (js "iconUrl") data (iconUrl form),
        populateField (js "themeColor") data (themeColor form)
  with
  | Some t, Some u, Some d, Some i, Some c =>
      Some {| title := t; url := u; description := d; iconUrl := i;
              themeColor := c |}
  | _, _, _, _, _ => None
  end.

(** How [parseURLParameters] leaves the page. *)
Inductive Parsed :=
| Untouched                         (* no [jsondata] parameter *)
| Populated (form : FormData)       (* the form was filled in *)
| InvalidParameters                 (* the notification of the [catch] *)
| OutsideModel.

Definition parseURLParameters (search : jsstring) (form : FormData) : Parsed :=
  match URLSearchParams_get search (js "jsondata") with
  | Escaped => OutsideModel
  | Absent => Untouched
  | Found jsonData =>
      if negb (truthy jsonData) then Untouched
      else
        match atob (replaceAll 95 47 (replaceAll 45 43 jsonData)) with
        | None => InvalidParameters
        | Some decodedData =>
            match JSON_parse decodedData with
            | PSyntaxError => InvalidParameters
            | PUnsupported => OutsideModel
            | POk JNull _ => InvalidParameters    (* [null[field]] throws *)
            | POk parsedData _ =>
                match populateForm parsedData form with
                | Some form' => Populated form'
                | None => OutsideModel
                end
            end
        end
  end.

Definition blankForm : FormData :=
  {| title := []; url := []; description := []; iconUrl := [];
     themeColor := js "#FE5000" |}.

(** ** Vocabulary of the properties *)

(** A text of white space only. *)
Definition whitespace_only (text : jsstring) : Prop :=
  text <> [] /\ Forall (fun c => is_js_ws c = true) text.

(** The ids of the task list. *)
Definition ids (w : World) : list Z := map id (tasks (appState w)).

(** The clock readings at which a trace confirms a task, oldest first. *)
Fixpoint confirmations (trace : list (Host * Event)) : list Z :=
  match trace with
  | [] => []
  | (h, ConfirmTask) :: trace' => now h :: confirmations trace'
  | _ :: trace' => confirmations trace'
  end.

(** Each reading is later than the one before, and the first one is later
    than [bound]. *)
Fixpoint increasing_from (bound : Z) (readings : list Z) : Prop :=
  match readings with
  | [] => True
  | t :: readings' => (bound < t)%Z /\ increasing_from t readings'
  end.

(** ** Worlds and hosts to run the handlers on *)

(** Noon UTC of 10 June 2025, on a host with [creationStorage]. *)
Definition noonHost : Host :=
  {| now := 1749556800000; timezone := 0;
     hasCreationStorage := true; storageFails := false;
     otherDate := localDateTime 0 |}.

(** The same instant on a host with [localStorage] only. *)
Definition noonBrowser : Host :=
  {| now := 1749556800000; timezone := 0;
     hasCreationStorage := false; storageFails := false;
     otherDate := localDateTime 0 |}.

Definition spoken (text : string) : Draft.t := Draft.mk (js text) [] [] [].

(** One pass through the add view: open it, press the side button, receive
    the transcription, confirm. *)
Definition addFlow (h : Host) (data : Draft.t) : list (Host * Event) :=
  [(h, ShowAddView); (h, SideClick); (h, PluginMessage data); (h, ConfirmTask)].

(** Two tasks confirmed at one reading of the clock. *)
Definition sameReadingTrace : list (Host * Event) :=
  addFlow noonHost (spoken "Fix bug") ++ addFlow noonHost (spoken "Write tests").

(** *** Valid states *)

Definition valid_task (t : Task) : Prop :=
  (Z.abs (id t) <= MAX_SAFE)%Z /\
  wf_string (task t) /\ task t <> [] /\
  wf_string (project t) /\ wf_string (organization t) /\
  wf_string (dueDate t) /\ wf_string (createdAt t).

Definition valid_state (a : AppState) : Prop :=
  Forall valid_task (tasks a) /\
  Forall wf_string (projects a) /\
  Forall wf_string (organizations a) /\
  (currentSortMode a = js "date" \/ currentSortMode a = js "project").

(** The page is opened again over what is stored. *)
Definition reopen (w : World) : World := initialWorld (storage w).

(** A task dictated with a typographic apostrophe (U+2019). *)
Definition apostropheTask : Task :=
  {| id := 1749556800000;
     task := js "Don" ++ [8217%N] ++ js "t forget the release notes";
     project := js "WebApp"; organization := []; dueDate := js "2025-06-12";
     completed := false; createdAt := js "2025-06-10T12:00:00.000Z" |}.

Definition apostropheState : AppState :=
  {| tasks := [apostropheTask]; projects := [js "WebApp"]; organizations := [];
     currentSortMode := js "date" |}.

Definition apostropheWorld : World :=
  with_appState apostropheState (initialWorld emptyStorage).

(** A stored text that is not JSON, in either storage. *)
Definition corruptLocalStorage : Storage :=
  {| creationStorage_item := None; localStorage_item := Some (js "{") |}.

Definition corruptCreationStorage : Storage :=
  {| creationStorage_item := Some (js "ew=="); localStorage_item := None |}.

(** *** Markup characters *)

(** How often [c] occurs in [s]. *)
Definition count (c : codeunit) (s : jsstring) : nat :=
  List.length (filter (N.eqb c) s).

Fixpoint starts_with (prefix s : jsstring) : bool :=
  match prefix, s with
  | [], _ => true
  | p :: prefix', c :: s' => (p =? c)%N && starts_with prefix' s'
  | _ :: _, [] => false
  end.

(** Every [&] of [s] begins one of the character references the
    serialization of a text writes. *)
Fixpoint ampersands_escaped (s : jsstring) : bool :=
  match s with
  | [] => true
  | c :: r =>
      (if (c =? 38)%N
       then starts_with (js "amp;") r || starts_with (js "lt;") r ||
            starts_with (js "gt;") r || starts_with (js "nbsp;") r
       else true)
      && ampersands_escaped r
  end.

(** The tags of a row: three [div] elements, opened and closed, and a
    [span] for each of project, organization and due date that is there. *)
Definition tagCount (t : Task) : nat :=
  6 + 2 * ((if truthy (project t) then 1 else 0) +
           (if truthy (organization t) then 1 else 0) +
           (if truthy (dueDate t) then 1 else 0)).

(** *** Reading the markup back

    The tokens an HTML parser makes of the markup of the task list: the
    tags, and the texts between them with their character references
    decoded.  A tag ends at the first [>]; the attribute values of the
    template hold none. *)
Inductive Token :=
| Tag (body : jsstring)
| Text (content : jsstring).

(** The characters a text stands for.  The references [&amp;], [&lt;],
    [&gt;] and [&nbsp;] are decoded; an [&] that begins none of them is
    outside what is read here ([None]). *)
Fixpoint decode_skipping (skip : nat) (s : jsstring) : option (list N) :=
  match s with
  | [] => Some []
  | c :: r =>
      match skip with
      | S skip' => decode_skipping skip' r
      | O =>
          if (c =? 38)%N then
            if starts_with (js "amp;") r
            then option_map (cons 38%N) (decode_skipping 4 r)
            else if starts_with (js "lt;") r
            then option_map (cons 60%N) (decode_skipping 3 r)
            else if starts_with (js "gt;") r
            then option_map (cons 62%N) (decode_skipping 3 r)
            else if starts_with (js "nbsp;") r
            then option_map (cons 160%N) (decode_skipping 5 r)
            else None
          else option_map (cons c) (decode_skipping 0 r)
      end
  end.

Definition decode_text (s : jsstring) : option (list N) := decode_skipping 0 s.

(** The text read so far, [pending] in reverse, becomes a token when a tag
    or the end follows; an empty text is no token. *)
Definition emit (pending : jsstring) (rest : list Token) : option (list Token) :=
  match pending with
  | [] => Some rest
  | _ :: _ =>
      match decode_text (rev pending) with
      | Some content => Some (Text content :: rest)
      | None => None
      end
  end.

Fixpoint tokens_from (in_tag : bool) (pending : jsstring) (s : jsstring)
  : option (list Token) :=
  match s with
  | [] => if in_tag then None else emit pending []
  | c :: r =>
      if in_tag then
        if (c =? 62)%N
        then option_map (cons (Tag (rev pending))) (tokens_from false [] r)
        else tokens_from true (c :: pending) r
      else
        if (c =? 60)%N
        then match tokens_from true [] r with
             | Some rest => emit pending rest
             | None => None
             end
        else tokens_from false (c :: pending) r
  end.

Definition tokens (markup : jsstring) : option (list Token) :=
  tokens_from false [] markup.

(** A tag is written between [<] and [>], a text as [escapeHtml] writes
    it. *)
Definition serialize_token (t : Token) : jsstring :=
  match t with
  | Tag body => 60%N :: body ++ [62%N]
  | Text content => escapeHtml content
  end.

Definition serialize (ts : list Token) : jsstring := flat_map serialize_token ts.

(** Texts that stand side by side are one text, and an empty text is
    none. *)
Fixpoint merge_texts (ts : list Token) : list Token :=
  match ts with
  | [] => []
  | Tag body :: r => Tag body :: merge_texts r
  | Text a :: r =>
      match merge_texts r with
      | Text b :: r' => Text (a ++ b) :: r'
      | r' => match a with [] => r' | _ :: _ => Text a :: r' end
      end
  end.

(** The row of a task as tags and texts: the template of [renderTasks]
    with the texts of the task as they are. *)
Definition rowPieces (h : Host) (t : Task) : list Token :=
  [Text (nl 12);
   Tag (js "div class=" ++ dq ++ js "task-item " ++
        (if completed t then js "completed" else []) ++ dq ++ js " " ++
        nl 17 ++ js "onclick=" ++ dq ++ js "showEditView(" ++
        Number_toString (id t) ++ js ")" ++ dq ++
        nl 17 ++ js "data-task-id=" ++ dq ++ Number_toString (id t) ++ dq);
   Text (nl 16);
   Tag (js "div class=" ++ dq ++ js "task-title" ++ dq);
   Text (task t);
   Tag (js "/div");
   Text (nl 16);
   Tag (js "div class=" ++ dq ++ js "task-meta" ++ dq);
   Text (nl 20)] ++
  (if truthy (project t)
   then [Tag (js "span class=" ++ dq ++ js "task-tag project" ++ dq);
         Text (glyph_project ++ js " " ++ project t);
         Tag (js "/span")]
   else []) ++
  [Text (nl 20)] ++
  (if truthy (organization t)
   then [Tag (js "span class=" ++ dq ++ js "task-tag org" ++ dq);
         Text (glyph_org ++ js " " ++ organization t);
         Tag (js "/span")]
   else []) ++
  [Text (nl 20)] ++
  (if truthy (dueDate t)
   then [Tag (js "span class=" ++ dq ++ js "task-tag due " ++
              (if isOverdue h t then js "overdue" else []) ++ dq);
         Text (glyph_due ++ js " " ++ formatDate h (dueDate t));
         Tag (js "/span")]
   else []) ++
  [Text (nl 16); Tag (js "/div"); Text (nl 12); Tag (js "/div"); Text (nl 8)].

(** A text that [escapeHtml] writes as it is. *)
Definition verbatim (s : jsstring) : Prop :=
  Forall (fun c => c <> 38%N /\ c <> 60%N /\ c <> 62%N /\ c <> 160%N) s.

(** A tag whose body holds no [>]. *)
Definition closed_tag (t : Token) : Prop :=
  match t with
  | Tag body => Forall (fun c => c <> 62%N) body
  | Text _ => True
  end.

(** A task due on 10 June 2025, not completed. *)
Definition dueTodayTask : Task :=
  {| id := 1749500000000; task := js "Ship the release"; project := [];
     organization := []; dueDate := js "2025-06-10"; completed := false;
     createdAt := js "2025-06-09T08:13:20.000Z" |}.

Definition dueTodayWorld : World :=
  with_appState
    {| tasks := [dueTodayTask]; projects := []; organizations := [];
       currentSortMode := js "date" |}
    (initialWorld emptyStorage).

(** The task after [toggleTaskComplete]. *)
Definition dueTodayDone : Task :=
  {| id := 1749500000000; task := js "Ship the release"; project := [];
     organization := []; dueDate := js "2025-06-10"; completed := true;
     createdAt := js "2025-06-09T08:13:20.000Z" |}.

(** *** Vocabulary of the share link *)

Definition wf_form (form : FormData) : Prop :=
  wf_string (title form) /\ wf_string (url form) /\
  wf_string (description form) /\ wf_string (iconUrl form) /\
  wf_string (themeColor form).

(** Letters, digits, [-] and [_]: characters a query carries unchanged. *)
Definition unreserved (c : codeunit) : bool :=
  ((65 <=? c) && (c <=? 90) || (97 <=? c) && (c <=? 122) ||
   (48 <=? c) && (c <=? 57) || (c =? 45) || (c =? 95))%N.

(** A form to share. *)
Definition sampleForm : FormData :=
  {| title := js "  Release party  "; url := js "https://example.com/?a=1&b=2";
     description := js "Caf" ++ [233%N] ++ js " <at> 8"; iconUrl := [];
     themeColor := js "#FE5000" |}.

(** A page with one task, ten seconds later, with the add view open and a
    transcription of three spaces received. *)
Definition laterBrowser : Host :=
  {| now := 1749556810000; timezone := 0;
     hasCreationStorage := false; storageFails := false;
     otherDate := localDateTime 0 |}.

Definition blankDraftTrace : list (Host * Event) :=
  addFlow noonBrowser (spoken "Fix bug") ++
  [(laterBrowser, ShowEditView 1749556800000);
   (laterBrowser, ShowAddView); (laterBrowser, SideClick);
   (laterBrowser, PluginMessage (spoken "   "))].

(** The edit view with three spaces typed as the task text. *)
Definition blankEdit : EditForm :=
  {| editTaskInput := js "   "; editProjectSelect := []; editOrgSelect := [];
     editDueInput := []; promptProject := None; promptOrg := None |}.

(** Two tasks confirmed ten seconds apart. *)
Definition laterHost : Host :=
  {| now := 1749556810000; timezone := 0;
     hasCreationStorage := true; storageFails := false;
     otherDate := localDateTime 0 |}.

Definition twoTasksTrace : list (Host * Event) :=
  addFlow noonHost (spoken "Fix bug") ++ addFlow laterHost (spoken "Write tests").

(** The query [updateShareURL] writes for [sampleForm]. *)
Definition sampleQuery : jsstring :=
  Eval vm_compute in
    match shareQuery sampleForm with
    | Some query => query
    | None => []
    end.

(** ** Vocabulary of the proofs *)

(** The text after a numeral does not go on with a digit. *)
Definition no_digit_ahead (rest : jsstring) : Prop :=
  match rest with
  | [] => True
  | c :: _ => is_digit c = false
  end.

(** What may follow a value inside a JSON text. *)
Definition delimited (rest : jsstring) : Prop :=
  match rest with
  | [] => True
  | c :: _ => c = 44%N \/ c = 93%N \/ c = 125%N
  end.

(** The first character of a value is not white space and closes nothing. *)
Definition value_start (c : codeunit) : Prop :=
  is_ws c = false /\ c <> 93%N /\ c <> 125%N.

(** The characters [btoa] writes, padding apart. *)
Definition b64_text (c : codeunit) : Prop :=
  c <> 45%N /\ c <> 95%N /\ is_ascii_ws c = false.

(** Not the padding character [=]. *)
Definition not_pad (c : codeunit) : bool := negb (c =? 61)%N.

(** No code unit above 255: the strings [btoa] accepts. *)
Definition latin1 (s : jsstring) : Prop := Forall (fun c => (c <= 255)%N) s.

(** A text without [<], [>] and [&]. *)
Definition plain (s : jsstring) : Prop :=
  Forall (fun c => c <> 38%N /\ c <> 60%N /\ c <> 62%N) s.

(** A piece of markup with [lt] characters [<], [gt] characters [>], and
    escaped ampersands only. *)
Definition markup (lt gt : nat) (s : jsstring) : Prop :=
  count 60 s = lt /\ count 62 s = gt /\ ampersands_escaped s = true.

(** A character [btoa] writes: of the alphabet, or padding. *)
Definition b64_written (c : codeunit) : Prop :=
  unreserved c = true /\ c <> 45%N /\ c <> 95%N \/ c = 43%N \/ c = 47%N \/ c = 61%N.


(** ** Vocabulary of the further properties *)

(** Values whose strings hold no code unit above 255. *)
Fixpoint latin1_json (v : json) : Prop :=
  match v with
  | JNull | JBool _ | JNum _ => True
  | JStr s => latin1 s
  | JArr l =>
      (fix all (l : list json) : Prop :=
         match l with
         | [] => True
         | v :: l' => latin1_json v /\ all l'
         end) l
  | JObj l =>
      (fix all (l : list (list N * json)) : Prop :=
         match l with
         | [] => True
         | kv :: l' => latin1 (fst kv) /\ latin1_json (snd kv) /\ all l'
         end) l
  end.

(** A task, and a state, whose texts hold no code unit above 255. *)
Definition latin1_task (t : Task) : Prop :=
  latin1 (task t) /\ latin1 (project t) /\ latin1 (organization t) /\
  latin1 (dueDate t) /\ latin1 (createdAt t).

Definition latin1_state (a : AppState) : Prop :=
  Forall latin1_task (tasks a) /\
  Forall latin1 (projects a) /\
  Forall latin1 (organizations a).

(** A host with [localStorage] only, whose storage works. *)
Definition browser_host (h : Host) : Prop :=
  hasCreationStorage h = false /\ storageFails h = false.

(** The stored snapshot is the one of the state in memory. *)
Definition in_sync (w : World) : Prop :=
  localStorage_item (storage w)
  = Some (JSON_stringify (json_of_state (appState w))).

(** A registry without empty names and without repetitions. *)
Definition clean_registry (registry : list (list N)) : Prop :=
  NoDup registry /\ Forall (fun name => name <> []) registry.

(** One task added on a browser. *)
Definition oneTaskTrace : list (Host * Event) :=
  addFlow noonBrowser (spoken "Fix bug").

(** A code unit above 255 that is not a surrogate: [JSON.stringify] writes
    it as it is. *)
Definition beyond_latin1 (c : codeunit) : Prop :=
  (255 < c)%N /\ is_high_surrogate c = false /\ is_low_surrogate c = false.

(** The task [confirmTask] makes of a draft, the task [saveEdit] makes of a
    task, and the task [toggleTaskComplete] makes of a task. *)
Definition createdTask (h : Host) (draft : Draft.t) : Task :=
  {| id := now h;
     task := Draft.task draft;
     project := Draft.project draft;
     organization := Draft.organization draft;
     dueDate := Draft.dueDate draft;
     completed := false;
     createdAt := toISOString (now h) |}.

Definition editedTask (form : EditForm) (newProject newOrg : jsstring) (t : Task) : Task :=
  {| id := id t; task := trim (editTaskInput form); project := newProject;
     organization := newOrg; dueDate := editDueInput form;
     completed := completed t; createdAt := createdAt t |}.

Definition toggledTask (t : Task) : Task :=
  {| id := id t; task := task t; project := project t;
     organization := organization t; dueDate := dueDate t;
     completed := negb (completed t); createdAt := createdAt t |}.

(** The state each changing handler leaves. *)
Definition confirmedState (h : Host) (draft : Draft.t) (a : AppState) : AppState :=
  {| tasks := tasks a ++ [createdTask h draft];
     projects := register (Draft.project draft) (projects a);
     organizations := register (Draft.organization draft) (organizations a);
     currentSortMode := currentSortMode a |}.

Definition editedState (editingId : Z) (form : EditForm) (a : AppState) : AppState :=
  {| tasks :=
       updateFound editingId
         (editedTask form
            (fst (chosen (editProjectSelect form) (promptProject form) (projects a)))
            (fst (chosen (editOrgSelect form) (promptOrg form) (organizations a))))
         (tasks a);
     projects :=
       snd (chosen (editProjectSelect form) (promptProject form) (projects a));
     organizations :=
       snd (chosen (editOrgSelect form) (promptOrg form) (organizations a));
     currentSortMode := currentSortMode a |}.

Definition deletedState (editingId : Z) (a : AppState) : AppState :=
  {| tasks := filter (fun t => negb (id t =? editingId)%Z) (tasks a);
     projects := projects a;
     organizations := organizations a;
     currentSortMode := currentSortMode a |}.

Definition toggledState (taskId : Z) (a : AppState) : AppState :=
  {| tasks := updateFound taskId toggledTask (tasks a);
     projects := projects a;
     organizations := organizations a;
     currentSortMode := currentSortMode a |}.

Definition sortToggledState (a : AppState) : AppState :=
  {| tasks := tasks a; projects := projects a;
     organizations := organizations a;
     currentSortMode :=
       if str_eqb (currentSortMode a) (js "date") then js "project"
       else js "date" |}.

(** Every task has a text. *)
Definition texts_present (a : AppState) : Prop :=
  Forall (fun t => task t <> []) (tasks a).

(** The sort mode is one of the two the page knows. *)
Definition known_mode (a : AppState) : Prop :=
  currentSortMode a = js "date" \/ currentSortMode a = js "project".

(** [new] is [old] with names added at its end. *)
Definition extends (old new : list (list N)) : Prop :=
  exists more, new = old ++ more.

(** Both registries are clean, and extend those of [a0]. *)
Definition registries_kept (a0 a : AppState) : Prop :=
  clean_registry (projects a) /\ clean_registry (organizations a) /\
  extends (projects a0) (projects a) /\
  extends (organizations a0) (organizations a).

(** A page with one task; the sort mode is toggled ten seconds later. *)
Definition toggleSortLater : list (Host * Event) := [(laterBrowser, ToggleSort)].

(** *** Inputs within the model *)

(** The texts of a transcription, and of the edit view, are strings of
    code units; the clock is within the range of exact integers. *)
Definition wf_draft (d : Draft.t) : Prop :=
  wf_string (Draft.task d) /\ wf_string (Draft.project d) /\
  wf_string (Draft.organization d) /\ wf_string (Draft.dueDate d).

Definition wf_answer (answer : option (list N)) : Prop :=
  match answer with
  | Some name => wf_string name
  | None => True
  end.

Definition wf_edit (form : EditForm) : Prop :=
  wf_string (editTaskInput form) /\ wf_string (editProjectSelect form) /\
  wf_string (editOrgSelect form) /\ wf_string (editDueInput form) /\
  wf_answer (promptProject form) /\ wf_answer (promptOrg form).

Definition wf_input (h : Host) (e : Event) : Prop :=
  (Z.abs (now h) <= MAX_SAFE)%Z /\
  match e with
  | PluginMessage data => wf_draft data
  | SaveEdit form => wf_edit form
  | _ => True
  end.

(** Every event of the trace happens on a browser whose storage works,
    with inputs within the model. *)
Definition browser_trace (trace : list (Host * Event)) : Prop :=
  Forall (fun he => browser_host (fst he) /\ wf_input (fst he) (snd he)) trace.

(** An edit of the one task, with a new project typed into the prompt. *)
Definition renameEdit : EditForm :=
  {| editTaskInput := js "  Fix the bug  "; editProjectSelect := js "__new__";
     editOrgSelect := []; editDueInput := js "2025-06-12";
     promptProject := Some (js "WebApp"); promptOrg := None |}.

Definition editLater : list (Host * Event) :=
  [(laterBrowser, ShowEditView 1749556800000);
   (laterBrowser, SaveEdit renameEdit);
   (laterBrowser, ToggleTaskComplete 1749556800000);
   (laterBrowser, ToggleSort)].

(** The confirm button is disabled exactly when the draft has no text. *)
Definition button_follows_draft (w : World) : Prop :=
  confirmTaskBtn_disabled (dom w)
  = negb (truthy (Draft.task (currentTaskDraft w))).

(** The empty-state indicator is shown exactly when there is no task. *)
Definition indicator_follows_tasks (w : World) : Prop :=
  emptyStateVisible (taskList (dom w))
  = match tasks (appState w) with [] => true | _ :: _ => false end.

(** The page with one task, its edit view open. *)
Definition editOpen : list (Host * Event) :=
  addFlow noonBrowser (spoken "Fix bug") ++
  [(laterBrowser, ShowEditView 1749556800000)].

(** The add view open and listening. *)
Definition listeningTrace : list (Host * Event) :=
  [(noonBrowser, ShowAddView); (noonBrowser, SideClick)].

(** Hosts at noon UTC of 10 June 2025: one five hours west of UTC (local
    time 07:00), one two hours east (local time 14:00). *)
Definition westHost : Host :=
  {| now := 1749556800000; timezone := -18000000;
     hasCreationStorage := false; storageFails := false;
     otherDate := localDateTime (-18000000) |}.

Definition eastHost : Host :=
  {| now := 1749556800000; timezone := 7200000;
     hasCreationStorage := false; storageFails := false;
     otherDate := localDateTime 7200000 |}.

(** A task due on 10 June 2025 at eight in the evening. *)
Definition dueThisEvening : Task :=
  {| id := 1749500000001; task := js "Call the printer"; project := [];
     organization := []; dueDate := js "2025-06-10T20:00"; completed := false;
     createdAt := js "2025-06-09T08:13:20.001Z" |}.

(** A task due on 11 June 2025. *)
Definition dueTomorrowTask : Task :=
  {| id := 1749500000000; task := js "Ship the release"; project := [];
     organization := []; dueDate := js "2025-06-11"; completed := false;
     createdAt := js "2025-06-09T08:13:20.000Z" |}.

(** ** The QR code of the generator *)

(** What [generateQRCode] asks for: the warning of its validation, or the
    text it hands to [QRCodeStyling] as [data].  The drawing is the
    library's. *)
Inductive Generation :=
| FillInWarning
| QRData (qrData : jsstring).

Definition generateQRCode (form : FormData) : Generation :=
  let data := getFormData form in
  if negb (truthy (title data)) && negb (truthy (url data)) &&
     negb (truthy (description data))
  then FillInWarning
  else QRData (JSON_stringify (json_of_form data)).

(** A form whose fields hold no code unit above 255. *)
Definition latin1_form (form : FormData) : Prop :=
  latin1 (title form) /\ latin1 (url form) /\ latin1 (description form) /\
  latin1 (iconUrl form) /\ latin1 (themeColor form).

(** A form with an icon and nothing else. *)
Definition iconOnlyForm : FormData :=
  {| title := js "  "; url := []; description := [];
     iconUrl := js "https://example.com/icon.png"; themeColor := js "#FE5000" |}.

(** A title outside Latin-1. *)
Definition snowmanForm : FormData :=
  {| title := js "Winter " ++ [9731%N]; url := []; description := [];
     iconUrl := []; themeColor := js "#FE5000" |}.

(** A value that [updateShareURL] takes as data: not empty and not the
    text of the default colour. *)
Definition counts_as_data (value : jsstring) : Prop :=
  value <> [] /\ value <> js "#FE5000".

(** A form whose title is the text of the default colour. *)
Definition colourTitleForm : FormData :=
  {| title := js "#FE5000"; url := []; description := [];
     iconUrl := []; themeColor := js "#FE5000" |}.

(** A snapshot that holds the tasks and nothing else. *)
Definition tasksOnly (ts : list Task) : json :=
  JObj [(js "tasks", JArr (map json_of_task ts))].

(** A task made at the first instant of the clock. *)
Definition epochTask : Task :=
  {| id := 0; task := js "Set the clock"; project := []; organization := [];
     dueDate := []; completed := false; createdAt := js "1970-01-01T00:00:00.000Z" |}.

Definition epochWorld : World :=
  with_appState
    {| tasks := [epochTask]; projects := []; organizations := [];
       currentSortMode := js "date" |}
    (initialWorld emptyStorage).

(** The last instant whose day, a week on, still has a four-digit year. *)
Definition lastSimulatedInstant : Z := 253401696000000.

(** The link text for a JSON value, made as [updateShareURL] makes it. *)
Definition linkOf (data : json) : jsstring :=
  js "?jsondata=" ++ urlSafe (b64_encode (JSON_stringify data)).

(** A value whose properties with the names of the five fields, where it
    has them, are strings; and the value an input holds after
    [populateForm]. *)
Definition string_or_absent (key : jsstring) (data : json) : Prop :=
  match property key data with
  | None => True
  | Some (JStr _) => True
  | Some _ => False
  end.

Definition string_fields (data : json) : Prop :=
  string_or_absent (js "title") data /\ string_or_absent (js "url") data /\
  string_or_absent (js "description") data /\
  string_or_absent (js "iconUrl") data /\
  string_or_absent (js "themeColor") data.

Definition field_after (key : jsstring) (data : json) (current : jsstring)
  : jsstring :=
  match property key data with
  | Some (JStr s) => s
  | _ => current
  end.

(** A link made by hand, with a title and nothing else. *)
Definition titleOnly : json := JObj [(js "title", JStr (js "Release party"))].

(** ** The preview of the generator *)

(** [JSON.stringify(data, null, 2)] for an object whose values are
    strings: each member on a line of its own, indented by two spaces,
    with a space after the colon. *)
Definition indented_member (kv : list N * list N) : jsstring :=
  32%N :: 32%N :: QuoteJSONString (fst kv) ++ 58%N :: 32%N :: QuoteJSONString (snd kv).

Fixpoint join_lines (l : list (list N)) : jsstring :=
  match l with
  | [] => []
  | [x] => x
  | x :: r => x ++ 44%N :: 10%N :: join_lines r
  end.

Definition stringify_indented (members : list (list N * list N)) : jsstring :=
  match members with
  | [] => js "{}"
  | _ :: _ => 123%N :: 10%N :: join_lines (map indented_member members) ++ [10%N; 125%N]
  end.

(** The members of the object [getFormData] returns. *)
Definition form_members (d : FormData) : list (list N * list N) :=
  [(js "title", title d); (js "url", url d); (js "description", description d);
   (js "iconUrl", iconUrl d); (js "themeColor", themeColor d)].

(** The text [updateJSONPreview] puts into the preview. *)
Definition updateJSONPreview (form : FormData) : jsstring :=
  stringify_indented (form_members (getFormData form)).

(** *** The device *)

(** A draft whose texts are made of code units with the property [P]. *)
Definition draft_in (P : N -> Prop) (d : Draft.t) : Prop :=
  Forall P (Draft.task d) /\ Forall P (Draft.project d) /\
  Forall P (Draft.organization d) /\ Forall P (Draft.dueDate d).

(** Inputs without a code unit above 255. *)
Definition latin1_draft (d : Draft.t) : Prop :=
  latin1 (Draft.task d) /\ latin1 (Draft.project d) /\
  latin1 (Draft.organization d) /\ latin1 (Draft.dueDate d).

Definition latin1_answer (answer : option (list N)) : Prop :=
  match answer with
  | Some name => latin1 name
  | None => True
  end.

Definition latin1_edit (form : EditForm) : Prop :=
  latin1 (editTaskInput form) /\ latin1 (editProjectSelect form) /\
  latin1 (editOrgSelect form) /\ latin1 (editDueInput form) /\
  latin1_answer (promptProject form) /\ latin1_answer (promptOrg form).

Definition latin1_input (h : Host) (e : Event) : Prop :=
  (Z.abs (now h) <= MAX_SAFE)%Z /\
  match e with
  | PluginMessage data => latin1_draft data
  | SaveEdit form => latin1_edit form
  | _ => True
  end.

(** A host with [creationStorage], whose storage works. *)
Definition device_host (h : Host) : Prop :=
  hasCreationStorage h = true /\ storageFails h = false.

(** Every event of the trace happens on such a host, with inputs without
    a code unit above 255. *)
Definition device_trace (trace : list (Host * Event)) : Prop :=
  Forall (fun he => device_host (fst he) /\ latin1_input (fst he) (snd he)) trace.

(** The stored item is the base64 text of the snapshot of the state in
    memory. *)
Definition device_sync (w : World) : Prop :=
  creationStorage_item (storage w)
  = Some (b64_encode (JSON_stringify (json_of_state (appState w)))).

(** One task added on the device, and an edit ten seconds later. *)
Definition oneTaskOnDevice : list (Host * Event) :=
  addFlow noonHost (spoken "Fix bug").

Definition editOnDevice : list (Host * Event) :=
  [(laterHost, ShowEditView 1749556800000);
   (laterHost, SaveEdit renameEdit);
   (laterHost, ToggleTaskComplete 1749556800000);
   (laterHost, ToggleSort)].
(** * Properties *)

(** ** The code-unit collation *)

Lemma str_eqb_eq (a b : jsstring) : str_eqb a b = true <-> a = b.
Proof.
  revert b; induction a as [|x a IH]; intros [|y b]; simpl;
    try (split; [discriminate | discriminate || congruence]); [tauto|].
  rewrite andb_true_iff, N.eqb_eq, IH.
  split; [intros [-> ->]; reflexivity | intros E; inversion E; auto].
Qed.

Lemma str_eqb_refl (a : jsstring) : str_eqb a a = true.
Proof. apply str_eqb_eq; reflexivity. Qed.

Lemma str_eqb_neq (a b : jsstring) : str_eqb a b = false <-> a <> b.
Proof.
  rewrite <- str_eqb_eq. destruct (str_eqb a b); split; congruence.
Qed.

Lemma ordinalCompare_antisym (a b : jsstring) :
  Z.sgn (ordinalCompare a b) = (- Z.sgn (ordinalCompare b a))%Z.
Proof.
  revert b; induction a as [|x a IH]; intros [|y b]; simpl; try reflexivity.
  rewrite (N.compare_antisym x y).
  destruct (N.compare x y); simpl; auto.
Qed.

Lemma ordinalCompare_sep (a b : jsstring) : ordinalCompare a b = 0%Z -> a = b.
Proof.
  revert b; induction a as [|x a IH]; intros [|y b]; simpl;
    try discriminate; auto.
  destruct (N.compare x y) eqn:E; try discriminate.
  apply N.compare_eq in E. intros H; f_equal; auto.
Qed.

Lemma ordinalCompare_range (a b : jsstring) :
  ordinalCompare a b = (-1)%Z \/ ordinalCompare a b = 0%Z \/ ordinalCompare a b = 1%Z.
Proof.
  revert b; induction a as [|x a IH]; intros [|y b]; simpl; auto.
  destruct (N.compare x y); auto.
Qed.

Lemma ordinalCompare_trans (a b c : jsstring) :
  (ordinalCompare a b <= 0)%Z -> (ordinalCompare b c <= 0)%Z ->
  (ordinalCompare a c <= 0)%Z.
Proof.
  revert b c; induction a as [|x a IH]; intros [|y b] [|z c]; simpl;
    try lia.
  destruct (N.compare x y) eqn:Exy; try lia;
    destruct (N.compare y z) eqn:Eyz; try lia.
  - apply N.compare_eq in Exy, Eyz; subst.
    rewrite N.compare_refl. apply IH.
  - apply N.compare_eq in Exy; subst. rewrite Eyz; lia.
  - apply N.compare_eq in Eyz; subst. rewrite Exy; lia.
  - rewrite N.compare_lt_iff in Exy, Eyz.
    assert (E : (x ?= z)%N = Lt) by (apply N.compare_lt_iff; lia).
    rewrite E; lia.
Qed.

#[export] Instance ordinal_collator : Collator := {
  localeCompare := ordinalCompare;
  localeCompare_antisym := ordinalCompare_antisym;
  localeCompare_trans := ordinalCompare_trans
}.

(** The collation that composes [e] and the combining acute accent. *)
Definition canonical_collator : Collator := {|
  localeCompare := canonicalCompare;
  localeCompare_antisym :=
    fun a b => ordinalCompare_antisym (compose a) (compose b);
  localeCompare_trans :=
    fun a b c => ordinalCompare_trans (compose a) (compose b) (compose c)
|}.

(** ** [Array.prototype.sort] with a comparator that is consistent on the
    elements it is given *)

Section SortFacts.
Variable A : Type.
Variable comparefn : A -> A -> Z.
Variable dom : A -> Prop.
Hypothesis comparefn_antisym :
  forall a b, Z.sgn (comparefn a b) = (- Z.sgn (comparefn b a))%Z.
Hypothesis comparefn_trans :
  forall a b c, dom a -> dom b -> dom c ->
                (comparefn a b <= 0)%Z -> (comparefn b c <= 0)%Z ->
                (comparefn a c <= 0)%Z.

Let le (a b : A) : Prop := (comparefn a b <= 0)%Z.

Lemma sort_insert_perm (x : A) (l : list A) :
  Permutation (x :: l) (sort_insert comparefn x l).
Proof.
  induction l as [|y l IH]; simpl; auto.
  destruct (comparefn x y <=? 0)%Z; auto.
  rewrite perm_swap. constructor. exact IH.
Qed.

Lemma Array_sort_perm (l : list A) : Permutation l (Array_sort comparefn l).
Proof.
  induction l as [|x l IH]; simpl; auto.
  rewrite <- sort_insert_perm. constructor. exact IH.
Qed.

Lemma Array_sort_dom (l : list A) : Forall dom l -> Forall dom (Array_sort comparefn l).
Proof. apply Permutation_Forall, Array_sort_perm. Qed.

Lemma sort_insert_sorted (x : A) (l : list A) :
  dom x -> Forall dom l ->
  StronglySorted le l -> StronglySorted le (sort_insert comparefn x l).
Proof.
  intros Hx Hd Hs. induction Hs as [|y l Hs IH Hy]; simpl.
  - repeat constructor.
  - inversion Hd as [|? ? Hdy Hdl]; subst.
    destruct (comparefn x y <=? 0)%Z eqn:E.
    + apply Z.leb_le in E. constructor; [constructor; assumption|].
      constructor; [exact E|].
      rewrite Forall_forall in Hy, Hdl. apply Forall_forall. intros z Hz.
      unfold le in *. apply (comparefn_trans x y z); auto.
    + apply Z.leb_gt in E. constructor; [apply IH, Hdl|].
      assert (Hyx : le y x).
      { unfold le. pose proof (comparefn_antisym x y) as Ha.
        destruct (comparefn x y), (comparefn y x); simpl in Ha; lia || discriminate. }
      rewrite <- sort_insert_perm. constructor; assumption.
Qed.

Lemma Array_sort_sorted (l : list A) :
  Forall dom l -> StronglySorted le (Array_sort comparefn l).
Proof.
  induction 1 as [|x l Hx Hl IH]; simpl; [constructor|].
  apply sort_insert_sorted; [exact Hx | apply Array_sort_dom, Hl | exact IH].
Qed.

Lemma Array_sort_fixed (l : list A) :
  StronglySorted le l -> Array_sort comparefn l = l.
Proof.
  induction 1 as [|x l Hs IH Hx]; simpl; [reflexivity|].
  rewrite IH. destruct l as [|y l]; simpl; [reflexivity|].
  inversion Hx as [|? ? Hxy _]; subst.
  unfold le in Hxy. apply Z.leb_le in Hxy. rewrite Hxy. reflexivity.
Qed.

Lemma Array_sort_idempotent (l : list A) :
  Forall dom l ->
  Array_sort comparefn (Array_sort comparefn l) = Array_sort comparefn l.
Proof. intros Hl. apply Array_sort_fixed, Array_sort_sorted, Hl. Qed.

(** Elements that tie with [z] keep the order they had in the input. *)
Lemma sort_insert_stable (z x : A) (l : list A) :
  dom z -> dom x -> Forall dom l ->
  filter (fun y => comparefn z y =? 0)%Z (sort_insert comparefn x l) =
  filter (fun y => comparefn z y =? 0)%Z (x :: l).
Proof.
  intros Hz Hx Hl. induction Hl as [|y l Hy Hl IH]; [reflexivity|].
  cbn [sort_insert]. destruct (comparefn x y <=? 0)%Z eqn:E; [reflexivity|].
  apply Z.leb_gt in E. cbn [filter] in *. rewrite IH.
  destruct (comparefn z x =? 0)%Z eqn:Ex; [|reflexivity].
  destruct (comparefn z y =? 0)%Z eqn:Ey; [|reflexivity].
  apply Z.eqb_eq in Ex, Ey. exfalso.
  assert (Hxz : (comparefn x z <= 0)%Z).
  { pose proof (comparefn_antisym x z) as Ha. rewrite Ex in Ha.
    destruct (comparefn x z); simpl in Ha; lia || discriminate. }
  assert (Hxy : (comparefn x y <= 0)%Z)
    by (apply (comparefn_trans x z y); auto; lia).
  lia.
Qed.

Lemma Array_sort_stable (z : A) (l : list A) :
  dom z -> Forall dom l ->
  filter (fun y => comparefn z y =? 0)%Z (Array_sort comparefn l) =
  filter (fun y => comparefn z y =? 0)%Z l.
Proof.
  intros Hz Hl. induction Hl as [|x l Hx Hl IH]; [reflexivity|].
  cbn [Array_sort].
  rewrite sort_insert_stable by (auto using Array_sort_dom).
  cbn [filter]. rewrite IH. reflexivity.
Qed.

Lemma comparefn_refl (x : A) : comparefn x x = 0%Z.
Proof.
  pose proof (comparefn_antisym x x) as H.
  destruct (comparefn x x); simpl in H; congruence.
Qed.

Lemma sorted_head_least (x y : A) (l : list A) :
  StronglySorted le (x :: l) -> In y (x :: l) -> le x y.
Proof.
  intros Hs [<- | Hy].
  - unfold le. rewrite comparefn_refl. lia.
  - inversion Hs as [|? ? _ Hx]; subst.
    rewrite Forall_forall in Hx. apply Hx, Hy.
Qed.

(** Two sorted lists that hold the same elements of every tie class, in
    the same order, are the same list. *)
Lemma sorted_stable_unique (l1 l2 : list A) :
  Forall dom l1 -> Forall dom l2 ->
  StronglySorted le l1 -> StronglySorted le l2 ->
  (forall z, dom z ->
             filter (fun y => comparefn z y =? 0)%Z l1
             = filter (fun y => comparefn z y =? 0)%Z l2) ->
  l1 = l2.
Proof.
  revert l2. induction l1 as [|x t1 IH]; intros [|y t2] D1 D2 H1 H2 H.
  - reflexivity.
  - inversion D2; subst.
    specialize (H y ltac:(assumption)). cbn [filter] in H.
    rewrite comparefn_refl in H. discriminate H.
  - inversion D1; subst.
    specialize (H x ltac:(assumption)). cbn [filter] in H.
    rewrite comparefn_refl in H. discriminate H.
  - inversion D1 as [|? ? Dx Dt1]; inversion D2 as [|? ? Dy Dt2]; subst.
    assert (Hxy : comparefn x y = 0%Z).
    { assert (Hx : In x (y :: t2)).
      { assert (Hin : In x (filter (fun y0 => (comparefn x y0 =? 0)%Z) (x :: t1))).
        { apply filter_In. split; [left; reflexivity|].
          rewrite comparefn_refl. reflexivity. }
        rewrite (H x Dx) in Hin. apply filter_In in Hin. tauto. }
      assert (Hy : In y (x :: t1)).
      { assert (Hin : In y (filter (fun y0 => (comparefn y y0 =? 0)%Z) (y :: t2))).
        { apply filter_In. split; [left; reflexivity|].
          rewrite comparefn_refl. reflexivity. }
        rewrite <- (H y Dy) in Hin. apply filter_In in Hin. tauto. }
      pose proof (sorted_head_least x y t1 H1 Hy) as Hle1.
      pose proof (sorted_head_least y x t2 H2 Hx) as Hle2.
      pose proof (comparefn_antisym x y) as Ha. unfold le in *.
      destruct (comparefn x y), (comparefn y x); simpl in Ha; lia || discriminate. }
    assert (E : x = y).
    { pose proof (H x Dx) as Hx. cbn [filter] in Hx.
      rewrite comparefn_refl, Hxy in Hx. cbn [Z.eqb] in Hx. congruence. }
    subst y. f_equal.
    inversion H1; inversion H2; subst.
    apply IH; try assumption.
    intros z Dz. specialize (H z Dz). cbn [filter] in H.
    destruct (comparefn z x =? 0)%Z; congruence.
Qed.

(** The sorted arrangement that keeps ties in their order is the one
    [Array_sort] returns: whatever algorithm a host runs, a stable sort with
    a comparator that is consistent on the list gives this list. *)
Lemma Array_sort_unique (l l' : list A) :
  Forall dom l -> Forall dom l' ->
  StronglySorted le l' ->
  (forall z, dom z ->
             filter (fun y => comparefn z y =? 0)%Z l'
             = filter (fun y => comparefn z y =? 0)%Z l) ->
  l' = Array_sort comparefn l.
Proof.
  intros Dl Dl' Hs Hst.
  apply sorted_stable_unique;
    [exact Dl' | apply Array_sort_dom, Dl | exact Hs | apply Array_sort_sorted, Dl |].
  intros z Dz. rewrite Array_sort_stable by assumption. apply Hst, Dz.
Qed.

End SortFacts.

Lemma StronglySorted_weaken {A} (R S : A -> A -> Prop) (l : list A) :
  (forall a b, R a b -> S a b) -> StronglySorted R l -> StronglySorted S l.
Proof.
  intros HRS; induction 1 as [|x l Hs IH Hx]; constructor; auto.
  eapply Forall_impl; [|exact Hx]. auto.
Qed.

Lemma Forall_True {A} (l : list A) : Forall (fun _ => True) l.
Proof. induction l; constructor; auto. Qed.

Lemma Forall_In_self {A} (l : list A) : Forall (fun x => In x l) l.
Proof. apply Forall_forall. auto. Qed.

(** ** The comparators of [sortTasks] *)

Section ComparatorFacts.
Context {collator : Collator}.

Lemma localeCompare_refl (a : jsstring) : localeCompare a a = 0%Z.
Proof.
  pose proof (localeCompare_antisym a a) as H.
  destruct (localeCompare a a); simpl in H; congruence.
Qed.

Lemma localeCompare_zero_sym (a b : jsstring) :
  localeCompare a b = 0%Z <-> localeCompare b a = 0%Z.
Proof.
  pose proof (localeCompare_antisym a b) as H.
  destruct (localeCompare a b), (localeCompare b a); simpl in H;
    split; intros; congruence || discriminate.
Qed.

Lemma localeCompare_flip (a b : jsstring) :
  (localeCompare a b < 0 <-> 0 < localeCompare b a)%Z.
Proof.
  pose proof (localeCompare_antisym a b) as H.
  destruct (localeCompare a b), (localeCompare b a); simpl in H; split; lia || discriminate.
Qed.

Lemma str_eqb_sym (a b : jsstring) : str_eqb a b = str_eqb b a.
Proof.
  destruct (str_eqb a b) eqn:E.
  - apply str_eqb_eq in E; subst. symmetry; apply str_eqb_refl.
  - apply str_eqb_neq in E. symmetry; apply str_eqb_neq; congruence.
Qed.

Lemma compareDate_antisym (a b : Task) :
  Z.sgn (compareDate a b) = (- Z.sgn (compareDate b a))%Z.
Proof.
  unfold compareDate.
  destruct (dueDate a), (dueDate b); simpl; auto using localeCompare_antisym.
Qed.

(** The comparator of the ['date'] branch is consistent for every
    collation. *)
Lemma compareDate_trans (a b c : Task) :
  (compareDate a b <= 0 -> compareDate b c <= 0 -> compareDate a c <= 0)%Z.
Proof.
  unfold compareDate.
  destruct (dueDate a) eqn:Ea, (dueDate b) eqn:Eb, (dueDate c) eqn:Ec; simpl;
    try lia.
  - intros H1 H2. eapply localeCompare_trans; eassumption.
  - apply localeCompare_trans.
Qed.

Lemma compareProject_same (a b : Task) :
  project a = project b -> compareProject a b = compareDate a b.
Proof.
  intros E. unfold compareProject, compareDate.
  rewrite E, str_eqb_refl. reflexivity.
Qed.

Lemma compareProject_other (a b : Task) :
  project a <> project b ->
  compareProject a b =
    if negb (truthy (project a)) then 1%Z
    else if negb (truthy (project b)) then (-1)%Z
    else localeCompare (project a) (project b).
Proof.
  intros E. unfold compareProject.
  apply str_eqb_neq in E. rewrite E. reflexivity.
Qed.

Lemma compareProject_antisym (a b : Task) :
  Z.sgn (compareProject a b) = (- Z.sgn (compareProject b a))%Z.
Proof.
  destruct (str_eqb (project a) (project b)) eqn:E.
  - apply str_eqb_eq in E.
    rewrite (compareProject_same a b E), (compareProject_same b a (eq_sym E)).
    apply compareDate_antisym.
  - apply str_eqb_neq in E.
    rewrite (compareProject_other a b E), (compareProject_other b a (not_eq_sym E)).
    destruct (project a) eqn:Ea, (project b) eqn:Eb; simpl;
      auto using localeCompare_antisym; congruence.
Qed.

(** The comparator of the other branch tests the names with [!==] and
    orders them with the collation: it is consistent on tasks whose names
    the collation tells apart. *)
Lemma compareProject_trans (a b c : Task) :
  told_apart (project a) (project b) ->
  (compareProject a b <= 0 -> compareProject b c <= 0 -> compareProject a c <= 0)%Z.
Proof.
  intros Hab.
  destruct (str_eqb (project a) (project b)) eqn:Eab;
    [apply str_eqb_eq in Eab | apply str_eqb_neq in Eab];
  (destruct (str_eqb (project b) (project c)) eqn:Ebc;
    [apply str_eqb_eq in Ebc | apply str_eqb_neq in Ebc]).
  - rewrite (compareProject_same a b Eab), (compareProject_same b c Ebc),
      (compareProject_same a c (eq_trans Eab Ebc)).
    apply compareDate_trans.
  - assert (Eac : project a <> project c) by congruence.
    rewrite (compareProject_same a b Eab), (compareProject_other b c Ebc),
      (compareProject_other a c Eac), Eab. auto.
  - assert (Eac : project a <> project c) by congruence.
    rewrite (compareProject_other a b Eab), (compareProject_same b c Ebc),
      (compareProject_other a c Eac), Ebc. auto.
  - rewrite (compareProject_other a b Eab), (compareProject_other b c Ebc).
    destruct (str_eqb (project a) (project c)) eqn:Eac;
      [apply str_eqb_eq in Eac | apply str_eqb_neq in Eac].
    + (* a and c in one project, b in another: b cannot lie between *)
      rewrite <- Eac.
      destruct Hab as [Hab | Hab]; [contradiction|].
      destruct (project a) as [|ca pa] eqn:Ea, (project b) as [|cb pb] eqn:Eb;
        simpl; try lia; try congruence.
      intros H1 H2. exfalso. apply Hab.
      pose proof (localeCompare_antisym (ca :: pa) (cb :: pb)).
      destruct (localeCompare (ca :: pa) (cb :: pb)),
               (localeCompare (cb :: pb) (ca :: pa)); simpl in *; lia || discriminate.
    + rewrite (compareProject_other a c Eac).
      destruct (project a), (project b), (project c); simpl; try lia.
      apply localeCompare_trans.
Qed.

Lemma comparator_antisym (mode : jsstring) (a b : Task) :
  Z.sgn (comparator mode a b) = (- Z.sgn (comparator mode b a))%Z.
Proof.
  unfold comparator. destruct (str_eqb mode (js "date"));
    [apply compareDate_antisym | apply compareProject_antisym].
Qed.

(** On a list whose names the collation tells apart the comparator of
    either mode is consistent. *)
Lemma comparator_trans (mode : jsstring) (tasks : list Task) (a b c : Task) :
  names_told_apart_in mode tasks ->
  In a tasks -> In b tasks -> In c tasks ->
  (comparator mode a b <= 0 -> comparator mode b c <= 0 ->
   comparator mode a c <= 0)%Z.
Proof.
  unfold comparator, names_told_apart_in.
  destruct (str_eqb mode (js "date")); intros Hn Ha Hb Hc;
    [apply compareDate_trans | apply compareProject_trans, Hn; assumption].
Qed.

Lemma sortTasks_eq (tasks : list Task) (mode : jsstring) :
  sortTasks tasks mode = Array_sort (comparator mode) tasks.
Proof.
  unfold sortTasks, comparator. destruct (str_eqb mode (js "date")); reflexivity.
Qed.

Ltac absurd_undated :=
  match goal with
  | H : ~ (_ :: _ <> []) |- _ => exfalso; apply H; discriminate
  end.

Lemma compareDate_rule (a b : Task) :
  (compareDate a b <= 0)%Z -> dueDateRule a b.
Proof.
  unfold compareDate, dueDateRule, dated.
  destruct (dueDate a), (dueDate b); simpl; intros H;
    repeat split; intros; try congruence; try lia; absurd_undated.
Qed.

Lemma compareProject_rule (a b : Task) :
  (compareProject a b <= 0)%Z -> projectRule a b.
Proof.
  intros H. unfold projectRule, named.
  destruct (str_eqb (project a) (project b)) eqn:E;
    [apply str_eqb_eq in E | apply str_eqb_neq in E].
  - rewrite (compareProject_same a b E) in H.
    split; [|split].
    + intros _ _. rewrite E, localeCompare_refl. lia.
    + congruence.
    + intros _. apply compareDate_rule, H.
  - rewrite (compareProject_other a b E) in H.
    destruct (project a), (project b); simpl in H;
      (split; [|split]); intros; try congruence; try lia.
Qed.

Lemma compareDate_tie (a b : Task) : compareDate a b = 0%Z <-> dueDateTie a b.
Proof.
  unfold compareDate, dueDateTie, dated.
  destruct (dueDate a) eqn:Ea, (dueDate b) eqn:Eb; simpl.
  - rewrite (localeCompare_zero_sym (createdAt b) (createdAt a)). split.
    + intros E. right. repeat split; auto.
    + intros [(H & _) | (_ & _ & E)]; [congruence | auto].
  - split; [discriminate|].
    intros [(H & _) | (_ & H & _)]; [congruence | exfalso; apply H; discriminate].
  - split; [discriminate|].
    intros [(_ & H & _) | (H & _)]; [congruence | exfalso; apply H; discriminate].
  - split.
    + intros E. left. repeat split; auto; discriminate.
    + intros [(_ & _ & E) | (H & _)]; [auto | exfalso; apply H; discriminate].
Qed.

(** Two tasks tie when the comparator returns 0: in mode ['date'] on the
    tie of the due-date rule, in the other mode, for names that the
    collation tells apart, on the same project and that tie. *)
Lemma comparator_tie (mode : jsstring) (a b : Task) :
  names_told_apart_in mode [a; b] ->
  (comparator mode a b = 0%Z <-> modeTie mode a b).
Proof.
  unfold comparator, modeTie, names_told_apart_in.
  destruct (str_eqb mode (js "date")); intros Hn; [apply compareDate_tie|].
  destruct (str_eqb (project a) (project b)) eqn:E;
    [apply str_eqb_eq in E | apply str_eqb_neq in E].
  - rewrite (compareProject_same a b E), compareDate_tie. tauto.
  - rewrite (compareProject_other a b E). split; [|tauto].
    destruct (Hn a b ltac:(left; reflexivity) ltac:(right; left; reflexivity))
      as [H | H]; [contradiction|].
    destruct (project a) eqn:Ea, (project b) eqn:Eb; simpl;
      try discriminate; try congruence.
Qed.

End ComparatorFacts.

(** ** The order produced by [sortTasks] *)

Section SortTheorems.
Context {collator : Collator}.

(** In mode ['date'] the result is sorted for every collation; in the
    other mode it is sorted when the collation tells the project names of
    the list apart. *)
Lemma sortTasks_sorted (tasks : list Task) :
  (Permutation tasks (sortTasks tasks (js "date")) /\
   StronglySorted dueDateRule (sortTasks tasks (js "date"))) /\
  (names_told_apart tasks ->
   Permutation tasks (sortTasks tasks (js "project")) /\
   StronglySorted projectRule (sortTasks tasks (js "project"))).
Proof.
  split; [split|intros Hn; split].
  - apply Array_sort_perm.
  - apply StronglySorted_weaken with (R := fun a b => (compareDate a b <= 0)%Z).
    + apply compareDate_rule.
    + apply (Array_sort_sorted Task compareDate (fun _ => True));
        [apply compareDate_antisym
        | intros a b c _ _ _; apply compareDate_trans
        | apply Forall_True].
  - apply Array_sort_perm.
  - apply StronglySorted_weaken with (R := fun a b => (compareProject a b <= 0)%Z).
    + apply compareProject_rule.
    + apply (Array_sort_sorted Task compareProject (fun t => In t tasks));
        [apply compareProject_antisym
        | intros a b c Ha Hb Hc; apply compareProject_trans, Hn; assumption
        | apply Forall_In_self].
Qed.

(** Tasks that tie keep the order they had in the task list. *)
Lemma sortTasks_stable (mode : jsstring) (z : Task) (tasks : list Task) :
  names_told_apart_in mode (z :: tasks) ->
  filter (fun y => comparator mode z y =? 0)%Z (sortTasks tasks mode) =
  filter (fun y => comparator mode z y =? 0)%Z tasks.
Proof.
  intros Hn. rewrite sortTasks_eq.
  apply (Array_sort_stable Task (comparator mode) (fun t => In t (z :: tasks)));
    [apply comparator_antisym
    | intros a b c Ha Hb Hc; apply (comparator_trans mode (z :: tasks)); assumption
    | left; reflexivity
    | apply Forall_forall; intros x Hx; right; exact Hx].
Qed.

Lemma sortTasks_idempotent (mode : jsstring) (tasks : list Task) :
  names_told_apart_in mode tasks ->
  sortTasks (sortTasks tasks mode) mode = sortTasks tasks mode.
Proof.
  intros Hn. rewrite !sortTasks_eq.
  apply (Array_sort_idempotent Task (comparator mode) (fun t => In t tasks));
    [apply comparator_antisym
    | intros a b c Ha Hb Hc; apply (comparator_trans mode tasks); assumption
    | apply Forall_In_self].
Qed.

(** C3, as the code has it.  For any two tasks and any sort mode exactly one
    of three cases holds: [a] sorts before [b], [b] sorts before [a], or the
    two tie.  They tie exactly when (in project mode: they have the same
    project and) both carry due dates that compare as equal, or both carry
    none and have creation times that compare as equal: the fallback to
    creation time is taken among undated tasks only.  Tasks that tie with
    a task [z] stand in the result in the order they had in the list, and
    sorting a sorted list changes nothing.  In project mode this is said of
    tasks whose project names the collation tells apart. *)
Theorem sortTasks_trichotomy_idempotent (mode : jsstring) :
  (forall a b : Task,
      names_told_apart_in mode [a; b] ->
      (before mode a b /\ ~ modeTie mode a b /\ ~ before mode b a) \/
      (~ before mode a b /\ modeTie mode a b /\ ~ before mode b a) \/
      (~ before mode a b /\ ~ modeTie mode a b /\ before mode b a)) /\
  (forall (tasks : list Task) (z : Task),
      names_told_apart_in mode (z :: tasks) ->
      filter (fun y => comparator mode z y =? 0)%Z (sortTasks tasks mode)
      = filter (fun y => comparator mode z y =? 0)%Z tasks) /\
  (forall tasks : list Task,
      names_told_apart_in mode tasks ->
      sortTasks (sortTasks tasks mode) mode = sortTasks tasks mode).
Proof.
  split; [|split; [intros tasks z; apply sortTasks_stable
                  |intros tasks; apply sortTasks_idempotent]].
  intros a b Hn. unfold before.
  pose proof (comparator_tie mode a b Hn) as Ht.
  pose proof (comparator_antisym mode a b) as Ha.
  destruct (comparator mode a b) eqn:Eab, (comparator mode b a) eqn:Eba;
    simpl in Ha; try discriminate.
  - right; left. repeat split; try lia. apply Ht; reflexivity.
  - right; right. repeat split; try lia. intros H; apply Ht in H; discriminate.
  - left. repeat split; try lia. intros H; apply Ht in H; discriminate.
Qed.

End SortTheorems.

(** C3 as stated fails: two different tasks due on the same day tie in both
    modes, neither sorts before the other. *)
Lemma same_due_date_not_decisive :
  taskA <> taskB /\
  ~ @decisive ordinal_collator (js "date") taskA taskB /\
  ~ @decisive ordinal_collator (js "project") taskA taskB.
Proof.
  split; [discriminate|].
  split; intros [[H _] | [H _]]; vm_compute in H; discriminate.
Qed.

(** The code-unit collation tells every two names apart. *)
Lemma ordinal_names_told_apart (tasks : list Task) :
  @names_told_apart ordinal_collator tasks.
Proof.
  intros a b _ _. unfold told_apart.
  destruct (str_eqb (project a) (project b)) eqn:E.
  - left. apply str_eqb_eq, E.
  - right. intros H. apply ordinalCompare_sep in H.
    apply str_eqb_neq in E. contradiction.
Qed.

(** C2 fails in mode ['project'].  The comparator tests the project names
    with [!==] and orders them with [localeCompare]; the host's collation
    takes canonically equivalent spellings as equal, so two names that
    differ and compare as equal tie without a look at the due dates, and
    the comparator is not consistent: the first task ties with the second
    and the second with the third, yet the first sorts after the third.
    Of three tasks of one project, the
    second with the name spelled with a combining accent, the task due in
    March stays in front of the task of the same project due in February.
    The ['date'] branch of the same function orders the same list, and the
    code-unit collation, which tells the spellings apart, orders it in
    mode ['project'] also. *)
Theorem equivalent_project_names_break_order :
  @sortTasks canonical_collator cafeTasks (js "project")
  = [cafeMarch; cafeSpelled; cafeFebruary] /\
  project cafeMarch = project cafeFebruary /\
  project cafeMarch <> project cafeSpelled /\
  @localeCompare canonical_collator (project cafeMarch) (project cafeSpelled) = 0%Z /\
  (0 < @localeCompare canonical_collator (dueDate cafeMarch) (dueDate cafeFebruary))%Z /\
  @comparator canonical_collator (js "project") cafeMarch cafeSpelled = 0%Z /\
  @comparator canonical_collator (js "project") cafeSpelled cafeFebruary = 0%Z /\
  (0 < @comparator canonical_collator (js "project") cafeMarch cafeFebruary)%Z /\
  ~ StronglySorted (@projectRule canonical_collator)
      (@sortTasks canonical_collator cafeTasks (js "project")) /\
  @sortTasks canonical_collator cafeTasks (js "date")
  = [cafeFebruary; cafeSpelled; cafeMarch] /\
  StronglySorted (@dueDateRule canonical_collator)
    (@sortTasks canonical_collator cafeTasks (js "date")) /\
  @sortTasks ordinal_collator cafeTasks (js "project")
  = [cafeSpelled; cafeFebruary; cafeMarch] /\
  StronglySorted (@projectRule ordinal_collator)
    (@sortTasks ordinal_collator cafeTasks (js "project")).
Proof.
  assert (Hs : @sortTasks canonical_collator cafeTasks (js "project")
               = [cafeMarch; cafeSpelled; cafeFebruary]) by reflexivity.
  assert (Hd : (0 < @localeCompare canonical_collator (dueDate cafeMarch)
                      (dueDate cafeFebruary))%Z) by reflexivity.
  split; [exact Hs|]. split; [reflexivity|]. split; [discriminate|].
  split; [reflexivity|]. split; [exact Hd|].
  split; [reflexivity|]. split; [reflexivity|]. split; [reflexivity|].
  split; [|split; [reflexivity|split; [|split; [reflexivity|]]]].
  - rewrite Hs. intros H.
    inversion H as [|x l _ Hx]; subst.
    inversion Hx as [|y l' _ Hx']; subst.
    inversion Hx' as [|z l'' (_ & _ & Hz) _]; subst.
    destruct (Hz eq_refl) as (Hdates & _).
    assert (Hle : (@localeCompare canonical_collator (dueDate cafeMarch)
                     (dueDate cafeFebruary) <= 0)%Z)
      by (apply Hdates; discriminate).
    lia.
  - destruct (@sortTasks_sorted canonical_collator cafeTasks) as [[_ H] _]. exact H.
  - destruct (@sortTasks_sorted ordinal_collator cafeTasks) as [_ H].
    apply H, ordinal_names_told_apart.
Qed.

(** The scenario of the specification: projects B and A and a task without
    project come out as A, B, unassigned. *)
Example sortTasks_by_project_scenario :
  map id
    (@sortTasks ordinal_collator
       [mkTask 1 "b" "B" EmptyString "2025-01-01T00:00:00.000Z";
        mkTask 2 "none" EmptyString EmptyString "2025-01-02T00:00:00.000Z";
        mkTask 3 "a" "A" EmptyString "2025-01-03T00:00:00.000Z"]
       (js "project"))
  = [3; 1; 2]%Z.
Proof. reflexivity. Qed.

(** ** Numerals *)

Lemma read_digits_uint_chars (u : Decimal.uint) (rest : jsstring) :
  no_digit_ahead rest -> read_digits (uint_chars u ++ rest) = (u, rest).
Proof.
  intros Hrest. induction u; cbn [uint_chars app read_digits];
    try (change (is_digit _) with true; cbv iota; rewrite IHu; reflexivity).
  destruct rest as [|c rest]; [reflexivity|].
  cbn in Hrest |- *. rewrite Hrest. reflexivity.
Qed.

Lemma to_uint_normal (n : N) : Decimal.unorm (N.to_uint n) = N.to_uint n.
Proof.
  rewrite <- DecimalN.Unsigned.to_of, DecimalN.Unsigned.of_to. reflexivity.
Qed.

Lemma to_uint_nonnil (n : N) : N.to_uint n <> Decimal.Nil.
Proof. rewrite <- to_uint_normal. apply DecimalFacts.unorm_nonnil. Qed.

Lemma to_uint_leading_zero (n : N) (u : Decimal.uint) :
  N.to_uint n = Decimal.D0 u -> u = Decimal.Nil.
Proof.
  intros E. pose proof (to_uint_normal n) as Hn. rewrite E in Hn.
  rewrite DecimalFacts.unorm_D0 in Hn. unfold Decimal.unorm in Hn.
  destruct (Decimal.nzhead u) eqn:Ez; try discriminate Hn.
  - inversion Hn; reflexivity.
  - exfalso. apply (DecimalFacts.nzhead_nonzero _ _ Ez).
Qed.

Lemma uint_chars_digits (u : Decimal.uint) : Forall (fun c => is_digit c = true) (uint_chars u).
Proof. induction u; simpl; constructor; auto. Qed.

Lemma delimited_no_digit (rest : jsstring) : delimited rest -> no_digit_ahead rest.
Proof.
  destruct rest as [|c rest]; simpl; auto.
  intros [-> | [-> | ->]]; reflexivity.
Qed.

Lemma parse_digits_uint_chars (negative : bool) (m : N) (rest : jsstring) :
  (Z.of_N m <= MAX_SAFE)%Z -> delimited rest ->
  parse_digits negative (uint_chars (N.to_uint m) ++ rest)
  = POk (JNum (if negative then - Z.of_N m else Z.of_N m)%Z) rest.
Proof.
  intros Hm Hrest. unfold parse_digits.
  rewrite read_digits_uint_chars by (apply delimited_no_digit, Hrest).
  rewrite DecimalN.Unsigned.of_to.
  pose proof (to_uint_nonnil m) as Hnil.
  pose proof (to_uint_leading_zero m) as Hz.
  apply Z.leb_le in Hm. rewrite Z.leb_antisym in Hm.
  apply negb_true_iff in Hm. rewrite Hm.
  assert (Hdel : match rest with
                 | c :: _ => ((c =? 46) || (c =? 101) || (c =? 69))%N
                 | [] => false
                 end = false).
  { destruct rest as [|c rest]; [reflexivity|].
    simpl in Hrest. destruct Hrest as [-> | [-> | ->]]; reflexivity. }
  rewrite Hdel.
  destruct (N.to_uint m) as [|u|u|u|u|u|u|u|u|u|u]; try congruence;
    try reflexivity.
  rewrite (Hz u eq_refl). reflexivity.
Qed.

Lemma uint_chars_head (m : N) :
  exists c r, uint_chars (N.to_uint m) = c :: r /\ is_digit c = true.
Proof.
  pose proof (to_uint_nonnil m) as Hnil.
  destruct (N.to_uint m); try congruence; simpl; eauto.
Qed.

Lemma parse_number_toString (n : Z) (rest : jsstring) :
  (Z.abs n <= MAX_SAFE)%Z -> delimited rest ->
  parse_number (Number_toString n ++ rest) = POk (JNum n) rest.
Proof.
  intros Hn Hrest. unfold Number_toString.
  assert (Hm : (Z.of_N (Z.abs_N n) <= MAX_SAFE)%Z) by (rewrite N2Z.inj_abs_N; exact Hn).
  destruct (n <? 0)%Z eqn:Es.
  - apply Z.ltb_lt in Es. cbn [app parse_number].
    change ((45 =? 45)%N) with true. cbv iota.
    rewrite parse_digits_uint_chars by assumption.
    rewrite N2Z.inj_abs_N. f_equal. f_equal. lia.
  - apply Z.ltb_ge in Es. cbn [app].
    destruct (uint_chars_head (Z.abs_N n)) as (c & r & Ec & Hc).
    pose proof (parse_digits_uint_chars false (Z.abs_N n) rest Hm Hrest) as Hp.
    rewrite Ec in *. cbn [app parse_number] in *.
    assert (H45 : (c =? 45)%N = false).
    { unfold is_digit in Hc. apply andb_true_iff in Hc as [H1 H2].
      apply N.leb_le in H1. apply N.eqb_neq. lia. }
    rewrite H45, Hp, N2Z.inj_abs_N. f_equal. f_equal. lia.
Qed.

(** ** String literals of JSON *)

Lemma hex_value_digit (d : N) : (d < 16)%N -> hex_value (hex_digit d) = Some d.
Proof.
  intros Hd. unfold hex_digit, hex_value, is_digit.
  destruct (d <? 10)%N eqn:E.
  - apply N.ltb_lt in E.
    replace ((48 <=? 48 + d)%N) with true by (symmetry; apply N.leb_le; lia).
    replace ((48 + d <=? 57)%N) with true by (symmetry; apply N.leb_le; lia).
    cbn [andb]. f_equal. lia.
  - apply N.ltb_ge in E.
    replace ((87 + d <=? 57)%N) with false by (symmetry; apply N.leb_gt; lia).
    rewrite andb_false_r.
    replace ((97 <=? 87 + d)%N) with true by (symmetry; apply N.leb_le; lia).
    replace ((87 + d <=? 102)%N) with true by (symmetry; apply N.leb_le; lia).
    cbn [andb]. f_equal. lia.
Qed.

Lemma hex4_value_hex4 (c : codeunit) :
  (c < 65536)%N ->
  hex4_value (hex_digit (c / 4096)) (hex_digit ((c / 256) mod 16))
             (hex_digit ((c / 16) mod 16)) (hex_digit (c mod 16)) = Some c.
Proof.
  intros Hc. unfold hex4_value.
  rewrite !hex_value_digit;
    try (apply N.mod_lt; discriminate);
    try (apply N.Div0.div_lt_upper_bound; lia).
  f_equal.
  pose proof (N.div_mod c 16 ltac:(discriminate)) as H0.
  pose proof (N.div_mod (c / 16) 16 ltac:(discriminate)) as H1.
  pose proof (N.div_mod (c / 256) 16 ltac:(discriminate)) as H2.
  rewrite N.Div0.div_div in H1. change (16 * 16)%N with 256%N in H1.
  rewrite N.Div0.div_div in H2. change (256 * 16)%N with 4096%N in H2.
  lia.
Qed.

Lemma parse_chars_unicode_escape (c : codeunit) (tail : jsstring) :
  (c < 65536)%N ->
  parse_chars (unicode_escape c ++ tail) = prepend c (parse_chars tail).
Proof.
  intros Hc. unfold unicode_escape, hex4.
  cbn [app parse_chars].
  change ((92 =? 34)%N) with false. change ((92 =? 92)%N) with true.
  change ((117 =? 34)%N) with false. change ((117 =? 92)%N) with false.
  change ((117 =? 47)%N) with false. change ((117 =? 98)%N) with false.
  change ((117 =? 102)%N) with false. change ((117 =? 110)%N) with false.
  change ((117 =? 114)%N) with false. change ((117 =? 116)%N) with false.
  change ((117 =? 117)%N) with true. cbv iota.
  rewrite hex4_value_hex4 by assumption. reflexivity.
Qed.

Lemma parse_chars_raw (c : codeunit) (tail : jsstring) :
  c <> 34%N -> c <> 92%N -> (32 <= c)%N ->
  parse_chars (c :: tail) = prepend c (parse_chars tail).
Proof.
  intros H1 H2 H3. cbn [parse_chars].
  apply N.eqb_neq in H1, H2. rewrite H1, H2.
  replace (c <? 32)%N with false by (symmetry; apply N.ltb_ge; exact H3).
  reflexivity.
Qed.

Lemma parse_chars_quote_unit (c : codeunit) (tail : jsstring) :
  (c < 65536)%N ->
  parse_chars (quote_unit c ++ tail) = prepend c (parse_chars tail).
Proof.
  intros Hc. unfold quote_unit.
  repeat match goal with
         | |- context [if (c =? ?k)%N then _ else _] =>
             let E := fresh "E" in
             destruct (c =? k)%N eqn:E;
             [apply N.eqb_eq in E; subst c; reflexivity | apply N.eqb_neq in E]
         end.
  destruct (c <? 32)%N eqn:E32.
  - apply parse_chars_unicode_escape, Hc.
  - apply N.ltb_ge in E32. cbn [app]. apply parse_chars_raw; assumption.
Qed.

Lemma surrogate_is_raw (c : codeunit) :
  is_high_surrogate c = true \/ is_low_surrogate c = true ->
  c <> 34%N /\ c <> 92%N /\ (32 <= c)%N.
Proof.
  unfold is_high_surrogate, is_low_surrogate.
  rewrite !andb_true_iff, !N.leb_le. lia.
Qed.

Lemma parse_chars_quote_units (s rest : jsstring) :
  wf_string s ->
  parse_chars (quote_units s ++ 34%N :: rest) = POk s rest.
Proof.
  remember (List.length s) as n eqn:En.
  revert s En. induction n as [n IH] using lt_wf_ind. intros s En Hwf.
  destruct s as [|c r]; [reflexivity|].
  inversion Hwf as [|? ? Hc Hr]; subst.
  cbn [quote_units].
  destruct (is_high_surrogate c) eqn:Eh.
  - destruct r as [|d r'].
    + rewrite parse_chars_unicode_escape by assumption. reflexivity.
    + destruct (is_low_surrogate d) eqn:El.
      * inversion Hr as [|? ? Hd Hr']; subst.
        destruct (surrogate_is_raw c (or_introl Eh)) as (? & ? & ?).
        destruct (surrogate_is_raw d (or_intror El)) as (? & ? & ?).
        cbn [app]. rewrite !parse_chars_raw by assumption.
        rewrite (IH (List.length r')) by (simpl; auto; lia). reflexivity.
      * rewrite <- app_assoc, parse_chars_unicode_escape by assumption.
        rewrite (IH (List.length (d :: r'))) by (simpl; auto; lia). reflexivity.
  - destruct (is_low_surrogate c) eqn:El.
    + rewrite <- app_assoc, parse_chars_unicode_escape by assumption.
      rewrite (IH (List.length r)) by (simpl; auto; lia). reflexivity.
    + rewrite <- app_assoc, parse_chars_quote_unit by assumption.
      rewrite (IH (List.length r)) by (simpl; auto; lia). reflexivity.
Qed.

(** ** [JSON.parse] reads back what [JSON.stringify] writes *)

Lemma weight_JArr (l : list json) : weight (JArr l) = S (weights l).
Proof. reflexivity. Qed.

Lemma weight_JObj (l : list (jsstring * json)) :
  weight (JObj l) = S (member_weights l).
Proof. reflexivity. Qed.

Lemma wf_json_JArr (l : list json) : wf_json (JArr l) <-> Forall wf_json l.
Proof.
  simpl. induction l as [|v l IH]; [split; auto|].
  rewrite IH. split; [intros [? ?]; constructor; auto | inversion 1; auto].
Qed.

Lemma wf_json_JObj (l : list (jsstring * json)) :
  wf_json (JObj l) <->
  Forall (fun kv => wf_string (fst kv) /\ wf_json (snd kv)) l.
Proof.
  simpl. induction l as [|v l IH]; [split; auto|].
  rewrite IH. split; [intros (? & ? & ?); constructor; auto | inversion 1; tauto].
Qed.

Lemma stringify_JObj (l : list (jsstring * json)) :
  JSON_stringify (JObj l) =
  123%N :: join_comma (map stringify_member l) ++ [125%N].
Proof. reflexivity. Qed.

Lemma stringify_head (v : json) :
  exists c r, JSON_stringify v = c :: r /\ value_start c.
Proof.
  unfold value_start.
  destruct v as [|[|]|n|s|l|l]; simpl;
    try (do 2 eexists; split; [reflexivity|];
         repeat split; (reflexivity || discriminate)).
  unfold Number_toString. destruct (n <? 0)%Z.
  - do 2 eexists; split; [reflexivity|].
    repeat split; (reflexivity || discriminate).
  - destruct (uint_chars_head (Z.abs_N n)) as (c & r & Ec & Hc).
    exists c, r. split; [simpl; exact Ec|].
    unfold is_digit in Hc. apply andb_true_iff in Hc as [H1 H2].
    apply N.leb_le in H1, H2. unfold is_ws.
    repeat split; try lia.
    repeat (apply orb_false_iff; split); apply N.eqb_neq; lia.
Qed.

Lemma skip_ws_start (c : codeunit) (r : jsstring) :
  is_ws c = false -> skip_ws (c :: r) = c :: r.
Proof. intros H. simpl. rewrite H. reflexivity. Qed.

Lemma parse_value_number (fuel : nat) (c : codeunit) (r : jsstring) :
  c = 45%N \/ is_digit c = true ->
  parse_value (S fuel) (c :: r) = parse_number (c :: r).
Proof.
  intros Hc.
  assert (Hb : (48 <= c <= 57)%N \/ c = 45%N).
  { destruct Hc as [-> | Hc]; [right; reflexivity | left].
    unfold is_digit in Hc. apply andb_true_iff in Hc as [H1 H2].
    apply N.leb_le in H1, H2. lia. }
  assert (Hws : is_ws c = false).
  { unfold is_ws. repeat (apply orb_false_iff; split); apply N.eqb_neq; lia. }
  cbn [parse_value]. rewrite skip_ws_start by exact Hws.
  replace (c =? 110)%N with false by (symmetry; apply N.eqb_neq; lia).
  replace (c =? 116)%N with false by (symmetry; apply N.eqb_neq; lia).
  replace (c =? 102)%N with false by (symmetry; apply N.eqb_neq; lia).
  replace (c =? 34)%N with false by (symmetry; apply N.eqb_neq; lia).
  replace (c =? 91)%N with false by (symmetry; apply N.eqb_neq; lia).
  replace (c =? 123)%N with false by (symmetry; apply N.eqb_neq; lia).
  replace ((c =? 45)%N || is_digit c) with true; [reflexivity|].
  symmetry. apply orb_true_iff.
  destruct Hc as [-> | Hc]; [left; reflexivity | right; exact Hc].
Qed.

Section Roundtrip.

(** The three parsers, at one amount of fuel. *)
Let value_ok (fuel : nat) : Prop :=
  forall v rest, wf_json v -> (weight v <= fuel)%nat -> delimited rest ->
    parse_value fuel (JSON_stringify v ++ rest) = POk v rest.

Let elements_ok (fuel : nat) : Prop :=
  forall l rest, l <> [] -> Forall wf_json l -> (weights l <= fuel)%nat ->
    parse_elements fuel (join_comma (map JSON_stringify l) ++ 93%N :: rest)
    = POk l rest.

Let members_ok (fuel : nat) : Prop :=
  forall l rest, l <> [] ->
    Forall (fun kv => wf_string (fst kv) /\ wf_json (snd kv)) l ->
    (member_weights l <= fuel)%nat ->
    parse_members fuel (join_comma (map stringify_member l) ++ 125%N :: rest)
    = POk l rest.

Lemma elements_step (fuel : nat) :
  value_ok fuel -> elements_ok fuel -> elements_ok (S fuel).
Proof.
  intros HV HE l rest Hne Hwf Hw.
  destruct l as [|v l]; [congruence|].
  inversion Hwf as [|? ? Hv Hl]; subst.
  cbn [weights fold_right] in Hw. fold (weights l) in Hw.
  cbn [parse_elements].
  destruct l as [|v' l'].
  - cbn [map join_comma].
    rewrite HV by (simpl; auto; lia). reflexivity.
  - change (join_comma (map JSON_stringify (v :: v' :: l')))
      with (JSON_stringify v ++ 44%N :: join_comma (map JSON_stringify (v' :: l'))).
    rewrite <- app_assoc. cbn [app].
    rewrite HV by (simpl; auto; lia).
    cbn [skip_ws is_ws N.eqb Pos.eqb orb].
    rewrite HE by (congruence || assumption || lia). reflexivity.
Qed.

Lemma members_step (fuel : nat) :
  value_ok fuel -> members_ok fuel -> members_ok (S fuel).
Proof.
  intros HV HM l rest Hne Hwf Hw.
  destruct l as [|[k v] l]; [congruence|].
  inversion Hwf as [|? ? [Hk Hv] Hl]; subst. cbn [fst snd] in Hk, Hv.
  cbn [member_weights fold_right snd] in Hw. fold (member_weights l) in Hw.
  cbn [parse_members].
  assert (Hkey : forall tail,
             skip_ws (stringify_member (k, v) ++ tail)
             = 34%N :: quote_units k ++ 34%N :: 58%N :: JSON_stringify v ++ tail).
  { intros tail. unfold stringify_member, QuoteJSONString. cbn [fst snd app].
    rewrite <- !app_assoc. reflexivity. }
  destruct l as [|kv' l'].
  - cbn [map join_comma]. rewrite Hkey.
    change ((34 =? 34)%N) with true. cbn [negb].
    rewrite parse_chars_quote_units by assumption.
    cbn [skip_ws is_ws N.eqb Pos.eqb orb negb].
    rewrite HV by (simpl; auto; lia). reflexivity.
  - change (join_comma (map stringify_member ((k, v) :: kv' :: l')))
      with (stringify_member (k, v) ++ 44%N :: join_comma (map stringify_member (kv' :: l'))).
    rewrite <- app_assoc. rewrite Hkey.
    change ((34 =? 34)%N) with true. cbn [negb].
    rewrite parse_chars_quote_units by assumption.
    cbn [skip_ws is_ws N.eqb Pos.eqb orb negb].
    cbn [app]. rewrite HV by (simpl; auto; lia).
    cbn [skip_ws is_ws N.eqb Pos.eqb orb].
    rewrite HM by (congruence || assumption || lia). reflexivity.
Qed.

Lemma value_step (fuel : nat) :
  elements_ok fuel -> members_ok fuel -> value_ok (S fuel).
Proof.
  intros HE HM v rest Hwf Hw Hrest.
  destruct v as [|[|]|n|s|l|l]; try reflexivity.
  - (* number *)
    destruct (stringify_head (JNum n)) as (c & r & Ec & Hc).
    assert (Hd : c = 45%N \/ is_digit c = true).
    { simpl in Ec. unfold Number_toString in Ec.
      destruct (n <? 0)%Z; [left; inversion Ec; reflexivity | right].
      destruct (uint_chars_head (Z.abs_N n)) as (c' & r' & Ec' & Hc').
      simpl in Ec. rewrite Ec' in Ec. inversion Ec; subst. exact Hc'. }
    pose proof (parse_number_toString n rest Hwf Hrest) as Hp.
    change (Number_toString n) with (JSON_stringify (JNum n)) in Hp.
    rewrite Ec in *. cbn [app] in *.
    rewrite parse_value_number by exact Hd. exact Hp.
  - (* string *)
    cbn [JSON_stringify QuoteJSONString app parse_value skip_ws is_ws N.eqb Pos.eqb orb].
    rewrite <- app_assoc. cbn [app].
    rewrite parse_chars_quote_units by exact Hwf. reflexivity.
  - (* array *)
    destruct l as [|v l]; [reflexivity|].
    rewrite weight_JArr in Hw. apply wf_json_JArr in Hwf.
    destruct (stringify_head v) as (c & r & Ec & Hws & H93 & _).
    pose proof (HE (v :: l) rest ltac:(congruence) Hwf ltac:(lia)) as Hp.
    assert (Hj : exists tail,
               join_comma (map JSON_stringify (v :: l)) ++ 93%N :: rest = c :: tail).
    { destruct l; cbn [map join_comma]; rewrite Ec; eexists; reflexivity. }
    destruct Hj as (tail & Hj).
    change (JSON_stringify (JArr (v :: l)) ++ rest)
      with (91%N :: (join_comma (map JSON_stringify (v :: l)) ++ [93%N]) ++ rest).
    rewrite <- app_assoc. cbn [app].
    rewrite Hj in *.
    cbn [parse_value]. rewrite skip_ws_start by reflexivity.
    cbn [N.eqb Pos.eqb]. rewrite skip_ws_start by exact Hws.
    apply N.eqb_neq in H93. rewrite H93, Hp. reflexivity.
  - (* object *)
    destruct l as [|kv l]; [reflexivity|].
    rewrite weight_JObj in Hw. apply wf_json_JObj in Hwf.
    pose proof (HM (kv :: l) rest ltac:(congruence) Hwf ltac:(lia)) as Hp.
    assert (Hj : exists tail,
               join_comma (map stringify_member (kv :: l)) ++ 125%N :: rest
               = 34%N :: tail).
    { destruct l; cbn [map join_comma]; unfold stringify_member, QuoteJSONString;
        eexists; reflexivity. }
    destruct Hj as (tail & Hj).
    rewrite stringify_JObj. cbn [app].
    rewrite <- app_assoc. cbn [app].
    rewrite Hj in *.
    cbn [parse_value]. rewrite skip_ws_start by reflexivity.
    cbn [N.eqb Pos.eqb]. rewrite skip_ws_start by reflexivity.
    cbn [N.eqb Pos.eqb]. rewrite Hp. reflexivity.
Qed.

Lemma parsers_ok (fuel : nat) : value_ok fuel /\ elements_ok fuel /\ members_ok fuel.
Proof.
  induction fuel as [|fuel (HV & HE & HM)].
  - repeat split.
    + intros v rest _ Hw. destruct v; simpl in Hw; lia.
    + intros [|v l] rest Hne _ Hw; [congruence | simpl in Hw; lia].
    + intros [|v l] rest Hne _ Hw; [congruence | simpl in Hw; lia].
  - repeat split.
    + apply value_step; assumption.
    + apply elements_step; assumption.
    + apply members_step; assumption.
Qed.

End Roundtrip.

Lemma parse_value_stringify (fuel : nat) (v : json) (rest : jsstring) :
  wf_json v -> (weight v <= fuel)%nat -> delimited rest ->
  parse_value fuel (JSON_stringify v ++ rest) = POk v rest.
Proof. intros. apply (parsers_ok fuel); assumption. Qed.

(** Induction on JSON values, with the hypothesis for every element of an
    array and every member of an object. *)
Lemma json_induction (P : json -> Prop) :
  P JNull -> (forall b, P (JBool b)) -> (forall n, P (JNum n)) ->
  (forall s, P (JStr s)) ->
  (forall l, Forall P l -> P (JArr l)) ->
  (forall l, Forall (fun kv => P (snd kv)) l -> P (JObj l)) ->
  forall v, P v.
Proof.
  intros Hnull Hbool Hnum Hstr Harr Hobj.
  fix IH 1. intros [|b|n|s|l|l].
  - exact Hnull.
  - apply Hbool.
  - apply Hnum.
  - apply Hstr.
  - apply Harr. induction l as [|v l IHl]; constructor; [apply IH | exact IHl].
  - apply Hobj. induction l as [|kv l IHl]; constructor; [apply IH | exact IHl].
Qed.

Lemma weights_le_length (l : list json) :
  Forall (fun v => (weight v <= List.length (JSON_stringify v))%nat) l ->
  (weights l <= S (List.length (join_comma (map JSON_stringify l))))%nat.
Proof.
  induction 1 as [|v l Hv Hl IH]; [simpl; lia|].
  cbn [weights fold_right]. fold (weights l).
  destruct l as [|v' l'].
  - cbn [map join_comma weights fold_right]. lia.
  - change (join_comma (map JSON_stringify (v :: v' :: l')))
      with (JSON_stringify v ++ 44%N :: join_comma (map JSON_stringify (v' :: l'))).
    rewrite length_app. cbn [List.length]. lia.
Qed.

Lemma member_weights_le_length (l : list (jsstring * json)) :
  Forall (fun kv => (weight (snd kv) <= List.length (JSON_stringify (snd kv)))%nat) l ->
  (member_weights l <= S (List.length (join_comma (map stringify_member l))))%nat.
Proof.
  assert (Hm : forall kv,
             (List.length (JSON_stringify (snd kv))
              <= List.length (stringify_member kv))%nat).
  { intros kv. unfold stringify_member. rewrite length_app. simpl. lia. }
  induction 1 as [|kv l Hv Hl IH]; [simpl; lia|].
  cbn [member_weights fold_right]. fold (member_weights l).
  pose proof (Hm kv).
  destruct l as [|kv' l'].
  - cbn [map join_comma member_weights fold_right]. lia.
  - change (join_comma (map stringify_member (kv :: kv' :: l')))
      with (stringify_member kv ++ 44%N :: join_comma (map stringify_member (kv' :: l'))).
    rewrite length_app. cbn [List.length]. lia.
Qed.

Lemma weight_le_length (v : json) :
  (weight v <= List.length (JSON_stringify v))%nat.
Proof.
  induction v as [|b|n|s|l IH|l IH] using json_induction.
  - simpl; lia.
  - destruct b; simpl; lia.
  - destruct (stringify_head (JNum n)) as (c & r & Ec & _).
    rewrite Ec. simpl. lia.
  - simpl. lia.
  - rewrite weight_JArr. pose proof (weights_le_length l IH).
    cbn [JSON_stringify List.length]. rewrite length_app. simpl. lia.
  - rewrite weight_JObj, stringify_JObj.
    pose proof (member_weights_le_length l IH).
    cbn [List.length]. rewrite length_app. simpl. lia.
Qed.

(** [JSON.parse(JSON.stringify(v))] is [v]. *)
Lemma JSON_parse_stringify (v : json) :
  wf_json v -> JSON_parse (JSON_stringify v) = POk v [].
Proof.
  intros Hwf. unfold JSON_parse.
  pose proof (parse_value_stringify (S (List.length (JSON_stringify v))) v []
                Hwf ltac:(pose proof (weight_le_length v); lia) I) as Hp.
  rewrite app_nil_r in Hp. rewrite Hp. reflexivity.
Qed.

(** ** [atob] undoes [btoa] *)

Lemma list_ind3 {A} (P : list A -> Prop) :
  P [] -> (forall a, P [a]) -> (forall a b, P [a; b]) ->
  (forall a b c r, P r -> P (a :: b :: c :: r)) ->
  forall l, P l.
Proof.
  intros H0 H1 H2 H3. fix IH 1.
  intros [|a [|b [|c r]]].
  - exact H0.
  - apply H1.
  - apply H2.
  - apply H3, IH.
Qed.

Ltac n_bools :=
  repeat match goal with
         | H : (_ <? _)%N = true |- _ => apply N.ltb_lt in H
         | H : (_ <? _)%N = false |- _ => apply N.ltb_ge in H
         | H : (_ <=? _)%N = true |- _ => apply N.leb_le in H
         | H : (_ <=? _)%N = false |- _ => apply N.leb_gt in H
         | H : (_ =? _)%N = true |- _ => apply N.eqb_eq in H
         | H : (_ =? _)%N = false |- _ => apply N.eqb_neq in H
         | H : (_ && _) = true |- _ => apply andb_true_iff in H as [? ?]
         | H : (_ && _) = false |- _ => apply andb_false_iff in H as [?|?]
         end.

Lemma b64_index_char (v : N) : (v < 64)%N -> b64_index (b64_char v) = Some v.
Proof.
  intros Hv. unfold b64_char.
  destruct (v <? 26)%N eqn:E1; [|destruct (v <? 52)%N eqn:E2;
    [|destruct (v <? 62)%N eqn:E3; [|destruct (v =? 62)%N eqn:E4]]];
    unfold b64_index;
    repeat match goal with
           | |- context [if ?b then _ else _] =>
               let E := fresh "E" in destruct b eqn:E
           end;
    n_bools; try lia; f_equal; lia.
Qed.

Lemma b64_char_alphabet (v : N) :
  let c := b64_char v in
  c <> 61%N /\ c <> 45%N /\ c <> 95%N /\ is_ascii_ws c = false.
Proof.
  unfold b64_char, is_ascii_ws.
  repeat match goal with
         | |- context [if ?b then _ else _] =>
             let E := fresh "E" in destruct b eqn:E
         end;
    n_bools; cbv zeta; repeat split; try lia;
    repeat (apply orb_false_iff; split); apply N.eqb_neq; lia.
Qed.

Lemma b64_encode_text (s : jsstring) : Forall b64_text (b64_encode s).
Proof.
  assert (Hc : forall v, b64_text (b64_char v))
    by (intros v; destruct (b64_char_alphabet v) as (_ & ? & ? & ?); repeat split; assumption).
  assert (Hp : b64_text 61%N) by (repeat split; discriminate || reflexivity).
  induction s as [| a | a b | a b c r IH] using list_ind3;
    cbn [b64_encode];
    repeat (apply Forall_cons; [first [apply Hc | exact Hp]|]);
    try apply Forall_nil; exact IH.
Qed.

Lemma b64_encode_length (s : jsstring) :
  Nat.modulo (List.length (b64_encode s)) 4 = 0%nat.
Proof.
  induction s as [| a | a b | a b c r IH] using list_ind3; try reflexivity.
  cbn [b64_encode List.length].
  change (S (S (S (S (List.length (b64_encode r))))))
    with (4 + List.length (b64_encode r))%nat.
  rewrite <- Nat.Div0.add_mod_idemp_l. exact IH.
Qed.

Lemma filter_b64_text (s : jsstring) :
  Forall b64_text s -> filter (fun c => negb (is_ascii_ws c)) s = s.
Proof.
  induction 1 as [|c s (_ & _ & Hc) Hs IH]; [reflexivity|].
  cbn [filter]. rewrite Hc. cbn [negb]. rewrite IH. reflexivity.
Qed.

Lemma not_pad_char (v : N) : not_pad (b64_char v) = true.
Proof.
  destruct (b64_char_alphabet v) as (H & _).
  unfold not_pad. apply negb_true_iff, N.eqb_neq, H.
Qed.

Lemma drop_padding_cons (c : codeunit) (r : jsstring) :
  not_pad c = true -> drop_padding (c :: r) = c :: drop_padding r.
Proof.
  unfold not_pad. intros H. apply negb_true_iff in H.
  cbn [drop_padding]. rewrite H. reflexivity.
Qed.

(** Dropping the padding of [btoa]'s result leaves its unpadded text. *)
Lemma drop_padding_encode (s : jsstring) :
  drop_padding (b64_encode s) = filter not_pad (b64_encode s).
Proof.
  induction s as [| a | a b | a b c r IH] using list_ind3;
    cbn [b64_encode filter];
    rewrite ?not_pad_char, ?drop_padding_cons by apply not_pad_char;
    try reflexivity.
  rewrite IH. reflexivity.
Qed.

Lemma drop_padding_unpadded (s : jsstring) :
  drop_padding (filter not_pad s) = filter not_pad s.
Proof.
  induction s as [|c s IH]; [reflexivity|].
  cbn [filter]. destruct (not_pad c) eqn:E; [|exact IH].
  rewrite drop_padding_cons by exact E. rewrite IH. reflexivity.
Qed.

Lemma sextets (a b c : N) :
  (a <= 255 -> b <= 255 -> c <= 255 ->
   a / 4 < 64 /\ (a mod 4) * 16 + b / 16 < 64 /\
   (b mod 16) * 4 + c / 64 < 64 /\ c mod 64 < 64 /\
   (a mod 4) * 16 < 64 /\ (b mod 16) * 4 < 64)%N.
Proof.
  intros Ha Hb Hc.
  pose proof (N.mod_lt a 4 ltac:(discriminate)).
  pose proof (N.mod_lt b 16 ltac:(discriminate)).
  pose proof (N.mod_lt c 64 ltac:(discriminate)).
  assert (a / 4 < 64)%N by (apply N.Div0.div_lt_upper_bound; lia).
  assert (b / 16 < 16)%N by (apply N.Div0.div_lt_upper_bound; lia).
  assert (c / 64 < 4)%N by (apply N.Div0.div_lt_upper_bound; lia).
  lia.
Qed.

Lemma octet1 (a x : N) : (x < 16 -> (a / 4) * 4 + ((a mod 4) * 16 + x) / 16 = a)%N.
Proof.
  intros Hx.
  replace (((a mod 4) * 16 + x) / 16)%N with (a mod 4)%N.
  - pose proof (N.div_mod a 4 ltac:(discriminate)). lia.
  - symmetry. rewrite N.add_comm, N.div_add by discriminate.
    rewrite N.div_small by exact Hx. reflexivity.
Qed.

Lemma octet2 (a b y : N) :
  (b <= 255 -> y < 4 ->
   (((a mod 4) * 16 + b / 16) mod 16) * 16 + ((b mod 16) * 4 + y) / 4 = b)%N.
Proof.
  intros Hb Hy.
  assert (Hq : (b / 16 < 16)%N) by (apply N.Div0.div_lt_upper_bound; lia).
  replace (((a mod 4) * 16 + b / 16) mod 16)%N with (b / 16)%N.
  - replace (((b mod 16) * 4 + y) / 4)%N with (b mod 16)%N.
    + pose proof (N.div_mod b 16 ltac:(discriminate)). lia.
    + symmetry. rewrite N.add_comm, N.div_add by discriminate.
      rewrite N.div_small by exact Hy. reflexivity.
  - symmetry. rewrite N.add_comm, N.Div0.mod_add.
    apply N.mod_small, Hq.
Qed.

Lemma octet3 (b c : N) :
  (c <= 255 -> (((b mod 16) * 4 + c / 64) mod 4) * 64 + c mod 64 = c)%N.
Proof.
  intros Hc.
  assert (Hq : (c / 64 < 4)%N) by (apply N.Div0.div_lt_upper_bound; lia).
  replace (((b mod 16) * 4 + c / 64) mod 4)%N with (c / 64)%N.
  - pose proof (N.div_mod c 64 ltac:(discriminate)). lia.
  - symmetry. rewrite N.add_comm, N.Div0.mod_add.
    apply N.mod_small, Hq.
Qed.

Lemma latin1_forallb (s : jsstring) :
  forallb (fun c => (c <=? 255)%N) s = true <-> latin1 s.
Proof.
  unfold latin1. rewrite forallb_forall, Forall_forall.
  split; intros H c Hc; apply N.leb_le, H, Hc.
Qed.

(** The unpadded text of [btoa] decodes to the string that was encoded. *)
Lemma b64_decode_unpadded (s : jsstring) :
  latin1 s -> b64_decode (filter not_pad (b64_encode s)) = Some s.
Proof.
  induction s as [| a | a b | a b c r IH] using list_ind3; intros Hs.
  - reflexivity.
  - inversion Hs as [|? ? Ha _]; subst.
    destruct (sextets a 0 0 Ha ltac:(lia) ltac:(lia)) as (H1 & _ & _ & _ & H2 & _).
    cbn [b64_encode filter]. rewrite !not_pad_char. cbn [not_pad N.eqb Pos.eqb negb].
    cbn [b64_decode]. rewrite !b64_index_char by assumption.
    pose proof (octet1 a 0 ltac:(lia)) as E. rewrite N.add_0_r in E.
    rewrite E. reflexivity.
  - inversion Hs as [|? ? Ha Hs']; subst. inversion Hs' as [|? ? Hb _]; subst.
    destruct (sextets a b 0 Ha Hb ltac:(lia)) as (H1 & H2 & _ & _ & _ & H3).
    cbn [b64_encode filter]. rewrite !not_pad_char. cbn [not_pad N.eqb Pos.eqb negb].
    cbn [b64_decode]. rewrite !b64_index_char by assumption.
    assert (Hq : (b / 16 < 16)%N) by (apply N.Div0.div_lt_upper_bound; lia).
    rewrite (octet1 a (b / 16) Hq).
    pose proof (octet2 a b 0 Hb ltac:(lia)) as E. rewrite N.add_0_r in E.
    rewrite E. reflexivity.
  - inversion Hs as [|? ? Ha Hs']; subst. inversion Hs' as [|? ? Hb Hs'']; subst.
    inversion Hs'' as [|? ? Hc Hr]; subst.
    destruct (sextets a b c Ha Hb Hc) as (H1 & H2 & H3 & H4 & _ & _).
    cbn [b64_encode filter]. rewrite !not_pad_char.
    cbn [b64_decode]. rewrite !b64_index_char by assumption.
    rewrite (IH Hr).
    assert (Hq : (b / 16 < 16)%N) by (apply N.Div0.div_lt_upper_bound; lia).
    assert (Hq' : (c / 64 < 4)%N) by (apply N.Div0.div_lt_upper_bound; lia).
    rewrite (octet1 a (b / 16) Hq), (octet2 a b (c / 64) Hb Hq'), (octet3 b c Hc).
    reflexivity.
Qed.

(** [atob(btoa(s))] is [s] whenever [btoa] accepts [s]. *)
Lemma atob_btoa (s e : jsstring) : btoa s = Some e -> atob e = Some s.
Proof.
  unfold btoa. destruct (forallb _ s) eqn:Hs; [|discriminate].
  intros E; inversion E; subst e. apply latin1_forallb in Hs.
  unfold atob. rewrite filter_b64_text by apply b64_encode_text.
  rewrite b64_encode_length. cbn [Nat.eqb].
  rewrite drop_padding_encode. apply b64_decode_unpadded, Hs.
Qed.

Lemma btoa_latin1 (s : jsstring) : latin1 s -> btoa s = Some (b64_encode s).
Proof.
  intros Hs. unfold btoa. apply latin1_forallb in Hs. rewrite Hs. reflexivity.
Qed.

Lemma btoa_rejects (s : jsstring) : ~ latin1 s -> btoa s = None.
Proof.
  intros Hs. unfold btoa. destruct (forallb _ s) eqn:E; [|reflexivity].
  apply latin1_forallb in E. contradiction.
Qed.

(** ** Adding and editing tasks *)

Section TaskHandlers.
Context {collator : Collator}.

(** C7.  With an empty task text in the draft, [confirmTask] returns at
    once: the task list, both registries, the document and the storage are
    what they were. *)
Theorem confirmTask_empty_draft (h : Host) (w : World) :
  Draft.task (currentTaskDraft w) = [] -> confirmTask h w = w.
Proof.
  intros Hempty. unfold confirmTask. rewrite Hempty. reflexivity.
Qed.

Lemma trimStart_whitespace (s : jsstring) :
  Forall (fun c => is_js_ws c = true) s -> trimStart s = [].
Proof.
  induction 1 as [|c s Hc Hs IH]; [reflexivity|].
  cbn [trimStart]. rewrite Hc. exact IH.
Qed.

Lemma trim_whitespace (s : jsstring) :
  Forall (fun c => is_js_ws c = true) s -> trim s = [].
Proof.
  intros Hs. unfold trim. rewrite trimStart_whitespace by exact Hs. reflexivity.
Qed.

Lemma saveEdit_rejects_blank (h : Host) (form : EditForm) (w : World) :
  trim (editTaskInput form) = [] -> saveEdit h form w = w.
Proof.
  intros Hblank. unfold saveEdit.
  destruct (editing w) as [i|]; [|reflexivity].
  destruct (findTask i (tasks (appState w))); [|reflexivity].
  rewrite Hblank. reflexivity.
Qed.

Lemma tasks_saveAndRender (h : Host) (w : World) :
  appState (saveAndRender h w) = appState w.
Proof.
  unfold saveAndRender, rerender, saveData.
  destruct (hasCreationStorage h).
  - destruct (btoa _); [destruct (storageFails h)|]; reflexivity.
  - destruct (storageFails h); reflexivity.
Qed.

Lemma storage_saveAndRender (h : Host) (w : World) :
  storage (saveAndRender h w) = storage (unawaited (saveData h w) w).
Proof. reflexivity. Qed.

Lemma findTask_updateFound (i : Z) (f : Task -> Task) (l : list Task) (t : Task) :
  (forall t, id (f t) = id t) ->
  findTask i l = Some t -> findTask i (updateFound i f l) = Some (f t).
Proof.
  intros Hf. unfold findTask.
  induction l as [|x l IH]; [discriminate|].
  cbn [find updateFound]. destruct (id x =? i)%Z eqn:E.
  - intros Hx; inversion Hx; subst. cbn [find]. rewrite Hf, E. reflexivity.
  - intros Hx. cbn [find]. rewrite E. apply IH, Hx.
Qed.

(** An accepted edit stores the trimmed text. *)
Lemma saveEdit_trims (h : Host) (form : EditForm) (w : World) (i : Z) (t : Task) :
  editing w = Some i -> findTask i (tasks (appState w)) = Some t ->
  trim (editTaskInput form) <> [] ->
  exists t', findTask i (tasks (appState (saveEdit h form w))) = Some t' /\
             task t' = trim (editTaskInput form) /\ id t' = id t.
Proof.
  intros He Hf Ht. unfold saveEdit. rewrite He, Hf.
  destruct (trim (editTaskInput form)) as [|c r] eqn:Etrim; [congruence|].
  cbn [truthy negb].
  destruct (chosen (editProjectSelect form) _ _) as [newProject projects'].
  destruct (chosen (editOrgSelect form) _ _) as [newOrg organizations'].
  unfold showView. cbn [appState with_dom].
  rewrite tasks_saveAndRender. cbn [appState with_appState tasks].
  eexists. split; [apply findTask_updateFound; [reflexivity | exact Hf]|].
  split; reflexivity.
Qed.

(** C10.  A draft whose text is white space only is confirmed: the task is
    appended with the text as it is, not trimmed, and the snapshot with it
    goes to the storage.  The same text entered in the edit view is trimmed
    to nothing and [saveEdit] leaves everything as it was. *)
Theorem whitespace_text_confirmed_but_not_saved_by_edit
  (h : Host) (w : World) (form : EditForm) (text : jsstring) :
  whitespace_only text ->
  Draft.task (currentTaskDraft w) = text ->
  editTaskInput form = text ->
  let w' := confirmTask h w in
  (exists t, tasks (appState w') = tasks (appState w) ++ [t] /\ task t = text) /\
  (storageFails h = false -> hasCreationStorage h = false ->
   localStorage_item (storage w')
   = Some (JSON_stringify (json_of_state (appState w')))) /\
  (storageFails h = false -> hasCreationStorage h = true ->
   forall encoded,
     btoa (JSON_stringify (json_of_state (appState w'))) = Some encoded ->
     creationStorage_item (storage w') = Some encoded) /\
  saveEdit h form w = w.
Proof.
  intros [Hne Hws] Hdraft Hinput w'.
  assert (Hw' : exists a',
             w' = showView (js "mainView") (saveAndRender h (with_appState a' w)) /\
             exists t, tasks a' = tasks (appState w) ++ [t] /\ task t = text).
  { unfold w', confirmTask. rewrite Hdraft.
    destruct text as [|c r]; [congruence|]. cbn [truthy negb].
    eexists. split; [reflexivity|]. cbn [tasks].
    eexists. split; reflexivity. }
  destruct Hw' as (a' & Ew' & t & Ht & Htext).
  assert (Ha' : appState w' = a').
  { rewrite Ew'. unfold showView. cbn [appState with_dom].
    rewrite tasks_saveAndRender. reflexivity. }
  repeat split.
  - exists t. rewrite Ha'. auto.
  - intros Hfail Hcs. rewrite Ha', Ew'. unfold showView. cbn [storage with_dom].
    rewrite storage_saveAndRender. unfold saveData.
    rewrite Hcs, Hfail. reflexivity.
  - intros Hfail Hcs encoded Hb. rewrite Ha' in Hb. rewrite Ew'.
    unfold showView. cbn [storage with_dom].
    rewrite storage_saveAndRender. unfold saveData.
    rewrite Hcs, Hfail. cbn [appState with_appState]. rewrite Hb. reflexivity.
  - apply saveEdit_rejects_blank. rewrite Hinput. apply trim_whitespace, Hws.
Qed.

End TaskHandlers.

(** ** The ids of the task list *)

Section Ids.
Context {collator : Collator}.

(** The ids are distinct and none is later than [bound]. *)
Let distinct_until (bound : Z) (w : World) : Prop :=
  NoDup (ids w) /\ Forall (fun i => (i <= bound)%Z) (ids w).

Lemma appState_rerender (h : Host) (w : World) : appState (rerender h w) = appState w.
Proof. reflexivity. Qed.

Lemma map_id_updateFound (i : Z) (f : Task -> Task) (l : list Task) :
  (forall t, id (f t) = id t) -> map id (updateFound i f l) = map id l.
Proof.
  intros Hf. induction l as [|t l IH]; [reflexivity|].
  cbn [updateFound]. destruct (id t =? i)%Z; cbn [map]; congruence.
Qed.

Lemma map_id_filter (p : Z -> bool) (l : list Task) :
  map id (filter (fun t => p (id t)) l) = filter p (map id l).
Proof.
  induction l as [|t l IH]; [reflexivity|].
  cbn [filter map]. destruct (p (id t)); cbn [map]; congruence.
Qed.

Lemma Forall_filter_keep {A} (P : A -> Prop) (p : A -> bool) (l : list A) :
  Forall P l -> Forall P (filter p l).
Proof.
  induction 1 as [|x l Hx Hl IH]; cbn [filter]; [constructor|].
  destruct (p x); [constructor|]; assumption.
Qed.

(** What each event does to the ids. *)
Lemma ids_step (h : Host) (e : Event) (w : World) :
  ids (step h e w) = ids w \/
  (e = ConfirmTask /\ ids (step h e w) = ids w ++ [now h]) \/
  (exists p, ids (step h e w) = filter p (ids w)).
Proof.
  unfold ids.
  destruct e as [| taskId | | | | data | | | form | confirmed | taskId |];
    cbn [step].
  - left; reflexivity.
  - left. unfold showEditView. cbn [appState with_editing].
    destruct (findTask _ _); reflexivity.
  - left; reflexivity.
  - left; reflexivity.
  - left. unfold handleSideClick.
    destruct (str_eqb _ _); [destruct (negb _)|]; reflexivity.
  - left. unfold onPluginMessage.
    destruct (isListening w); [destruct (truthy _)|]; reflexivity.
  - left; reflexivity.
  - unfold confirmTask.
    destruct (negb (truthy (Draft.task (currentTaskDraft w)))); [left; reflexivity|].
    right; left. split; [reflexivity|].
    unfold showView. cbn [appState with_dom]. rewrite tasks_saveAndRender.
    cbn [appState with_appState tasks]. rewrite map_app. reflexivity.
  - left. unfold saveEdit.
    destruct (editing w) as [i|]; [|reflexivity].
    destruct (findTask i _); [|reflexivity].
    destruct (negb (truthy _)); [reflexivity|].
    destruct (chosen (editProjectSelect form) _ _) as [newProject projects'].
    destruct (chosen (editOrgSelect form) _ _) as [newOrg organizations'].
    unfold showView. cbn [appState with_dom]. rewrite tasks_saveAndRender.
    cbn [appState with_appState tasks].
    apply map_id_updateFound. reflexivity.
  - unfold deleteTask.
    destruct (editing w) as [i|]; [|left; reflexivity].
    destruct confirmed; [|left; reflexivity].
    right; right. exists (fun j => negb (j =? i)%Z).
    unfold showView. cbn [appState with_dom]. rewrite tasks_saveAndRender.
    cbn [appState with_appState tasks].
    apply (map_id_filter (fun j => negb (j =? i)%Z)).
  - left. unfold toggleTaskComplete.
    destruct (findTask taskId _); [|reflexivity].
    rewrite tasks_saveAndRender. cbn [appState with_appState tasks].
    apply map_id_updateFound. reflexivity.
  - left. unfold toggleSort. rewrite tasks_saveAndRender. reflexivity.
Qed.

Lemma distinct_until_step (h : Host) (e : Event) (w : World) (bound : Z) :
  distinct_until bound w ->
  (e = ConfirmTask -> (bound < now h)%Z) ->
  distinct_until (if match e with ConfirmTask => true | _ => false end
                  then now h else bound) (step h e w).
Proof.
  intros [Hnd Hle] Hclock.
  assert (Hmono : forall b', (bound <= b')%Z -> Forall (fun i => (i <= b')%Z) (ids w)).
  { intros b' Hb. eapply Forall_impl; [|exact Hle]. cbv beta. intros; lia. }
  destruct (ids_step h e w) as [E | [(He & E) | (p & E)]].
  - unfold distinct_until. rewrite E. split; [exact Hnd|].
    destruct e; auto. apply Hmono. specialize (Hclock eq_refl). lia.
  - subst e. specialize (Hclock eq_refl). unfold distinct_until. rewrite E. split.
    + apply NoDup_app; [exact Hnd | repeat constructor; intros [] |].
      intros i Hi [<- | []]. rewrite Forall_forall in Hle.
      specialize (Hle _ Hi). lia.
    + apply Forall_app. split; [apply Hmono; lia | repeat constructor; lia].
  - unfold distinct_until. rewrite E. split.
    + apply NoDup_filter, Hnd.
    + apply Forall_filter_keep.
      destruct e; auto. apply Hmono. specialize (Hclock eq_refl). lia.
Qed.

Lemma distinct_until_run (trace : list (Host * Event)) (w : World) (bound : Z) :
  distinct_until bound w ->
  increasing_from bound (confirmations trace) ->
  NoDup (ids (run trace w)).
Proof.
  revert w bound. induction trace as [|[h e] trace IH]; intros w bound Hinv Hinc.
  - exact (proj1 Hinv).
  - cbn [run].
    destruct e; cbn [confirmations] in Hinc;
      try (apply (IH _ bound); [|exact Hinc];
           match goal with
           | |- distinct_until _ (step _ ?e _) =>
               apply (distinct_until_step h e w bound Hinv); discriminate
           end).
    destruct Hinc as [Hlt Hinc].
    apply (IH _ (now h)); [|exact Hinc].
    apply (distinct_until_step h ConfirmTask w bound Hinv). intros _; exact Hlt.
Qed.

(** C8, as the code has it.  The id of a new task is the reading of the
    clock and nothing checks it against the list.  When the ids are
    distinct, none is later than [bound], and every confirmation that
    follows reads the clock later than [bound] and later than the
    confirmation before it, the ids stay distinct, whatever else
    happens. *)
Theorem ids_distinct_while_clock_increases
  (trace : list (Host * Event)) (w : World) (bound : Z) :
  NoDup (ids w) ->
  Forall (fun i => (i <= bound)%Z) (ids w) ->
  increasing_from bound (confirmations trace) ->
  NoDup (ids (run trace w)).
Proof.
  intros Hnd Hle. apply distinct_until_run. split; assumption.
Qed.

End Ids.

(** C8 as stated fails: two tasks confirmed at the same reading of the
    clock get the same id. *)
Lemma same_reading_same_id :
  ~ NoDup (ids (@run ordinal_collator sameReadingTrace (initialWorld emptyStorage))).
Proof.
  assert (E : ids (@run ordinal_collator sameReadingTrace (initialWorld emptyStorage))
              = [1749556800000; 1749556800000]%Z) by (vm_compute; reflexivity).
  rewrite E. intros H. inversion H as [|? ? Hin _]; subst.
  apply Hin. left; reflexivity.
Qed.

(** ** Persistence *)

Lemma task_of_json_of_task (t : Task) : task_of_json (json_of_task t) = Some t.
Proof. destruct t; reflexivity. Qed.

Lemma all_some_map {A B} (f : A -> option B) (g : B -> A) (l : list B) :
  (forall x, f (g x) = Some x) -> all_some f (map g l) = Some l.
Proof.
  intros Hfg. induction l as [|x l IH]; [reflexivity|].
  cbn [map all_some]. rewrite Hfg, IH. reflexivity.
Qed.

Lemma assign_json_of_state (a : AppState) (w : World) :
  currentSortMode a <> [] ->
  assign (json_of_state a) w = Fulfilled (with_appState a w).
Proof.
  intros Hmode. unfold assign.
  change (property (js "tasks") (json_of_state a))
    with (Some (JArr (map json_of_task (tasks a)))).
  change (property (js "projects") (json_of_state a))
    with (Some (JArr (map JStr (projects a)))).
  change (property (js "organizations") (json_of_state a))
    with (Some (JArr (map JStr (organizations a)))).
  change (property (js "currentSortMode") (json_of_state a))
    with (Some (JStr (currentSortMode a))).
  cbn [or_else json_truthy tasks_of_json strings_of_json string_of_json].
  rewrite (all_some_map task_of_json json_of_task) by apply task_of_json_of_task.
  rewrite !(all_some_map string_of_json JStr) by reflexivity.
  destruct (currentSortMode a) as [|c r] eqn:E; [congruence|].
  cbn [truthy]. destruct a; cbn in E |- *. rewrite E. reflexivity.
Qed.

Lemma wf_js (s : string) : wf_string (js s).
Proof.
  unfold wf_string, js. apply Forall_forall. intros c Hc.
  apply in_map_iff in Hc as (a & <- & _).
  pose proof (N_ascii_bounded a). lia.
Qed.

Lemma wf_json_of_state (a : AppState) : valid_state a -> wf_json (json_of_state a).
Proof.
  intros (Ht & Hp & Ho & Hm).
  assert (Hstrs : forall l, Forall wf_string l -> wf_json (JArr (map JStr l))).
  { intros l Hl. apply wf_json_JArr. apply Forall_map.
    eapply Forall_impl; [|exact Hl]. auto. }
  assert (Htasks : wf_json (JArr (map json_of_task (tasks a)))).
  { apply wf_json_JArr. apply Forall_map.
    eapply Forall_impl; [|exact Ht].
    intros t (H1 & H2 & _ & H3 & H4 & H5 & H6).
    unfold json_of_task. apply wf_json_JObj.
    repeat (apply Forall_cons;
            [split; [apply wf_js | cbn [snd wf_json]; auto]|]).
    constructor. }
  assert (Hmode : wf_string (currentSortMode a))
    by (destruct Hm as [-> | ->]; apply wf_js).
  unfold json_of_state. apply wf_json_JObj.
  repeat (apply Forall_cons; [split; [apply wf_js | cbn [snd]; auto]|]).
  constructor.
Qed.

Lemma valid_state_mode (a : AppState) : valid_state a -> currentSortMode a <> [].
Proof. intros (_ & _ & _ & [-> | ->]); discriminate. Qed.

(** On a host with [localStorage] only, every valid state comes back. *)
Lemma reopen_after_save_localStorage (h : Host) (w : World) :
  valid_state (appState w) ->
  hasCreationStorage h = false -> storageFails h = false ->
  exists w', saveData h w = Fulfilled w' /\
             loadData h (reopen w')
             = Fulfilled (with_appState (appState w) (reopen w')).
Proof.
  intros Hv Hcs Hfail. unfold saveData. rewrite Hcs, Hfail.
  eexists. split; [reflexivity|].
  unfold loadData, reopen. rewrite Hcs, Hfail.
  cbn [storage with_storage initialWorld localStorage_item].
  destruct (JSON_stringify (json_of_state (appState w))) as [|c r] eqn:E.
  { discriminate E. }
  cbn [truthy]. rewrite <- E.
  rewrite JSON_parse_stringify by (apply wf_json_of_state, Hv).
  cbn [json_of_state json_truthy].
  apply (assign_json_of_state (appState w)), valid_state_mode, Hv.
Qed.

(** On a host with [creationStorage], a valid state comes back when its
    snapshot has no code unit above 255. *)
Lemma reopen_after_save_creationStorage (h : Host) (w : World) :
  valid_state (appState w) ->
  latin1 (JSON_stringify (json_of_state (appState w))) ->
  hasCreationStorage h = true -> storageFails h = false ->
  exists w', saveData h w = Fulfilled w' /\
             loadData h (reopen w')
             = Fulfilled (with_appState (appState w) (reopen w')).
Proof.
  intros Hv Hl Hcs Hfail. unfold saveData. rewrite Hcs, Hfail.
  rewrite (btoa_latin1 _ Hl).
  eexists. split; [reflexivity|].
  unfold loadData, reopen. rewrite Hcs, Hfail.
  cbn [storage with_storage initialWorld creationStorage_item].
  destruct (b64_encode (JSON_stringify (json_of_state (appState w)))) as [|c r] eqn:E.
  { destruct (stringify_head (json_of_state (appState w))) as (c0 & r0 & Ec & _).
    rewrite Ec in E. destruct r0 as [|b [|d s]]; discriminate E. }
  cbn [truthy]. rewrite <- E.
  rewrite (atob_btoa _ _ (btoa_latin1 _ Hl)).
  rewrite JSON_parse_stringify by (apply wf_json_of_state, Hv).
  cbn [json_of_state json_truthy].
  apply (assign_json_of_state (appState w)), valid_state_mode, Hv.
Qed.

(** [saveData] never touches the four variables. *)
Lemma saveData_keeps_state (h : Host) (w : World) :
  match saveData h w with
  | Fulfilled w' | Rejected _ w' => appState w' = appState w
  | Unmodelled => False
  end.
Proof.
  unfold saveData. destruct (hasCreationStorage h).
  - destruct (btoa _); [destruct (storageFails h)|]; reflexivity.
  - destruct (storageFails h); reflexivity.
Qed.

(** On a host with [creationStorage] no failure leaves [saveData] or
    [loadData]: both promises are fulfilled. *)
Lemma creationStorage_never_rejects (h : Host) (w : World) :
  hasCreationStorage h = true ->
  (exists w', saveData h w = Fulfilled w') /\
  (forall e w', loadData h w <> Rejected e w').
Proof.
  intros Hcs. split.
  - unfold saveData. rewrite Hcs.
    destruct (btoa _); [destruct (storageFails h)|]; eexists; reflexivity.
  - intros e w'. unfold loadData. rewrite Hcs.
    destruct (storageFails h); [discriminate|].
    destruct (creationStorage_item (storage w)) as [stored|]; [|discriminate].
    destruct (truthy stored); [|discriminate].
    destruct (atob stored) as [text|]; [|discriminate].
    destruct (JSON_parse text) as [data rest| |]; try discriminate.
    destruct (json_truthy data); [|discriminate].
    unfold assign.
    destruct (or_else tasks_of_json _ _); [|discriminate].
    destruct (or_else strings_of_json _ _); [|discriminate].
    destruct (or_else strings_of_json _ _); [|discriminate].
    destruct (or_else string_of_json _ _); discriminate.
Qed.

(** A rejected [loadData] has changed nothing. *)
Lemma loadData_rejected_unchanged (h : Host) (w w' : World) (e : Error) :
  loadData h w = Rejected e w' -> w' = w.
Proof.
  unfold loadData. destruct (hasCreationStorage h).
  - intros H. exfalso. revert H.
    destruct (storageFails h); [discriminate|].
    destruct (creationStorage_item (storage w)) as [stored|]; [|discriminate].
    destruct (truthy stored); [|discriminate].
    destruct (atob stored) as [text|]; [|discriminate].
    destruct (JSON_parse text) as [data rest| |]; try discriminate.
    destruct (json_truthy data); [|discriminate].
    unfold assign.
    destruct (or_else tasks_of_json _ _); [|discriminate].
    destruct (or_else strings_of_json _ _); [|discriminate].
    destruct (or_else strings_of_json _ _); [|discriminate].
    destruct (or_else string_of_json _ _); discriminate.
  - destruct (storageFails h); [intros H; inversion H; reflexivity|].
    destruct (localStorage_item (storage w)) as [stored|]; [|discriminate].
    destruct (truthy stored); [|discriminate].
    destruct (JSON_parse stored) as [data rest| |]; try discriminate.
    + destruct (json_truthy data); [|discriminate].
      unfold assign.
      destruct (or_else tasks_of_json _ _); [|discriminate].
      destruct (or_else strings_of_json _ _); [|discriminate].
      destruct (or_else strings_of_json _ _); [|discriminate].
      destruct (or_else string_of_json _ _); discriminate.
    + intros H; inversion H; reflexivity.
Qed.

Ltac closed_wf :=
  repeat match goal with
         | |- wf_string _ => unfold wf_string
         | |- Forall _ _ => constructor
         | |- _ /\ _ => split
         | |- (_ < _)%N => reflexivity
         | |- (_ <= _)%Z => vm_compute; discriminate
         | |- _ <> _ => discriminate
         end.

Lemma apostropheState_valid : valid_state apostropheState.
Proof.
  unfold valid_state, apostropheState. cbn [tasks projects organizations currentSortMode].
  split; [|split; [|split]].
  - constructor; [|constructor]. unfold valid_task; cbn; closed_wf.
  - constructor; [|constructor]. cbn; closed_wf.
  - constructor.
  - left; reflexivity.
Qed.

(** C1 fails on a host with [creationStorage].  A valid state with a task
    text that holds a typographic apostrophe is not stored at all: [btoa]
    throws on the code unit above 255, the [catch] of [saveData] swallows
    it, and the page opened again starts empty.  On a host with
    [localStorage] only, where [saveData] stores the JSON text itself, the
    same state comes back. *)
Theorem apostrophe_state_lost_on_creationStorage :
  valid_state apostropheState /\
  saveData noonHost apostropheWorld = Fulfilled apostropheWorld /\
  storage apostropheWorld = emptyStorage /\
  loadData noonHost (reopen apostropheWorld) = Fulfilled (reopen apostropheWorld) /\
  appState (reopen apostropheWorld) = initialApp /\
  initialApp <> apostropheState /\
  exists w',
    saveData noonBrowser apostropheWorld = Fulfilled w' /\
    loadData noonBrowser (reopen w')
    = Fulfilled (with_appState apostropheState (reopen w')).
Proof.
  split; [exact apostropheState_valid|].
  split; [vm_compute; reflexivity|].
  split; [reflexivity|].
  split; [vm_compute; reflexivity|].
  split; [reflexivity|].
  split; [discriminate|].
  apply (reopen_after_save_localStorage noonBrowser apostropheWorld);
    [exact apostropheState_valid | reflexivity | reflexivity].
Qed.

(** C6 fails on a host with [localStorage] only.  [JSON.parse] of a stored
    text that is not JSON throws outside any [try]: the promise of
    [loadData] is rejected and the handler that waits for it ends before
    the listeners are set up.  On a host with [creationStorage] the same
    text is caught and the page starts with the empty state. *)
Theorem corrupt_localStorage_aborts_startup :
  @initialize ordinal_collator noonBrowser (initialWorld corruptLocalStorage)
  = Rejected SyntaxError (initialWorld corruptLocalStorage) /\
  listenersBound (dom (initialWorld corruptLocalStorage)) = false /\
  atob (js "ew==") = Some (js "{") /\
  exists w',
    @initialize ordinal_collator noonHost (initialWorld corruptCreationStorage)
    = Fulfilled w' /\
    listenersBound (dom w') = true /\ appState w' = initialApp.
Proof.
  split; [vm_compute; reflexivity|].
  split; [reflexivity|].
  split; [vm_compute; reflexivity|].
  eexists. split; [vm_compute; reflexivity|].
  split; reflexivity.
Qed.

(** ** Escaping in the rendered list *)

Lemma count_app (c : codeunit) (a b : jsstring) :
  count c (a ++ b) = (count c a + count c b)%nat.
Proof. unfold count. rewrite filter_app, length_app. reflexivity. Qed.

Lemma plain_app (a b : jsstring) : plain a -> plain b -> plain (a ++ b).
Proof. intros Ha Hb. apply Forall_app; split; assumption. Qed.

Lemma plain_count (s : jsstring) :
  plain s -> count 60 s = 0%nat /\ count 62 s = 0%nat /\ ampersands_escaped s = true.
Proof.
  unfold count. induction 1 as [|c s (H38 & H60 & H62) Hs (IH1 & IH2 & IH3)];
    [repeat split|].
  cbn [filter ampersands_escaped].
  apply not_eq_sym, N.eqb_neq in H60, H62. apply N.eqb_neq in H38.
  rewrite H60, H62, H38, IH3. auto.
Qed.

Lemma plain_digits (s : jsstring) :
  Forall (fun c => is_digit c = true) s -> plain s.
Proof.
  apply Forall_impl. intros c Hc. unfold is_digit in Hc.
  apply andb_true_iff in Hc as [H1 H2]. apply N.leb_le in H1, H2. lia.
Qed.

Lemma plain_Number_toString (n : Z) : plain (Number_toString n).
Proof.
  unfold Number_toString. apply plain_app.
  - destruct (n <? 0)%Z; repeat constructor; discriminate.
  - apply plain_digits, uint_chars_digits.
Qed.

Ltac closed_plain := repeat constructor; discriminate.

Lemma plain_monthShort (m : Z) : plain (monthShort m).
Proof.
  unfold monthShort.
  repeat match goal with
         | |- plain (if ?b then _ else _) => destruct b; [closed_plain|]
         end.
  closed_plain.
Qed.

Lemma plain_formatDate (h : Host) (s : jsstring) : plain (formatDate h s).
Proof.
  unfold formatDate. destruct (negb (truthy s)); [constructor|].
  destruct (new_Date h s) as [date|]; [|closed_plain].
  destruct (_ =? _)%Z; [closed_plain|].
  destruct (_ =? _)%Z; [closed_plain|].
  destruct (civil_from_days (localDay h date)) as [[y m] d].
  destruct (civil_from_days (localDay h (now h))) as [[thisYear ?] ?].
  apply plain_app; [apply plain_monthShort|].
  apply plain_app; [closed_plain|].
  apply plain_app; [apply plain_Number_toString|].
  destruct (negb (y =? thisYear)%Z); [|constructor].
  apply plain_app; [closed_plain | apply plain_Number_toString].
Qed.

Lemma starts_with_app (p s tail : jsstring) :
  starts_with p s = true -> starts_with p (s ++ tail) = true.
Proof.
  revert s. induction p as [|c p IH]; intros [|d s]; cbn; auto; try discriminate.
  rewrite !andb_true_iff. intros [? ?]; auto.
Qed.

Lemma ampersands_escaped_app (a b : jsstring) :
  ampersands_escaped a = true -> ampersands_escaped b = true ->
  ampersands_escaped (a ++ b) = true.
Proof.
  intros Ha Hb. induction a as [|c a IH]; [exact Hb|].
  cbn [app ampersands_escaped] in *.
  apply andb_true_iff in Ha as [Hc Ha]. rewrite (IH Ha), andb_true_r.
  destruct (c =? 38)%N; [|reflexivity].
  repeat match type of Hc with
         | (_ || _) = true => apply orb_true_iff in Hc as [Hc | Hc]
         end;
    rewrite (starts_with_app _ _ b Hc), ?orb_true_r; reflexivity.
Qed.

(** [escapeHtml] leaves no [<] and no [>], and every [&] it writes begins a
    character reference. *)
Lemma escapeHtml_safe (text : jsstring) :
  count 60 (escapeHtml text) = 0%nat /\
  count 62 (escapeHtml text) = 0%nat /\
  ampersands_escaped (escapeHtml text) = true.
Proof.
  unfold escapeHtml.
  induction text as [|c text (IH1 & IH2 & IH3)]; [repeat split|].
  cbn [flat_map]. rewrite !count_app, IH1, IH2.
  set (rest := flat_map escape_text_unit text) in *.
  assert (Hc : count 60 (escape_text_unit c) = 0%nat /\
               count 62 (escape_text_unit c) = 0%nat /\
               ampersands_escaped (escape_text_unit c ++ rest) = true).
  { unfold escape_text_unit.
    destruct (c =? 38)%N eqn:E38;
      [repeat split; try reflexivity;
       apply ampersands_escaped_app; [reflexivity | exact IH3]|].
    destruct (c =? 60)%N eqn:E60;
      [repeat split; try reflexivity;
       apply ampersands_escaped_app; [reflexivity | exact IH3]|].
    destruct (c =? 62)%N eqn:E62;
      [repeat split; try reflexivity;
       apply ampersands_escaped_app; [reflexivity | exact IH3]|].
    destruct (c =? 160)%N eqn:E160;
      [repeat split; try reflexivity;
       apply ampersands_escaped_app; [reflexivity | exact IH3]|].
    unfold count. cbn [filter app ampersands_escaped].
    rewrite (N.eqb_sym 60 c), (N.eqb_sym 62 c), E60, E62, E38, IH3. auto. }
  destruct Hc as (-> & -> & ->). auto.
Qed.

Lemma markup_app (l1 g1 l2 g2 : nat) (a b : jsstring) :
  markup l1 g1 a -> markup l2 g2 b -> markup (l1 + l2) (g1 + g2) (a ++ b).
Proof.
  intros (A1 & A2 & A3) (B1 & B2 & B3). unfold markup.
  rewrite !count_app, A1, A2, B1, B2, ampersands_escaped_app by assumption.
  auto.
Qed.

Lemma markup_plain (s : jsstring) : plain s -> markup 0 0 s.
Proof. apply plain_count. Qed.

Lemma markup_escapeHtml (text : jsstring) : markup 0 0 (escapeHtml text).
Proof. apply escapeHtml_safe. Qed.

Lemma markup_closed (lt gt : nat) (s : jsstring) :
  count 60 s = lt -> count 62 s = gt -> ampersands_escaped s = true ->
  markup lt gt s.
Proof. intros; repeat split; assumption. Qed.

Lemma markup_if (b : bool) (l1 g1 l2 g2 : nat) (s1 s2 : jsstring) :
  markup l1 g1 s1 -> markup l2 g2 s2 ->
  markup (if b then l1 else l2) (if b then g1 else g2) (if b then s1 else s2).
Proof. destruct b; auto. Qed.

(** Markup is counted piece by piece along the template. *)
Ltac markup_pieces :=
  repeat lazymatch goal with
         | |- markup _ _ (_ ++ _) => eapply markup_app
         | |- markup _ _ (if _ then _ else _) => eapply markup_if
         | |- markup _ _ (escapeHtml _) => apply markup_escapeHtml
         | |- markup _ _ (Number_toString _) =>
             apply markup_plain, plain_Number_toString
         | |- markup _ _ (formatDate _ _) =>
             apply markup_plain, plain_formatDate
         | |- markup _ _ _ => apply markup_closed; reflexivity
         end.

Lemma markup_dueTag (h : Host) (t : Task) : markup 2 2 (dueTag h t).
Proof.
  assert (H : exists lt gt, markup lt gt (dueTag h t) /\ lt = 2%nat /\ gt = 2%nat).
  { do 2 eexists. split; [unfold dueTag; markup_pieces|].
    destruct (isOverdue h t); split; reflexivity. }
  destruct H as (lt & gt & H & -> & ->). exact H.
Qed.

Lemma markup_renderTask (h : Host) (t : Task) :
  markup (tagCount t) (tagCount t) (renderTask h t).
Proof.
  assert (H : exists lt gt, markup lt gt (renderTask h t) /\
                            lt = tagCount t /\ gt = tagCount t).
  { do 2 eexists. split.
    - unfold renderTask.
      repeat lazymatch goal with
             | |- markup _ _ (dueTag _ _) => apply markup_dueTag
             | |- markup _ _ (_ ++ _) => eapply markup_app
             | |- markup _ _ (if _ then _ else _) => eapply markup_if
             | |- markup _ _ (escapeHtml _) => apply markup_escapeHtml
             | |- markup _ _ (Number_toString _) =>
                 apply markup_plain, plain_Number_toString
             | |- markup _ _ _ => apply markup_closed; reflexivity
             end.
    - unfold tagCount.
      destruct (completed t), (truthy (project t)), (truthy (organization t)),
        (truthy (dueDate t)); split; reflexivity. }
  destruct H as (lt & gt & H & -> & ->). exact H.
Qed.

Lemma list_sum_permutation (l l' : list nat) :
  Permutation l l' -> list_sum l = list_sum l'.
Proof.
  induction 1; simpl; lia.
Qed.

Lemma markup_rows (h : Host) (l : list Task) :
  markup (list_sum (map tagCount l)) (list_sum (map tagCount l))
         (List.concat (map (renderTask h) l)).
Proof.
  induction l as [|t l IH]; [repeat split|].
  cbn [map List.concat].
  change (list_sum (tagCount t :: map tagCount l))
    with (tagCount t + list_sum (map tagCount l))%nat.
  apply markup_app; [apply markup_renderTask | exact IH].
Qed.

(** In the markup of the task list the characters [<] and [>] are those
    of the template and no others: every row has the three [div] elements
    and one [span] for each tag that is there, whatever the title, the
    project name, the organization name or the due date say; and every
    [&] begins a character reference. *)
Lemma renderTasks_tag_counts
  {collator : Collator} (h : Host) (tasks : list Task) (mode : jsstring) :
  let html := innerHTML (renderTasks h tasks mode) in
  count 60 html = list_sum (map tagCount tasks) /\
  count 62 html = list_sum (map tagCount tasks) /\
  ampersands_escaped html = true.
Proof.
  cbv zeta. unfold renderTasks.
  destruct tasks as [|t tasks]; [repeat split|].
  cbn [innerHTML].
  assert (Hp : list_sum (map tagCount (sortTasks (t :: tasks) mode))
               = list_sum (map tagCount (t :: tasks))).
  { apply list_sum_permutation, Permutation_map, Permutation_sym.
    rewrite sortTasks_eq. apply Array_sort_perm. }
  rewrite <- Hp. apply markup_rows.
Qed.

(** *** The markup read back *)

Lemma escapeHtml_app (a b : jsstring) :
  escapeHtml (a ++ b) = escapeHtml a ++ escapeHtml b.
Proof. apply flat_map_app. Qed.

Lemma escapeHtml_verbatim (s : jsstring) : verbatim s -> escapeHtml s = s.
Proof.
  induction 1 as [|c s (H1 & H2 & H3 & H4) Hs IH]; [reflexivity|].
  change (escapeHtml (c :: s)) with (escape_text_unit c ++ escapeHtml s).
  rewrite IH. unfold escape_text_unit.
  apply N.eqb_neq in H1, H2, H3, H4. rewrite H1, H2, H3, H4. reflexivity.
Qed.

Lemma verbatim_app (a b : jsstring) : verbatim a -> verbatim b -> verbatim (a ++ b).
Proof. intros Ha Hb. apply Forall_app. split; assumption. Qed.

Ltac closed_verbatim := repeat constructor; discriminate.

Lemma verbatim_Number_toString (n : Z) : verbatim (Number_toString n).
Proof.
  unfold Number_toString. apply verbatim_app.
  - destruct (n <? 0)%Z; closed_verbatim.
  - eapply Forall_impl; [|apply uint_chars_digits].
    intros c Hc. unfold is_digit in Hc.
    apply andb_true_iff in Hc as [H1 H2]. apply N.leb_le in H1, H2. lia.
Qed.

Lemma verbatim_monthShort (m : Z) : verbatim (monthShort m).
Proof.
  unfold monthShort.
  repeat match goal with
         | |- verbatim (if ?b then _ else _) => destruct b; [closed_verbatim|]
         end.
  closed_verbatim.
Qed.

(** [formatDate] writes a label, never the text it was given. *)
Lemma verbatim_formatDate (h : Host) (s : jsstring) : verbatim (formatDate h s).
Proof.
  unfold formatDate. destruct (negb (truthy s)); [constructor|].
  destruct (new_Date h s) as [date|]; [|closed_verbatim].
  destruct (_ =? _)%Z; [closed_verbatim|].
  destruct (_ =? _)%Z; [closed_verbatim|].
  destruct (civil_from_days (localDay h date)) as [[y m] d].
  destruct (civil_from_days (localDay h (now h))) as [[thisYear ?] ?].
  apply verbatim_app; [apply verbatim_monthShort|].
  apply verbatim_app; [closed_verbatim|].
  apply verbatim_app; [apply verbatim_Number_toString|].
  destruct (negb (y =? thisYear)%Z); [|constructor].
  apply verbatim_app; [closed_verbatim | apply verbatim_Number_toString].
Qed.

(** Decoding gives back the text that [escapeHtml] was given. *)
Lemma decode_escape_unit (c : codeunit) (rest : jsstring) :
  decode_skipping 0 (escape_text_unit c ++ rest)
  = option_map (cons c) (decode_skipping 0 rest).
Proof.
  unfold escape_text_unit.
  destruct (c =? 38)%N eqn:E38; [apply N.eqb_eq in E38; subst; reflexivity|].
  destruct (c =? 60)%N eqn:E60; [apply N.eqb_eq in E60; subst; reflexivity|].
  destruct (c =? 62)%N eqn:E62; [apply N.eqb_eq in E62; subst; reflexivity|].
  destruct (c =? 160)%N eqn:E160; [apply N.eqb_eq in E160; subst; reflexivity|].
  cbn [app decode_skipping]. rewrite E38. reflexivity.
Qed.

Lemma decode_escapeHtml (text : jsstring) : decode_text (escapeHtml text) = Some text.
Proof.
  unfold decode_text. induction text as [|c text IH]; [reflexivity|].
  change (escapeHtml (c :: text)) with (escape_text_unit c ++ escapeHtml text).
  rewrite decode_escape_unit, IH. reflexivity.
Qed.

Lemma escapeHtml_nil (text : jsstring) : escapeHtml text = [] -> text = [].
Proof.
  destruct text as [|c text]; [reflexivity|].
  change (escapeHtml (c :: text)) with (escape_text_unit c ++ escapeHtml text).
  unfold escape_text_unit.
  destruct (c =? 38)%N; [discriminate|]. destruct (c =? 60)%N; [discriminate|].
  destruct (c =? 62)%N; [discriminate|]. destruct (c =? 160)%N; discriminate.
Qed.

Lemma escapeHtml_no_lt (text : jsstring) :
  Forall (fun c => c <> 60%N) (escapeHtml text).
Proof.
  induction text as [|c text IH]; [constructor|].
  change (escapeHtml (c :: text)) with (escape_text_unit c ++ escapeHtml text).
  apply Forall_app. split; [|exact IH]. unfold escape_text_unit.
  destruct (c =? 38)%N; [repeat constructor; discriminate|].
  destruct (c =? 60)%N eqn:E; [repeat constructor; discriminate|].
  destruct (c =? 62)%N; [repeat constructor; discriminate|].
  destruct (c =? 160)%N; [repeat constructor; discriminate|].
  apply N.eqb_neq in E. repeat constructor. exact E.
Qed.

(** Reading a text that holds no [<], and reading a tag. *)
Lemma tokens_from_text (a pending s : jsstring) :
  Forall (fun c => c <> 60%N) a ->
  tokens_from false pending (a ++ s) = tokens_from false (rev a ++ pending) s.
Proof.
  intros Ha. revert pending. induction Ha as [|c a Hc Ha IH]; intros pending;
    [reflexivity|].
  cbn [app tokens_from rev]. apply N.eqb_neq in Hc. rewrite Hc, IH, <- app_assoc.
  reflexivity.
Qed.

Lemma tokens_from_tag (body pending s : jsstring) :
  Forall (fun c => c <> 62%N) body ->
  tokens_from true pending (body ++ 62%N :: s)
  = option_map (cons (Tag (rev pending ++ body))) (tokens_from false [] s).
Proof.
  intros Hb. revert pending. induction Hb as [|c body Hc Hb IH]; intros pending.
  - cbn [app tokens_from N.eqb Pos.eqb]. rewrite app_nil_r. reflexivity.
  - cbn [app tokens_from]. apply N.eqb_neq in Hc. rewrite Hc, IH.
    cbn [rev]. rewrite <- app_assoc. reflexivity.
Qed.

Lemma merge_texts_empty (ts : list Token) :
  merge_texts (Text [] :: ts) = merge_texts ts.
Proof. cbn [merge_texts]. destruct (merge_texts ts) as [|[b|b] r]; reflexivity. Qed.

Lemma merge_texts_join (p q : jsstring) (ts : list Token) :
  merge_texts (Text p :: Text q :: ts) = merge_texts (Text (p ++ q) :: ts).
Proof.
  cbn [merge_texts]. destruct (merge_texts ts) as [|[b|b] r].
  - destruct q as [|c q]; [rewrite app_nil_r; reflexivity|].
    destruct p; reflexivity.
  - destruct q as [|c q]; [rewrite app_nil_r; reflexivity|].
    destruct p; reflexivity.
  - rewrite app_assoc. reflexivity.
Qed.

Lemma emit_escaped (p : jsstring) (rest : list Token) :
  emit (rev (escapeHtml p)) rest
  = Some (match p with [] => rest | _ :: _ => Text p :: rest end).
Proof.
  unfold emit. destruct (rev (escapeHtml p)) as [|c r] eqn:E.
  - assert (Hp : p = []).
    { apply escapeHtml_nil. rewrite <- (rev_involutive (escapeHtml p)), E.
      reflexivity. }
    subst p. reflexivity.
  - rewrite <- E, rev_involutive, decode_escapeHtml.
    destruct p; [discriminate E | reflexivity].
Qed.

(** The parser reads back what the serialization wrote. *)
Lemma tokens_from_serialize (ts : list Token) (p : jsstring) :
  Forall closed_tag ts ->
  tokens_from false (rev (escapeHtml p)) (serialize ts)
  = Some (merge_texts (Text p :: ts)).
Proof.
  intros Hts. revert p. induction Hts as [|t ts Ht Hts IH]; intros p.
  - cbn [serialize flat_map tokens_from]. rewrite emit_escaped.
    destruct p; reflexivity.
  - destruct t as [body | q].
    + cbn [closed_tag] in Ht.
      change (serialize (Tag body :: ts))
        with ((60%N :: body ++ [62%N]) ++ serialize ts).
      cbn [app]. rewrite <- app_assoc. cbn [tokens_from N.eqb Pos.eqb app].
      rewrite (tokens_from_tag body [] (serialize ts) Ht).
      change (@nil N) with (rev (escapeHtml [])) at 2.
      rewrite IH, merge_texts_empty. cbn [option_map rev app].
      rewrite emit_escaped. cbn [merge_texts]. destruct p; reflexivity.
    + change (serialize (Text q :: ts)) with (escapeHtml q ++ serialize ts).
      rewrite tokens_from_text by apply escapeHtml_no_lt.
      rewrite <- rev_app_distr, <- escapeHtml_app, IH, merge_texts_join.
      reflexivity.
Qed.

Lemma tokens_serialize (ts : list Token) :
  Forall closed_tag ts -> tokens (serialize ts) = Some (merge_texts ts).
Proof.
  intros Hts. unfold tokens.
  change (@nil N) with (rev (escapeHtml [])).
  rewrite tokens_from_serialize by exact Hts. rewrite merge_texts_empty.
  reflexivity.
Qed.

Lemma serialize_app (a b : list Token) :
  serialize (a ++ b) = serialize a ++ serialize b.
Proof. apply flat_map_app. Qed.

Lemma serialize_flat_map {A} (f : A -> list Token) (l : list A) :
  serialize (flat_map f l) = List.concat (map (fun x => serialize (f x)) l).
Proof.
  induction l as [|x l IH]; [reflexivity|].
  cbn [flat_map map List.concat]. rewrite serialize_app, IH. reflexivity.
Qed.

Ltac closed_tag_body :=
  repeat first
    [ eapply Forall_impl; [|apply verbatim_Number_toString]; cbv beta; tauto
    | apply Forall_app; split
    | match goal with |- Forall _ (if ?b then _ else _) => destruct b end
    | repeat constructor; discriminate ].

Lemma rowPieces_closed (h : Host) (t : Task) : Forall closed_tag (rowPieces h t).
Proof.
  unfold rowPieces.
  repeat match goal with
         | |- Forall closed_tag (_ ++ _) => apply Forall_app; split
         | |- Forall closed_tag (if ?b then _ else _) => destruct b
         | |- Forall closed_tag (_ :: _) => apply Forall_cons
         | |- Forall closed_tag [] => apply Forall_nil
         | |- closed_tag (Text _) => exact I
         end;
    cbn [closed_tag]; closed_tag_body.
Qed.

Lemma serialize_tag (body : jsstring) (ts : list Token) :
  serialize (Tag body :: ts) = 60%N :: body ++ 62%N :: serialize ts.
Proof.
  change (serialize (Tag body :: ts)) with ((60%N :: body ++ [62%N]) ++ serialize ts).
  cbn [app]. rewrite <- app_assoc. reflexivity.
Qed.

Lemma serialize_text (content : jsstring) (ts : list Token) :
  serialize (Text content :: ts) = escapeHtml content ++ serialize ts.
Proof. reflexivity. Qed.

Lemma escapeHtml_nl (indent : nat) : escapeHtml (nl indent) = nl indent.
Proof.
  apply escapeHtml_verbatim. unfold nl. constructor; [repeat split; discriminate|].
  induction indent as [|n IH]; constructor; [repeat split; discriminate | exact IH].
Qed.

Lemma escapeHtml_after_glyph (glyph text : jsstring) :
  verbatim glyph ->
  escapeHtml (glyph ++ js " " ++ text) = glyph ++ js " " ++ escapeHtml text.
Proof.
  intros Hg. rewrite !escapeHtml_app, (escapeHtml_verbatim glyph Hg). reflexivity.
Qed.

(** The row [renderTasks] writes for a task is the serialization of its
    pieces: each text of the task goes through [escapeHtml]. *)
Lemma renderTask_serialize (h : Host) (t : Task) :
  renderTask h t = serialize (rowPieces h t).
Proof.
  unfold renderTask, rowPieces, dueTag.
  destruct (completed t), (truthy (project t)), (truthy (organization t)),
    (truthy (dueDate t)), (isOverdue h t);
    cbn [app];
    repeat first [rewrite serialize_tag | rewrite serialize_text];
    rewrite ?escapeHtml_nl;
    rewrite ?(escapeHtml_after_glyph glyph_project) by closed_verbatim;
    rewrite ?(escapeHtml_after_glyph glyph_org) by closed_verbatim;
    rewrite ?(escapeHtml_after_glyph glyph_due) by closed_verbatim;
    rewrite ?(escapeHtml_verbatim (formatDate h (dueDate t)))
      by apply verbatim_formatDate;
    change (serialize []) with (@nil N);
    generalize (Number_toString (id t)) (escapeHtml (task t))
      (escapeHtml (project t)) (escapeHtml (organization t))
      (formatDate h (dueDate t));
    intros ID title proj org label;
    repeat rewrite <- app_assoc; cbn; reflexivity.
Qed.

(** C4.  The markup of the task list is the template with every text of a
    task (title, project name, organization name) written by [escapeHtml],
    and an HTML parser reads it back as the tags of the template and, as
    texts, the texts of the tasks as they are: no character of a user text
    is taken as markup, and none is lost. *)
Theorem renderTasks_escapes_user_text
  {collator : Collator} (h : Host) (tasks : list Task) (mode : jsstring) :
  let rows := flat_map (rowPieces h) (sortTasks tasks mode) in
  innerHTML (renderTasks h tasks mode) = serialize rows /\
  tokens (innerHTML (renderTasks h tasks mode)) = Some (merge_texts rows) /\
  (forall text, decode_text (escapeHtml text) = Some text /\
                count 60 (escapeHtml text) = 0%nat /\
                count 62 (escapeHtml text) = 0%nat).
Proof.
  cbv zeta.
  assert (Hs : innerHTML (renderTasks h tasks mode)
               = serialize (flat_map (rowPieces h) (sortTasks tasks mode))).
  { rewrite serialize_flat_map. unfold renderTasks.
    destruct tasks as [|t tasks].
    - rewrite sortTasks_eq. reflexivity.
    - cbn [innerHTML]. f_equal. apply map_ext. intros t0.
      apply renderTask_serialize. }
  split; [exact Hs|]. split.
  - rewrite Hs. apply tokens_serialize.
    apply Forall_flat_map, Forall_forall. intros t _. apply rowPieces_closed.
  - intros text. split; [apply decode_escapeHtml|].
    destruct (escapeHtml_safe text) as (H1 & H2 & _). split; assumption.
Qed.

(** A title with markup in it comes back as the title. *)
Example script_title_read_back :
  tokens (serialize [Tag (js "div class=" ++ dq ++ js "task-title" ++ dq);
                     Text (js "<script>alert(1)</script> & more");
                     Tag (js "/div")])
  = Some [Tag (js "div class=" ++ dq ++ js "task-title" ++ dq);
          Text (js "<script>alert(1)</script> & more");
          Tag (js "/div")].
Proof. reflexivity. Qed.

(** The texts of the specification's injection test, rendered. *)
Example escapeHtml_script :
  escapeHtml (js "<script>alert(1)</script> & more")
  = js "&lt;script&gt;alert(1)&lt;/script&gt; &amp; more".
Proof. reflexivity. Qed.

(** ** The overdue marker *)

(** A date-only text that names a day is read the same on every host. *)
Lemma new_Date_date_only (h : Host) (s : jsstring) (date : Z) :
  Date_parse s = Some date -> new_Date h s = Some date.
Proof. intros H. unfold new_Date. rewrite H. reflexivity. Qed.

(** The marker is written exactly when the due date is read as an instant
    before the clock reading and the task is not completed. *)
Lemma isOverdue_iff (h : Host) (t : Task) :
  isOverdue h t = true <->
  dueDate t <> [] /\ completed t = false /\
  exists due, new_Date h (dueDate t) = Some due /\ (due < now h)%Z.
Proof.
  unfold isOverdue. rewrite !andb_true_iff, negb_true_iff. split.
  - intros [[Hd Hp] Hc]. split; [destruct (dueDate t); discriminate || congruence|].
    split; [exact Hc|].
    destruct (new_Date h (dueDate t)) as [due|]; [|discriminate].
    exists due. split; [reflexivity | apply Z.ltb_lt, Hp].
  - intros (Hd & Hc & due & Hp & Hlt). rewrite Hp. repeat split.
    + destruct (dueDate t); [congruence | reflexivity].
    + apply Z.ltb_lt, Hlt.
    + exact Hc.
Qed.

Lemma completed_not_overdue (h : Host) (t : Task) :
  completed t = true -> isOverdue h t = false.
Proof.
  intros Hc. unfold isOverdue. rewrite Hc, andb_false_r. reflexivity.
Qed.

(** A date before the local day of the clock is before the clock. *)
Lemma overdue_when_due_before_today (h : Host) (t : Task) (due : Z) :
  (timezone h < msPerDay)%Z ->
  dueDate t <> [] -> completed t = false ->
  Date_parse (dueDate t) = Some due ->
  (due / msPerDay < localDay h (now h))%Z ->
  isOverdue h t = true.
Proof.
  intros Htz Hd Hc Hp Hday. apply isOverdue_iff.
  split; [exact Hd|]. split; [exact Hc|].
  exists due. split; [apply new_Date_date_only, Hp|].
  unfold localDay, msPerDay in *.
  pose proof (Z.div_mod due 86400000 ltac:(discriminate)) as E1.
  pose proof (Z.mod_pos_bound due 86400000 ltac:(reflexivity)) as B1.
  pose proof (Z.div_mod (now h + timezone h) 86400000 ltac:(discriminate)) as E2.
  pose proof (Z.mod_pos_bound (now h + timezone h) 86400000 ltac:(reflexivity)) as B2.
  assert (Hdue : (due mod 86400000 = 0)%Z).
  { unfold Date_parse in Hp.
    repeat match type of Hp with
           | match ?x with _ => _ end = _ => destruct x; try discriminate
           | (if ?b then _ else _) = _ => destruct b; try discriminate
           end.
    inversion Hp. apply Z.mod_mul. discriminate. }
  lia.
Qed.

(** C5 fails for a task due today.  At noon of 10 June 2025 a task due on
    10 June 2025 and not completed gets the marker, in the same tag that
    says [Today]: the due date is compared as the instant of its UTC
    midnight with the clock, not day with day as [formatDate] does.  Once
    completed, the task has no marker. *)
Theorem due_today_marked_overdue :
  Date_parse (dueDate dueTodayTask) = Some 1749513600000%Z /\
  localDay noonHost 1749513600000 = localDay noonHost (now noonHost) /\
  isOverdue noonHost dueTodayTask = true /\
  dueTag noonHost dueTodayTask
  = js "<span class=" ++ dq ++ js "task-tag due overdue" ++ dq ++ js ">" ++
    glyph_due ++ js " Today</span>" /\
  tasks (appState (@toggleTaskComplete ordinal_collator noonHost (id dueTodayTask)
                     dueTodayWorld)) = [dueTodayDone] /\
  dueTag noonHost dueTodayDone
  = js "<span class=" ++ dq ++ js "task-tag due " ++ dq ++ js ">" ++
    glyph_due ++ js " Today</span>".
Proof. repeat split; vm_compute; reflexivity. Qed.

(** ** The share link *)

Lemma trimStart_head (s : jsstring) :
  match trimStart s with
  | [] => True
  | c :: _ => is_js_ws c = false
  end.
Proof.
  induction s as [|c s IH]; [exact I|].
  cbn [trimStart]. destruct (is_js_ws c) eqn:E; [exact IH | exact E].
Qed.

Lemma trimEnd_idempotent (s : jsstring) : trimEnd (trimEnd s) = trimEnd s.
Proof.
  induction s as [|c s IH]; [reflexivity|].
  cbn [trimEnd]. destruct (trimEnd s) as [|d r] eqn:E.
  - destruct (is_js_ws c) eqn:Ec; [reflexivity|].
    cbn [trimEnd]. rewrite Ec. reflexivity.
  - change (trimEnd (c :: d :: r))
      with (match trimEnd (d :: r) with
            | [] => if is_js_ws c then [] else [c]
            | r' => c :: r'
            end).
    rewrite IH. reflexivity.
Qed.

Lemma trimEnd_head (c : codeunit) (r : jsstring) :
  is_js_ws c = false -> exists r', trimEnd (c :: r) = c :: r'.
Proof.
  intros Hc. cbn [trimEnd]. destruct (trimEnd r); [rewrite Hc|]; eauto.
Qed.

Lemma trim_idempotent (s : jsstring) : trim (trim s) = trim s.
Proof.
  unfold trim. pose proof (trimStart_head s) as Hh.
  destruct (trimStart s) as [|c r]; [reflexivity|].
  destruct (trimEnd_head c r Hh) as (r' & E).
  rewrite E. cbn [trimStart]. rewrite Hh, <- E. apply trimEnd_idempotent.
Qed.

Lemma wf_trimStart (s : jsstring) : wf_string s -> wf_string (trimStart s).
Proof.
  unfold wf_string. induction 1 as [|c s Hc Hs IH]; [constructor|].
  cbn [trimStart]. destruct (is_js_ws c); [exact IH | constructor; assumption].
Qed.

Lemma wf_trimEnd (s : jsstring) : wf_string s -> wf_string (trimEnd s).
Proof.
  unfold wf_string. induction 1 as [|c s Hc Hs IH]; [constructor|].
  cbn [trimEnd]. destruct (trimEnd s) as [|d r].
  - destruct (is_js_ws c); repeat constructor; assumption.
  - constructor; assumption.
Qed.

Lemma wf_trim (s : jsstring) : wf_string s -> wf_string (trim s).
Proof. intros H. apply wf_trimEnd, wf_trimStart, H. Qed.

Lemma getFormData_idempotent (form : FormData) :
  getFormData (getFormData form) = getFormData form.
Proof.
  unfold getFormData. cbn [title url description iconUrl themeColor].
  rewrite !trim_idempotent. reflexivity.
Qed.

Lemma wf_json_of_form (form : FormData) :
  wf_form form -> wf_json (json_of_form (getFormData form)).
Proof.
  intros (H1 & H2 & H3 & H4 & H5).
  unfold json_of_form. apply wf_json_JObj.
  repeat (apply Forall_cons;
          [split; [apply wf_js | cbn [snd wf_json getFormData title url
                                       description iconUrl themeColor];
                                 auto using wf_trim]|]).
  constructor.
Qed.

(** *** The URL-safe alphabet *)

Lemma b64_char_unreserved (v : N) :
  let c := b64_char v in
  unreserved c = true \/ c = 43%N \/ c = 47%N.
Proof.
  unfold b64_char, unreserved.
  repeat match goal with
         | |- context [if ?b then _ else _] =>
             let E := fresh "E" in destruct b eqn:E
         end;
    n_bools; cbv zeta; auto.
  - left. repeat (apply orb_true_iff; left).
    apply andb_true_iff; split; apply N.leb_le; lia.
  - left. apply orb_true_iff; left. apply orb_true_iff; left.
    apply orb_true_iff; left. apply orb_true_iff; right.
    apply andb_true_iff; split; apply N.leb_le; lia.
  - left. apply orb_true_iff; left. apply orb_true_iff; left.
    apply orb_true_iff; right.
    apply andb_true_iff; split; apply N.leb_le; lia.
Qed.

Lemma b64_encode_written (s : jsstring) : Forall b64_written (b64_encode s).
Proof.
  assert (Hc : forall v, b64_written (b64_char v)).
  { intros v. destruct (b64_char_unreserved v) as [H | [H | H]];
      destruct (b64_char_alphabet v) as (_ & H45 & H95 & _);
      unfold b64_written; auto. }
  assert (Hp : b64_written 61%N) by (unfold b64_written; auto).
  induction s as [| a | a b | a b c r IH] using list_ind3;
    cbn [b64_encode];
    repeat (apply Forall_cons; [first [apply Hc | exact Hp]|]);
    try apply Forall_nil; exact IH.
Qed.

Lemma urlSafe_unreserved (e : jsstring) :
  Forall b64_written e -> forallb unreserved (urlSafe e) = true.
Proof.
  unfold urlSafe, removeAll, replaceAll.
  induction 1 as [|c e Hc He IH]; [reflexivity|].
  cbn [map filter].
  destruct Hc as [(Hu & H45 & H95) | [-> | [-> | ->]]]; try (cbn; exact IH).
  assert (H43 : (c =? 43)%N = false).
  { destruct (c =? 43)%N eqn:E; [|reflexivity].
    apply N.eqb_eq in E; subst; discriminate Hu. }
  assert (H47 : (c =? 47)%N = false).
  { destruct (c =? 47)%N eqn:E; [|reflexivity].
    apply N.eqb_eq in E; subst; discriminate Hu. }
  assert (H61 : (c =? 61)%N = false).
  { destruct (c =? 61)%N eqn:E; [|reflexivity].
    apply N.eqb_eq in E; subst; discriminate Hu. }
  rewrite H43, H47, H61. cbn [negb forallb]. rewrite Hu, IH. reflexivity.
Qed.

(** Undoing the two substitutions gives the text of [btoa] without its
    padding. *)
Lemma urlSafe_reversed (e : jsstring) :
  Forall b64_written e ->
  replaceAll 95 47 (replaceAll 45 43 (urlSafe e)) = filter not_pad e.
Proof.
  unfold urlSafe, removeAll, replaceAll, not_pad.
  induction 1 as [|c e Hc He IH]; [reflexivity|].
  cbn [map filter].
  destruct Hc as [(Hu & H45 & H95) | [-> | [-> | ->]]];
    try (cbn; cbn in IH; rewrite IH; reflexivity).
  assert (H43 : (c =? 43)%N = false).
  { destruct (c =? 43)%N eqn:E; [|reflexivity].
    apply N.eqb_eq in E; subst; discriminate Hu. }
  assert (H47 : (c =? 47)%N = false).
  { destruct (c =? 47)%N eqn:E; [|reflexivity].
    apply N.eqb_eq in E; subst; discriminate Hu. }
  assert (H61 : (c =? 61)%N = false).
  { destruct (c =? 61)%N eqn:E; [|reflexivity].
    apply N.eqb_eq in E; subst; discriminate Hu. }
  apply N.eqb_neq in H45, H95.
  rewrite H43, H47, H61. cbn [negb map]. rewrite H45, H95, IH. reflexivity.
Qed.

Lemma filter_not_pad_text (s : jsstring) :
  Forall b64_text (filter not_pad (b64_encode s)).
Proof. apply Forall_filter_keep, b64_encode_text. Qed.

(** [atob] accepts the text of [btoa] without its padding. *)
Lemma atob_unpadded (s : jsstring) :
  latin1 s -> atob (filter not_pad (b64_encode s)) = Some s.
Proof.
  intros Hs. unfold atob.
  rewrite filter_b64_text by apply filter_not_pad_text.
  rewrite drop_padding_unpadded.
  destruct (Nat.eqb _ 0); apply b64_decode_unpadded, Hs.
Qed.

(** *** The query *)

Lemma split_at_absent (sep : codeunit) (s : jsstring) :
  Forall (fun c => c <> sep) s -> split_at sep s = (s, None).
Proof.
  induction 1 as [|c s Hc Hs IH]; [reflexivity|].
  cbn [split_at]. apply N.eqb_neq in Hc. rewrite Hc, IH. reflexivity.
Qed.

Lemma split_at_first (sep : codeunit) (a b : jsstring) :
  Forall (fun c => c <> sep) a -> split_at sep (a ++ sep :: b) = (a, Some b).
Proof.
  induction 1 as [|c a Hc Ha IH]; cbn [app split_at].
  - rewrite N.eqb_refl. reflexivity.
  - apply N.eqb_neq in Hc. rewrite Hc, IH. reflexivity.
Qed.

Lemma unreserved_not (c : codeunit) :
  unreserved c = true ->
  c <> 37%N /\ c <> 38%N /\ c <> 43%N /\ c <> 61%N.
Proof.
  unfold unreserved. rewrite !orb_true_iff, !andb_true_iff, !N.leb_le, !N.eqb_eq.
  lia.
Qed.

Lemma unreserved_Forall (v : jsstring) (k : codeunit) :
  k = 37%N \/ k = 38%N \/ k = 43%N \/ k = 61%N ->
  forallb unreserved v = true -> Forall (fun c => c <> k) v.
Proof.
  intros Hk Hv. apply Forall_forall. intros c Hc.
  rewrite forallb_forall in Hv. specialize (Hv c Hc).
  apply unreserved_not in Hv. lia.
Qed.

Lemma replaceAll_absent (a b : codeunit) (s : jsstring) :
  Forall (fun c => c <> a) s -> replaceAll a b s = s.
Proof.
  unfold replaceAll. induction 1 as [|c s Hc Hs IH]; [reflexivity|].
  cbn [map]. apply N.eqb_neq in Hc. rewrite Hc, IH. reflexivity.
Qed.

(** A value of unreserved characters comes out of the query as it went
    in. *)
Lemma URLSearchParams_get_jsondata (v : jsstring) :
  forallb unreserved v = true ->
  URLSearchParams_get (js "?jsondata=" ++ v) (js "jsondata") = Found v.
Proof.
  intros Hv. unfold URLSearchParams_get.
  change (js "?jsondata=" ++ v) with (63%N :: js "jsondata=" ++ v).
  cbv beta iota zeta. change ((63 =? 63)%N) with true. cbv iota.
  set (query := js "jsondata=" ++ v).
  assert (Hq : query = js "jsondata" ++ 61%N :: v) by reflexivity.
  assert (Hlen : exists n, List.length query = S n) by (eexists; reflexivity).
  destruct Hlen as (n & ->). cbn [split_all].
  assert (H38 : Forall (fun c => c <> 38%N) query).
  { apply Forall_app. split; [repeat constructor; discriminate|].
    apply unreserved_Forall; auto. }
  rewrite (split_at_absent 38 query H38). cbn [lookup_pairs].
  assert (H37 : has_escape query = false).
  { unfold has_escape. apply not_true_is_false. intros H.
    apply existsb_exists in H as (c & Hc & Ec). apply N.eqb_eq in Ec. subst c.
    apply in_app_or in Hc as [Hc | Hc].
    - revert Hc. cbn. intuition discriminate.
    - pose proof (unreserved_Forall v 37 ltac:(auto) Hv) as H.
      rewrite Forall_forall in H. apply (H _ Hc). reflexivity. }
  rewrite H37, Hq.
  rewrite (split_at_first 61 (js "jsondata") v) by (repeat constructor; discriminate).
  cbn [truthy negb app js].
  change (str_eqb (replaceAll 43 32 (js "jsondata")) (js "jsondata")) with true.
  cbv iota.
  rewrite replaceAll_absent by (apply unreserved_Forall; auto).
  reflexivity.
Qed.

(** When [updateShareURL] writes a link for a form, its query is
    [?jsondata=] followed by the base64 text of the JSON text of the form
    data with [+] and [/] replaced by [-] and [_] and the padding removed,
    so that it holds unreserved characters only; and a page opened at that
    link undoes the replacement, decodes and parses the text, and fills
    its form with the form data the link was made from. *)
Theorem share_link_recovers_form_data
  (form current : FormData) (query : jsstring) :
  wf_form form ->
  shareQuery form = Some query ->
  (exists encoded,
      btoa (JSON_stringify (json_of_form (getFormData form))) = Some encoded /\
      query = js "?jsondata=" ++ urlSafe encoded /\
      forallb unreserved (urlSafe encoded) = true /\
      atob (replaceAll 95 47 (replaceAll 45 43 (urlSafe encoded)))
      = Some (JSON_stringify (json_of_form (getFormData form)))) /\
  parseURLParameters query current = Populated (getFormData form) /\
  getFormData (getFormData form) = getFormData form.
Proof.
  intros Hwf Hq. unfold shareQuery in Hq.
  destruct (hasData (getFormData form)); [|discriminate].
  set (text := JSON_stringify (json_of_form (getFormData form))) in *.
  destruct (btoa text) as [encoded|] eqn:Hb; [|discriminate].
  assert (Eq : query = js "?jsondata=" ++ urlSafe encoded) by congruence.
  subst query; clear Hq.
  assert (Hl : latin1 text).
  { unfold btoa in Hb. destruct (forallb _ text) eqn:E; [|discriminate].
    apply latin1_forallb, E. }
  assert (He : encoded = b64_encode text).
  { rewrite (btoa_latin1 _ Hl) in Hb. inversion Hb; reflexivity. }
  subst encoded.
  pose proof (urlSafe_unreserved _ (b64_encode_written text)) as Hu.
  pose proof (urlSafe_reversed _ (b64_encode_written text)) as Hr.
  pose proof (atob_unpadded text Hl) as Ha. rewrite <- Hr in Ha.
  split; [|split; [|apply getFormData_idempotent]].
  { exists (b64_encode text). repeat split; assumption. }
  unfold parseURLParameters.
  rewrite URLSearchParams_get_jsondata by exact Hu.
  destruct (urlSafe (b64_encode text)) as [|c r] eqn:Es.
  { exfalso.
    assert (Hne : text <> []).
    { destruct (stringify_head (json_of_form (getFormData form))) as (c0 & r0 & Ec & _).
      unfold text. rewrite Ec. discriminate. }
    apply Hne.
    assert (E0 : Some (@nil N) = Some text) by exact Ha.
    congruence. }
  cbn [truthy negb]. rewrite Ha. unfold text.
  rewrite JSON_parse_stringify by (apply wf_json_of_form, Hwf).
  unfold json_of_form at 1. unfold populateForm.
  change (populateField (js "title") (json_of_form (getFormData form)) (title current))
    with (Some (title (getFormData form))).
  change (populateField (js "url") (json_of_form (getFormData form)) (url current))
    with (Some (url (getFormData form))).
  change (populateField (js "description") (json_of_form (getFormData form))
            (description current))
    with (Some (description (getFormData form))).
  change (populateField (js "iconUrl") (json_of_form (getFormData form))
            (iconUrl current))
    with (Some (iconUrl (getFormData form))).
  change (populateField (js "themeColor") (json_of_form (getFormData form))
            (themeColor current))
    with (Some (themeColor (getFormData form))).
  reflexivity.
Qed.

(** ** The theorems at work *)

Lemma confirmTask_empty_draft_witness :
  Draft.task (currentTaskDraft
                (@run ordinal_collator
                   (addFlow noonHost (spoken "Fix bug") ++ [(laterHost, ShowAddView)])
                   (initialWorld emptyStorage))) = [] /\
  @confirmTask ordinal_collator laterHost
    (@run ordinal_collator
       (addFlow noonHost (spoken "Fix bug") ++ [(laterHost, ShowAddView)])
       (initialWorld emptyStorage))
  = @run ordinal_collator
      (addFlow noonHost (spoken "Fix bug") ++ [(laterHost, ShowAddView)])
      (initialWorld emptyStorage).
Proof.
  split; [reflexivity|].
  apply (@confirmTask_empty_draft ordinal_collator). reflexivity.
Defined.

Lemma whitespace_text_witness :
  whitespace_only (js "   ") /\
  Draft.task (currentTaskDraft
                (@run ordinal_collator blankDraftTrace (initialWorld emptyStorage)))
  = js "   " /\
  editTaskInput blankEdit = js "   " /\
  (exists t,
      tasks (appState
               (@confirmTask ordinal_collator laterBrowser
                  (@run ordinal_collator blankDraftTrace (initialWorld emptyStorage))))
      = tasks (appState (@run ordinal_collator blankDraftTrace (initialWorld emptyStorage)))
        ++ [t] /\
      task t = js "   ") /\
  @saveEdit ordinal_collator laterBrowser blankEdit
    (@run ordinal_collator blankDraftTrace (initialWorld emptyStorage))
  = @run ordinal_collator blankDraftTrace (initialWorld emptyStorage).
Proof.
  assert (Hws : whitespace_only (js "   ")).
  { split; [discriminate|]. repeat constructor. }
  pose proof (@whitespace_text_confirmed_but_not_saved_by_edit ordinal_collator
                laterBrowser
                (@run ordinal_collator blankDraftTrace (initialWorld emptyStorage))
                blankEdit (js "   ") Hws eq_refl eq_refl) as (Happ & _ & _ & Hedit).
  split; [exact Hws|]. split; [reflexivity|]. split; [reflexivity|].
  split; [exact Happ | exact Hedit].
Defined.

Lemma ids_distinct_witness :
  increasing_from 0 (confirmations twoTasksTrace) /\
  NoDup (ids (@run ordinal_collator twoTasksTrace (initialWorld emptyStorage))).
Proof.
  assert (Hinc : increasing_from 0 (confirmations twoTasksTrace)).
  { cbn. lia. }
  split; [exact Hinc|].
  apply (@ids_distinct_while_clock_increases ordinal_collator twoTasksTrace
           (initialWorld emptyStorage) 0);
    [constructor | constructor | exact Hinc].
Defined.

Lemma share_link_witness :
  wf_form sampleForm /\
  shareQuery sampleForm = Some sampleQuery /\
  parseURLParameters sampleQuery blankForm = Populated (getFormData sampleForm).
Proof.
  assert (Hwf : wf_form sampleForm).
  { unfold wf_form, sampleForm; cbn; closed_wf. }
  assert (Hq : shareQuery sampleForm = Some sampleQuery) by (vm_compute; reflexivity).
  split; [exact Hwf|]. split; [exact Hq|].
  apply (share_link_recovers_form_data sampleForm blankForm sampleQuery Hwf Hq).
Defined.

(** C9 fails at a form whose title holds a character above U+00FF.  The
    form has data and its fields are well-formed strings, yet [btoa] throws
    on the JSON text, [updateShareURL] catches the error and clears the
    share field: no link is generated, and nothing can be decoded.
    [generateQRCode], which hands the same JSON text on without [btoa],
    carries the form: the text parses back to the form data, and
    [populateForm] fills a blank form with it. *)
Theorem snowman_form_gets_no_share_link :
  wf_form snowmanForm /\
  hasData (getFormData snowmanForm) = true /\
  btoa (JSON_stringify (json_of_form (getFormData snowmanForm))) = None /\
  shareQuery snowmanForm = None /\
  updateShareURL (js "https://qr.example") (js "/") snowmanForm = [] /\
  generateQRCode snowmanForm
  = QRData (JSON_stringify (json_of_form (getFormData snowmanForm))) /\
  JSON_parse (JSON_stringify (json_of_form (getFormData snowmanForm)))
  = POk (json_of_form (getFormData snowmanForm)) [] /\
  populateForm (json_of_form (getFormData snowmanForm)) blankForm
  = Some (getFormData snowmanForm).
Proof.
  split; [unfold wf_form, snowmanForm; cbn; closed_wf|].
  repeat split; vm_compute; reflexivity.
Qed.

(** The whitespace task, confirmed on a browser, is in the snapshot the
    page finds when it is opened again. *)
Example whitespace_task_stored :
  match
    loadData laterBrowser
      (reopen (@confirmTask ordinal_collator laterBrowser
                 (@run ordinal_collator blankDraftTrace (initialWorld emptyStorage))))
  with
  | Fulfilled w => map task (tasks (appState w)) = [js "Fix bug"; js "   "]
  | _ => False
  end.
Proof. vm_compute. reflexivity. Qed.

(** Forms without data, or with a character above U+00FF, get no link. *)
Example no_link_without_data : updateShareURL (js "https://qr.example") (js "/") blankForm = [].
Proof. reflexivity. Qed.

Example no_link_beyond_latin1 :
  shareQuery {| title := js "Caf" ++ [233; 32; 9749]%N; url := []; description := [];
                iconUrl := []; themeColor := js "#FE5000" |} = None.
Proof. vm_compute. reflexivity. Qed.

(** A link that is not base64 leaves the form alone and raises the
    notification. *)
Example malformed_link_rejected :
  parseURLParameters (js "?jsondata=%%%garbage") blankForm = OutsideModel /\
  parseURLParameters (js "?jsondata=!!garbage!!") blankForm = InvalidParameters.
Proof. split; reflexivity. Qed.

(** * Further properties of the code *)

(** ** Snapshots without code units above 255 *)

Lemma latin1_json_JArr (l : list json) : latin1_json (JArr l) <-> Forall latin1_json l.
Proof.
  simpl. induction l as [|v l IH]; [split; auto|].
  rewrite IH. split; [intros [? ?]; constructor; auto | inversion 1; auto].
Qed.

Lemma latin1_json_JObj (l : list (list N * json)) :
  latin1_json (JObj l) <->
  Forall (fun kv => latin1 (fst kv) /\ latin1_json (snd kv)) l.
Proof.
  simpl. induction l as [|v l IH]; [split; auto|].
  rewrite IH. split; [intros (? & ? & ?); constructor; auto | inversion 1; tauto].
Qed.

Lemma latin1_app (a b : list N) : latin1 a -> latin1 b -> latin1 (a ++ b).
Proof. intros Ha Hb. apply Forall_app; split; assumption. Qed.

Lemma latin1_js (s : string) : latin1 (js s).
Proof.
  unfold latin1, js. apply Forall_forall. intros c Hc.
  apply in_map_iff in Hc as (a & <- & _).
  pose proof (N_ascii_bounded a). lia.
Qed.

Lemma hex_digit_latin1 (d : N) : (d < 16)%N -> (hex_digit d <= 255)%N.
Proof. intros Hd. unfold hex_digit. destruct (d <? 10)%N; lia. Qed.

Lemma latin1_unicode_escape (c : N) : (c <= 255)%N -> latin1 (unicode_escape c).
Proof.
  intros Hc. unfold unicode_escape, hex4.
  repeat constructor; try lia; apply hex_digit_latin1;
    try (apply N.mod_lt; discriminate).
  apply N.Div0.div_lt_upper_bound. lia.
Qed.

Lemma latin1_quote_unit (c : N) : (c <= 255)%N -> latin1 (quote_unit c).
Proof.
  intros Hc. unfold quote_unit.
  repeat match goal with
         | |- latin1 (if ?b then _ else _) => destruct b
         end;
    try (repeat constructor; lia).
  apply latin1_unicode_escape, Hc.
Qed.

Lemma latin1_quote_units (s : list N) : latin1 s -> latin1 (quote_units s).
Proof.
  induction 1 as [|c s Hc Hs IH]; [constructor|].
  cbn [quote_units].
  assert (Hh : is_high_surrogate c = false).
  { unfold is_high_surrogate. apply andb_false_iff. left. apply N.leb_gt. lia. }
  assert (Hl : is_low_surrogate c = false).
  { unfold is_low_surrogate. apply andb_false_iff. left. apply N.leb_gt. lia. }
  rewrite Hh, Hl. apply latin1_app; [apply latin1_quote_unit, Hc | exact IH].
Qed.

Lemma latin1_QuoteJSONString (s : list N) : latin1 s -> latin1 (QuoteJSONString s).
Proof.
  intros Hs. unfold QuoteJSONString. constructor; [lia|].
  apply latin1_app; [apply latin1_quote_units, Hs | repeat constructor; lia].
Qed.

Lemma latin1_Number_toString (n : Z) : latin1 (Number_toString n).
Proof.
  unfold Number_toString. apply latin1_app.
  - destruct (n <? 0)%Z; repeat constructor; lia.
  - eapply Forall_impl; [|apply uint_chars_digits].
    intros c Hc. unfold is_digit in Hc. apply andb_true_iff in Hc as [_ H2].
    apply N.leb_le in H2. lia.
Qed.

Lemma latin1_join_comma (l : list (list N)) :
  Forall latin1 l -> latin1 (join_comma l).
Proof.
  induction 1 as [|x l Hx Hl IH]; [constructor|].
  destruct l as [|y l]; [exact Hx|].
  change (join_comma (x :: y :: l)) with (x ++ 44%N :: join_comma (y :: l)).
  apply latin1_app; [exact Hx|]. constructor; [lia | exact IH].
Qed.

Lemma latin1_stringify (v : json) : latin1_json v -> latin1 (JSON_stringify v).
Proof.
  induction v as [|b|n|s|l IH|l IH] using json_induction; intros Hv.
  - apply latin1_js.
  - destruct b; apply latin1_js.
  - apply latin1_Number_toString.
  - apply latin1_QuoteJSONString, Hv.
  - apply latin1_json_JArr in Hv. cbn [JSON_stringify].
    constructor; [lia|]. apply latin1_app; [|repeat constructor; lia].
    apply latin1_join_comma. apply Forall_map.
    rewrite Forall_forall in *. intros v Hin. apply IH; auto.
  - apply latin1_json_JObj in Hv. rewrite stringify_JObj.
    constructor; [lia|]. apply latin1_app; [|repeat constructor; lia].
    apply latin1_join_comma. apply Forall_map.
    rewrite Forall_forall in *. intros kv Hin.
    destruct (Hv kv Hin) as [Hk Hval]. unfold stringify_member.
    apply latin1_app; [apply latin1_QuoteJSONString, Hk|].
    constructor; [lia | apply IH; auto].
Qed.

Lemma latin1_json_of_state (a : AppState) :
  latin1_state a -> latin1 (currentSortMode a) ->
  latin1 (JSON_stringify (json_of_state a)).
Proof.
  intros (Ht & Hp & Ho) Hm. apply latin1_stringify.
  assert (Hstrs : forall l, Forall latin1 l -> latin1_json (JArr (map JStr l))).
  { intros l Hl. apply latin1_json_JArr, Forall_map.
    eapply Forall_impl; [|exact Hl]. auto. }
  unfold json_of_state. apply latin1_json_JObj.
  repeat (apply Forall_cons; [split; [apply latin1_js | cbn [snd]; auto]|]);
    [|constructor].
  apply latin1_json_JArr, Forall_map.
  eapply Forall_impl; [|exact Ht].
  intros t (H1 & H2 & H3 & H4 & H5). unfold json_of_task. apply latin1_json_JObj.
  repeat (apply Forall_cons;
          [split; [apply latin1_js | cbn [snd latin1_json]; auto]|]).
  constructor.
Qed.

(** ** Saving and reopening *)

Section Reopening.
Context {collator : Collator}.

Lemma initialize_after_load (h : Host) (w : World) (a : AppState) :
  loadData h w = Fulfilled (with_appState a w) ->
  exists w', initialize h w = Fulfilled w' /\ appState w' = a /\
             listenersBound (dom w') = true /\ storage w' = storage w.
Proof.
  intros Hl. unfold initialize. rewrite Hl.
  eexists. split; [reflexivity|]. repeat split.
Qed.

(** X1.  On a host with [localStorage] only, whose storage works, every
    valid state that [saveData] stores is the state of the page opened
    again: the startup handler loads it, binds the listeners and renders. *)
Theorem localStorage_round_trip (h : Host) (w : World) :
  valid_state (appState w) -> browser_host h ->
  exists w' w'',
    saveData h w = Fulfilled w' /\
    initialize h (reopen w') = Fulfilled w'' /\
    appState w'' = appState w /\ listenersBound (dom w'') = true.
Proof.
  intros Hv [Hcs Hfail].
  destruct (reopen_after_save_localStorage h w Hv Hcs Hfail) as (w' & Hs & Hl).
  destruct (initialize_after_load h (reopen w') (appState w) Hl)
    as (w'' & Hi & Ha & Hb & _).
  exists w', w''. auto.
Qed.

(** X2.  On a host with [creationStorage], whose storage works, a valid
    state whose task texts and registry names hold no code unit above 255
    is the state of the page opened again. *)
Theorem creationStorage_round_trip (h : Host) (w : World) :
  valid_state (appState w) -> latin1_state (appState w) ->
  hasCreationStorage h = true -> storageFails h = false ->
  exists w' w'',
    saveData h w = Fulfilled w' /\
    initialize h (reopen w') = Fulfilled w'' /\
    appState w'' = appState w /\ listenersBound (dom w'') = true.
Proof.
  intros Hv Hl Hcs Hfail.
  assert (Hm : latin1 (currentSortMode (appState w))).
  { destruct Hv as (_ & _ & _ & [-> | ->]); apply latin1_js. }
  pose proof (latin1_json_of_state _ Hl Hm) as Htext.
  destruct (reopen_after_save_creationStorage h w Hv Htext Hcs Hfail)
    as (w' & Hs & Hload).
  destruct (initialize_after_load h (reopen w') (appState w) Hload)
    as (w'' & Hi & Ha & Hb & _).
  exists w', w''. auto.
Qed.

End Reopening.

Lemma In_quote_units (c : N) (s : list N) :
  beyond_latin1 c -> In c s -> In c (quote_units s).
Proof.
  intros (Hc & Hh & Hl).
  assert (Hq : quote_unit c = [c]).
  { unfold quote_unit.
    repeat match goal with
           | |- (if (c =? ?k)%N then _ else _) = _ =>
               replace (c =? k)%N with false by (symmetry; apply N.eqb_neq; lia)
           end.
    replace (c <? 32)%N with false by (symmetry; apply N.ltb_ge; lia).
    reflexivity. }
  remember (List.length s) as n eqn:En. revert s En.
  induction n as [n IH] using lt_wf_ind. intros s En Hin.
  destruct s as [|x r]; [destruct Hin|]. cbn [quote_units].
  destruct (is_high_surrogate x) eqn:Ex.
  - assert (Hx : c <> x) by (intros ->; congruence).
    destruct Hin as [E | Hin]; [congruence|].
    destruct r as [|d r']; [destruct Hin|].
    destruct (is_low_surrogate d) eqn:Ed.
    + assert (Hd : c <> d) by (intros ->; congruence).
      destruct Hin as [E | Hin]; [congruence|].
      right; right. apply (IH (List.length r')); simpl in *; auto; lia.
    + apply in_or_app. right.
      apply (IH (List.length (d :: r'))); simpl in *; auto; lia.
  - destruct (is_low_surrogate x) eqn:Ex'.
    + assert (Hx : c <> x) by (intros ->; congruence).
      destruct Hin as [E | Hin]; [congruence|].
      apply in_or_app. right. apply (IH (List.length r)); simpl in *; auto; lia.
    + apply in_or_app. destruct Hin as [E | Hin].
      * left. subst x. rewrite Hq. left; reflexivity.
      * right. apply (IH (List.length r)); simpl in *; auto; lia.
Qed.

Lemma In_join_comma (c : N) (x : list N) (l : list (list N)) :
  In x l -> In c x -> In c (join_comma l).
Proof.
  intros Hx Hc. induction l as [|y l IH]; [destruct Hx|].
  destruct l as [|z l].
  - destruct Hx as [-> | []]. exact Hc.
  - change (join_comma (y :: z :: l)) with (y ++ 44%N :: join_comma (z :: l)).
    apply in_or_app. destruct Hx as [-> | Hx]; [left; exact Hc|].
    right; right. apply IH, Hx.
Qed.

(** A task text with such a code unit puts it into the snapshot. *)
Lemma snapshot_beyond_latin1 (a : AppState) (t : Task) (c : N) :
  In t (tasks a) -> In c (task t) -> beyond_latin1 c ->
  ~ latin1 (JSON_stringify (json_of_state a)).
Proof.
  intros Ht Hc Hb Hl.
  assert (Hin : In c (JSON_stringify (json_of_state a))).
  { unfold json_of_state. rewrite stringify_JObj. right.
    apply in_or_app. left.
    eapply In_join_comma; [left; reflexivity|].
    unfold stringify_member. cbn [fst snd]. apply in_or_app. right. right.
    cbn [JSON_stringify]. right. apply in_or_app. left.
    eapply In_join_comma; [apply in_map, in_map, Ht|].
    unfold json_of_task. rewrite stringify_JObj. right.
    apply in_or_app. left.
    eapply In_join_comma; [right; left; reflexivity|].
    unfold stringify_member. cbn [fst snd]. apply in_or_app. right. right.
    cbn [JSON_stringify]. unfold QuoteJSONString. right.
    apply in_or_app. left. apply In_quote_units; assumption. }
  unfold latin1 in Hl. rewrite Forall_forall in Hl.
  specialize (Hl c Hin). destruct Hb as (Hb & _). lia.
Qed.

Section FailedSave.
Context {collator : Collator}.

(** X3.  On a host with [creationStorage], when a task text holds a code
    unit above 255 that is not a surrogate, or when the storage call
    fails, [saveData] ends normally and stores nothing: a handler that
    saves and renders leaves both storage items as they were, so the
    snapshot stored before stays the one a reopened page finds. *)
Theorem failed_save_keeps_old_snapshot (h : Host) (w : World) (t : Task) (c : N) :
  hasCreationStorage h = true ->
  storageFails h = true \/
  (In t (tasks (appState w)) /\ In c (task t) /\ beyond_latin1 c) ->
  saveData h w = Fulfilled w /\
  storage (saveAndRender h w) = storage w.
Proof.
  intros Hcs Hfail.
  assert (Hs : saveData h w = Fulfilled w).
  { unfold saveData. rewrite Hcs.
    destruct Hfail as [Hf | (Ht & Hc & Hb)].
    - rewrite Hf. destruct (btoa _); reflexivity.
    - rewrite btoa_rejects; [reflexivity|].
      apply (snapshot_beyond_latin1 _ t c); assumption. }
  split; [exact Hs|].
  rewrite storage_saveAndRender, Hs. reflexivity.
Qed.

(** ** The stored snapshot follows the state *)

Lemma in_sync_saveAndRender (h : Host) (w : World) :
  browser_host h -> in_sync (saveAndRender h w).
Proof.
  intros [Hcs Hfail]. unfold in_sync.
  rewrite tasks_saveAndRender, storage_saveAndRender.
  unfold saveData. rewrite Hcs, Hfail. reflexivity.
Qed.

Lemma in_sync_step (h : Host) (e : Event) (w : World) :
  browser_host h -> in_sync w -> in_sync (step h e w).
Proof.
  intros Hh Hw.
  assert (Hsr : forall w0, in_sync (showView (js "mainView") (saveAndRender h w0))).
  { intros w0. apply (in_sync_saveAndRender h w0 Hh). }
  destruct e as [| taskId | | | | data | | | form | confirmed | taskId |];
    cbn [step].
  - exact Hw.
  - unfold showEditView. cbn [appState with_editing].
    destruct (findTask _ _); exact Hw.
  - exact Hw.
  - exact Hw.
  - unfold handleSideClick.
    destruct (str_eqb _ _); [destruct (negb _)|]; exact Hw.
  - unfold onPluginMessage.
    destruct (isListening w); [destruct (truthy _)|]; exact Hw.
  - exact Hw.
  - unfold confirmTask.
    destruct (negb (truthy (Draft.task (currentTaskDraft w)))); [exact Hw|].
    apply Hsr.
  - unfold saveEdit.
    destruct (editing w) as [i|]; [|exact Hw].
    destruct (findTask i _); [|exact Hw].
    destruct (negb (truthy _)); [exact Hw|].
    destruct (chosen (editProjectSelect form) _ _) as [newProject projects'].
    destruct (chosen (editOrgSelect form) _ _) as [newOrg organizations'].
    apply Hsr.
  - unfold deleteTask.
    destruct (editing w) as [i|]; [|exact Hw].
    destruct confirmed; [|exact Hw]. apply Hsr.
  - unfold toggleTaskComplete.
    destruct (findTask taskId _); [|exact Hw].
    apply in_sync_saveAndRender, Hh.
  - unfold toggleSort. apply in_sync_saveAndRender, Hh.
Qed.

(** X4.  On a browser whose storage works the whole snapshot is stored
    after every change: when the stored text is that of the state in
    memory, it still is after any sequence of events. *)
Theorem snapshot_follows_state (trace : list (Host * Event)) (w : World) :
  Forall (fun he => browser_host (fst he)) trace ->
  in_sync w -> in_sync (run trace w).
Proof.
  revert w. induction trace as [|[h e] trace IH]; intros w Hh Hw; [exact Hw|].
  inversion Hh as [|? ? Hhe Hrest]; subst. cbn [run].
  apply IH; [exact Hrest|]. apply in_sync_step; assumption.
Qed.

End FailedSave.

(** ** What the handlers do to the state *)

Section StateOfHandlers.
Context {collator : Collator}.

Lemma confirmTask_empty_draft_state (h : Host) (w : World) :
  Draft.task (currentTaskDraft w) = [] -> confirmTask h w = w.
Proof. intros E. unfold confirmTask. rewrite E. reflexivity. Qed.

Lemma appState_confirmTask (h : Host) (w : World) :
  Draft.task (currentTaskDraft w) <> [] ->
  appState (confirmTask h w)
  = confirmedState h (currentTaskDraft w) (appState w).
Proof.
  intros Hd. unfold confirmTask.
  destruct (Draft.task (currentTaskDraft w)) as [|c r] eqn:E; [congruence|].
  cbn [truthy negb]. unfold showView. cbn [appState with_dom].
  rewrite tasks_saveAndRender. cbn [appState with_appState].
  unfold confirmedState, createdTask. rewrite E. reflexivity.
Qed.

Lemma appState_saveEdit (h : Host) (form : EditForm) (w : World) (i : Z) (t : Task) :
  editing w = Some i -> findTask i (tasks (appState w)) = Some t ->
  trim (editTaskInput form) <> [] ->
  appState (saveEdit h form w) = editedState i form (appState w).
Proof.
  intros He Hf Ht. unfold saveEdit. rewrite He, Hf.
  destruct (trim (editTaskInput form)) as [|c r] eqn:Etrim; [congruence|].
  cbn [truthy negb]. unfold editedState, editedTask. rewrite Etrim.
  destruct (chosen (editProjectSelect form) _ _) as [newProject projects'].
  destruct (chosen (editOrgSelect form) _ _) as [newOrg organizations'].
  unfold showView. cbn [appState with_dom].
  rewrite tasks_saveAndRender. reflexivity.
Qed.

Lemma appState_deleteTask (h : Host) (w : World) (i : Z) :
  editing w = Some i ->
  appState (deleteTask h true w) = deletedState i (appState w).
Proof.
  intros He. unfold deleteTask. rewrite He.
  unfold showView. cbn [appState with_dom].
  rewrite tasks_saveAndRender. reflexivity.
Qed.

Lemma appState_toggleTaskComplete (h : Host) (w : World) (i : Z) (t : Task) :
  findTask i (tasks (appState w)) = Some t ->
  appState (toggleTaskComplete h i w) = toggledState i (appState w).
Proof.
  intros Hf. unfold toggleTaskComplete. rewrite Hf.
  rewrite tasks_saveAndRender. reflexivity.
Qed.

Lemma appState_toggleSort (h : Host) (w : World) :
  appState (toggleSort h w) = sortToggledState (appState w).
Proof. unfold toggleSort. rewrite tasks_saveAndRender. reflexivity. Qed.

(** The state an event leaves is the state it found or one of the five
    changed states. *)
Lemma step_cases (P : AppState -> Prop) (h : Host) (e : Event) (w : World) :
  P (appState w) ->
  (e = ConfirmTask -> Draft.task (currentTaskDraft w) <> [] ->
   P (confirmedState h (currentTaskDraft w) (appState w))) ->
  (forall i form t,
      e = SaveEdit form -> editing w = Some i ->
      findTask i (tasks (appState w)) = Some t ->
      trim (editTaskInput form) <> [] ->
      P (editedState i form (appState w))) ->
  (forall i, e = DeleteTask true -> editing w = Some i ->
             P (deletedState i (appState w))) ->
  (forall i t, e = ToggleTaskComplete i ->
               findTask i (tasks (appState w)) = Some t ->
               P (toggledState i (appState w))) ->
  (e = ToggleSort -> P (sortToggledState (appState w))) ->
  P (appState (step h e w)).
Proof.
  intros Hw Hconfirm Hedit Hdelete Htoggle Hsort.
  destruct e as [| taskId | | | | data | | | form | confirmed | taskId |];
    cbn [step].
  - exact Hw.
  - unfold showEditView. cbn [appState with_editing].
    destruct (findTask _ _); exact Hw.
  - exact Hw.
  - exact Hw.
  - unfold handleSideClick.
    destruct (str_eqb _ _); [destruct (negb _)|]; exact Hw.
  - unfold onPluginMessage.
    destruct (isListening w); [destruct (truthy _)|]; exact Hw.
  - exact Hw.
  - destruct (Draft.task (currentTaskDraft w)) as [|c r] eqn:E.
    + rewrite confirmTask_empty_draft_state by exact E. exact Hw.
    + rewrite appState_confirmTask by congruence.
      apply Hconfirm; [reflexivity | congruence].
  - destruct (editing w) as [i|] eqn:He.
    + destruct (findTask i (tasks (appState w))) as [t|] eqn:Hf.
      * destruct (trim (editTaskInput form)) as [|c r] eqn:Et.
        -- rewrite saveEdit_rejects_blank by exact Et. exact Hw.
        -- rewrite (appState_saveEdit h form w i t He Hf) by congruence.
           apply (Hedit _ _ t); [reflexivity | reflexivity | exact Hf | congruence].
      * unfold saveEdit. rewrite He, Hf. exact Hw.
    + unfold saveEdit. rewrite He. exact Hw.
  - destruct confirmed.
    + destruct (editing w) as [i|] eqn:He.
      * rewrite (appState_deleteTask h w i He). apply Hdelete; reflexivity.
      * unfold deleteTask. rewrite He. exact Hw.
    + unfold deleteTask. destruct (editing w); exact Hw.
  - destruct (findTask taskId (tasks (appState w))) as [t|] eqn:Hf.
    + rewrite (appState_toggleTaskComplete h w taskId t Hf).
      apply (Htoggle _ t); [reflexivity | assumption].
    + unfold toggleTaskComplete. rewrite Hf. exact Hw.
  - rewrite appState_toggleSort. apply Hsort. reflexivity.
Qed.

(** A property of the state that the five changes keep is kept by every
    event. *)
Lemma step_keeps (P : AppState -> Prop) (h : Host) (e : Event) (w : World) :
  (forall a d, P a -> Draft.task d <> [] -> P (confirmedState h d a)) ->
  (forall a i form t,
      P a -> findTask i (tasks a) = Some t -> trim (editTaskInput form) <> [] ->
      P (editedState i form a)) ->
  (forall a i, P a -> P (deletedState i a)) ->
  (forall a i t, P a -> findTask i (tasks a) = Some t -> P (toggledState i a)) ->
  (forall a, P a -> P (sortToggledState a)) ->
  P (appState w) -> P (appState (step h e w)).
Proof.
  intros Hconfirm Hedit Hdelete Htoggle Hsort Hw.
  apply step_cases; eauto.
Qed.

Lemma run_keeps (P : AppState -> Prop) (trace : list (Host * Event)) (w : World) :
  (forall h a d, P a -> Draft.task d <> [] -> P (confirmedState h d a)) ->
  (forall a i form t,
      P a -> findTask i (tasks a) = Some t -> trim (editTaskInput form) <> [] ->
      P (editedState i form a)) ->
  (forall a i, P a -> P (deletedState i a)) ->
  (forall a i t, P a -> findTask i (tasks a) = Some t -> P (toggledState i a)) ->
  (forall a, P a -> P (sortToggledState a)) ->
  P (appState w) -> P (appState (run trace w)).
Proof.
  intros Hconfirm Hedit Hdelete Htoggle Hsort.
  revert w. induction trace as [|[h e] trace IH]; intros w Hw; [exact Hw|].
  cbn [run]. apply IH. apply step_keeps; auto.
Qed.

End StateOfHandlers.

(** ** Instances of the round trips *)

Lemma dueTodayState_valid : valid_state (appState dueTodayWorld).
Proof.
  unfold valid_state, dueTodayWorld. cbn [appState with_appState tasks projects
    organizations currentSortMode].
  split; [|split; [|split]].
  - constructor; [|constructor]. unfold valid_task; cbn; closed_wf.
  - constructor.
  - constructor.
  - left; reflexivity.
Qed.

Lemma dueTodayState_latin1 : latin1_state (appState dueTodayWorld).
Proof.
  unfold latin1_state, dueTodayWorld. cbn [appState with_appState tasks projects
    organizations].
  split; [|split]; [|constructor|constructor].
  constructor; [|constructor].
  unfold latin1_task; cbn [task project organization dueDate createdAt dueTodayTask].
  repeat split; apply latin1_forallb; vm_compute; reflexivity.
Qed.

Lemma localStorage_round_trip_witness :
  valid_state (appState apostropheWorld) /\ browser_host noonBrowser /\
  exists w' w'',
    saveData noonBrowser apostropheWorld = Fulfilled w' /\
    @initialize ordinal_collator noonBrowser (reopen w') = Fulfilled w'' /\
    appState w'' = appState apostropheWorld /\ listenersBound (dom w'') = true.
Proof.
  assert (Hh : browser_host noonBrowser) by (split; reflexivity).
  split; [exact apostropheState_valid|]. split; [exact Hh|].
  apply (@localStorage_round_trip ordinal_collator noonBrowser apostropheWorld
           apostropheState_valid Hh).
Defined.

Lemma creationStorage_round_trip_witness :
  valid_state (appState dueTodayWorld) /\ latin1_state (appState dueTodayWorld) /\
  exists w' w'',
    saveData noonHost dueTodayWorld = Fulfilled w' /\
    @initialize ordinal_collator noonHost (reopen w') = Fulfilled w'' /\
    appState w'' = appState dueTodayWorld /\ listenersBound (dom w'') = true.
Proof.
  split; [exact dueTodayState_valid|]. split; [exact dueTodayState_latin1|].
  apply (@creationStorage_round_trip ordinal_collator noonHost dueTodayWorld
           dueTodayState_valid dueTodayState_latin1 eq_refl eq_refl).
Defined.

Lemma failed_save_witness :
  beyond_latin1 8217 /\
  saveData noonHost apostropheWorld = Fulfilled apostropheWorld /\
  storage (@saveAndRender ordinal_collator noonHost apostropheWorld)
  = storage apostropheWorld.
Proof.
  assert (Hb : beyond_latin1 8217) by (repeat split).
  split; [exact Hb|].
  apply (@failed_save_keeps_old_snapshot ordinal_collator noonHost apostropheWorld
           apostropheTask 8217 eq_refl).
  right. split; [left; reflexivity|]. split; [|exact Hb].
  right; right; right; left; reflexivity.
Defined.

Lemma snapshot_follows_state_witness :
  in_sync (@run ordinal_collator oneTaskTrace (initialWorld emptyStorage)) /\
  in_sync (@run ordinal_collator toggleSortLater
             (@run ordinal_collator oneTaskTrace (initialWorld emptyStorage))).
Proof.
  assert (H0 : in_sync (@run ordinal_collator oneTaskTrace (initialWorld emptyStorage))).
  { vm_compute; reflexivity. }
  split; [exact H0|].
  apply (@snapshot_follows_state ordinal_collator toggleSortLater _); [|exact H0].
  constructor; [split; reflexivity | constructor].
Defined.

(** ** Invariants of the state *)

Lemma includes_In (l : list (list N)) (s : list N) :
  includes l s = true <-> In s l.
Proof.
  unfold includes. rewrite existsb_exists. split.
  - intros (x & Hx & E). apply str_eqb_eq in E. subst. exact Hx.
  - intros H. exists s. split; [exact H | apply str_eqb_refl].
Qed.

Lemma register_clean (name : list N) (registry : list (list N)) :
  clean_registry registry -> clean_registry (register name registry).
Proof.
  intros [Hnd Hne]. unfold register.
  destruct name as [|c r]; [split; assumption|]. cbn [truthy andb].
  destruct (includes registry (c :: r)) eqn:E; [split; assumption|].
  cbn [negb]. split.
  - apply NoDup_app; [exact Hnd | repeat constructor; auto | ].
    intros x Hx [<- | []].
    apply includes_In in Hx. congruence.
  - apply Forall_app. split; [exact Hne | repeat constructor; discriminate].
Qed.

Lemma register_extends (name : list N) (old registry : list (list N)) :
  extends old registry -> extends old (register name registry).
Proof.
  intros [more ->]. unfold register.
  destruct (truthy name && negb _).
  - exists (more ++ [name]). rewrite app_assoc. reflexivity.
  - exists more. reflexivity.
Qed.

Lemma chosen_clean (selected : list N) (answer : option (list N))
      (registry : list (list N)) :
  clean_registry registry -> clean_registry (snd (chosen selected answer registry)).
Proof.
  intros H. unfold chosen.
  destruct (str_eqb _ _); [destruct answer|]; cbn [snd];
    [apply register_clean| |]; exact H.
Qed.

Lemma chosen_extends (selected : list N) (answer : option (list N))
      (old registry : list (list N)) :
  extends old registry -> extends old (snd (chosen selected answer registry)).
Proof.
  intros H. unfold chosen.
  destruct (str_eqb _ _); [destruct answer|]; cbn [snd];
    [apply register_extends| |]; exact H.
Qed.

Lemma extends_refl (l : list (list N)) : extends l l.
Proof. exists []. symmetry. apply app_nil_r. Qed.

Lemma Forall_updateFound (P : Task -> Prop) (i : Z) (f : Task -> Task) (l : list Task) :
  (forall t, P t -> P (f t)) -> Forall P l -> Forall P (updateFound i f l).
Proof.
  intros Hf. induction 1 as [|t l Ht Hl IH]; [constructor|].
  cbn [updateFound]. destruct (id t =? i)%Z; constructor; auto.
Qed.

Section Invariants.
Context {collator : Collator}.

(** X5.  Whatever the user does, the two registries never hold an empty
    name or a name twice, and names are only ever added at their end: no
    handler removes or renames a project or an organization, not even when
    its last task is deleted. *)
Theorem registries_only_grow (trace : list (Host * Event)) (w : World) :
  clean_registry (projects (appState w)) ->
  clean_registry (organizations (appState w)) ->
  registries_kept (appState w) (appState (run trace w)).
Proof.
  intros Hp Ho.
  apply (run_keeps (registries_kept (appState w))).
  - intros h a d (H1 & H2 & H3 & H4) _. unfold registries_kept, confirmedState.
    cbn [projects organizations].
    split; [|split; [|split]]; auto using register_clean, register_extends.
  - intros a i form t (H1 & H2 & H3 & H4) _ _. unfold registries_kept, editedState.
    cbn [projects organizations].
    split; [|split; [|split]]; auto using chosen_clean, chosen_extends.
  - intros a i H. exact H.
  - intros a i t H _. exact H.
  - intros a H. exact H.
  - split; [|split; [|split]]; auto using extends_refl.
Qed.

(** X6.  Whatever the user does, no task without a text enters the list
    and the sort mode stays one of ['date'] and ['project']. *)
Theorem texts_and_mode_kept (trace : list (Host * Event)) (w : World) :
  texts_present (appState w) -> known_mode (appState w) ->
  texts_present (appState (run trace w)) /\ known_mode (appState (run trace w)).
Proof.
  intros Ht Hm.
  apply (run_keeps (fun a => texts_present a /\ known_mode a)).
  - intros h a d [H1 H2] Hd. split; [|exact H2].
    unfold texts_present, confirmedState. cbn [tasks].
    apply Forall_app. split; [exact H1|]. repeat constructor. exact Hd.
  - intros a i form t [H1 H2] _ Htrim. split; [|exact H2].
    unfold texts_present, editedState. cbn [tasks].
    apply Forall_updateFound; [|exact H1]. intros t0 _. exact Htrim.
  - intros a i [H1 H2]. split; [|exact H2].
    apply Forall_filter_keep, H1.
  - intros a i t [H1 H2] _. split; [|exact H2].
    unfold texts_present, toggledState. cbn [tasks].
    apply Forall_updateFound; [|exact H1]. intros t0 H0. exact H0.
  - intros a [H1 H2]. split; [exact H1|].
    unfold known_mode, sortToggledState. cbn [currentSortMode].
    destruct (str_eqb _ _); [right | left]; reflexivity.
  - split; assumption.
Qed.

End Invariants.

Lemma registries_only_grow_witness :
  clean_registry (projects apostropheState) /\
  clean_registry (organizations apostropheState) /\
  registries_kept apostropheState
    (appState (@run ordinal_collator sameReadingTrace apostropheWorld)).
Proof.
  assert (Hp : clean_registry (projects apostropheState)).
  { split; repeat constructor; [intros []|discriminate]. }
  assert (Ho : clean_registry (organizations apostropheState)).
  { split; constructor. }
  split; [exact Hp|]. split; [exact Ho|].
  apply (@registries_only_grow ordinal_collator sameReadingTrace apostropheWorld Hp Ho).
Defined.

Lemma texts_and_mode_kept_witness :
  texts_present (appState apostropheWorld) /\ known_mode (appState apostropheWorld) /\
  texts_present (appState (@run ordinal_collator sameReadingTrace apostropheWorld)) /\
  known_mode (appState (@run ordinal_collator sameReadingTrace apostropheWorld)).
Proof.
  assert (Ht : texts_present (appState apostropheWorld)).
  { repeat constructor. discriminate. }
  assert (Hm : known_mode (appState apostropheWorld)) by (left; reflexivity).
  split; [exact Ht|]. split; [exact Hm|].
  apply (@texts_and_mode_kept ordinal_collator sameReadingTrace apostropheWorld Ht Hm).
Defined.

(** ** Every state the page reaches can be stored and read back *)

Lemma wf_digit_of (n : Z) : (digit_of n < 65536)%N.
Proof.
  unfold digit_of. pose proof (Z.mod_pos_bound n 10 ltac:(lia)). lia.
Qed.

Lemma wf_pad2 (n : Z) : wf_string (pad2 n).
Proof. repeat constructor; apply wf_digit_of. Qed.

Lemma wf_pad3 (n : Z) : wf_string (pad3 n).
Proof. repeat constructor; apply wf_digit_of. Qed.

Lemma wf_pad4 (n : Z) : wf_string (pad4 n).
Proof. repeat constructor; apply wf_digit_of. Qed.

Lemma wf_pad6 (n : Z) : wf_string (pad6 n).
Proof. repeat constructor; apply wf_digit_of. Qed.

Lemma wf_app (a b : list N) : wf_string a -> wf_string b -> wf_string (a ++ b).
Proof. intros Ha Hb. apply Forall_app. split; assumption. Qed.

Lemma wf_cons (c : N) (s : list N) : (c < 65536)%N -> wf_string s -> wf_string (c :: s).
Proof. intros Hc Hs. constructor; assumption. Qed.

Lemma wf_toISOString (t : Z) : wf_string (toISOString t).
Proof.
  unfold toISOString.
  destruct (civil_from_days (t / msPerDay)) as [[y m] d].
  repeat first [ apply wf_digit_of | apply wf_app | apply wf_cons
               | apply wf_pad2 | apply wf_pad3 | apply wf_pad4 | apply wf_pad6
               | constructor | reflexivity ].
  destruct (_ && _)%bool; [apply wf_pad4|].
  apply wf_cons; [destruct (y <? 0)%Z; reflexivity | apply wf_pad6].
Qed.

Lemma Forall_split_at_fst (P : N -> Prop) (sep : N) (s : list N) :
  Forall P s -> Forall P (fst (split_at sep s)).
Proof.
  induction 1 as [|c s Hc Hs IH]; [constructor|].
  cbn [split_at]. destruct (c =? sep)%N; [constructor|].
  destruct (split_at sep s) as [a b]. cbn [fst] in *. constructor; assumption.
Qed.

Lemma digit_of_latin1 (n : Z) : (digit_of n <= 255)%N.
Proof.
  unfold digit_of. pose proof (Z.mod_pos_bound n 10 ltac:(lia)). lia.
Qed.

Lemma latin1_toISOString (t : Z) : latin1 (toISOString t).
Proof.
  unfold toISOString.
  destruct (civil_from_days (t / msPerDay)) as [[y m] d].
  unfold latin1, pad6, pad4, pad3, pad2.
  destruct (_ && _)%bool; [|destruct (y <? 0)%Z];
    cbn [app];
    repeat (apply Forall_cons; [first [apply digit_of_latin1 | lia]|]);
    constructor.
Qed.

Lemma wf_register (name : list N) (registry : list (list N)) :
  wf_string name -> Forall wf_string registry ->
  Forall wf_string (register name registry).
Proof.
  intros Hn Hr. unfold register. destruct (_ && _)%bool; [|exact Hr].
  apply Forall_app. split; [exact Hr | repeat constructor; exact Hn].
Qed.

Lemma wf_chosen (selected : list N) (answer : option (list N))
      (registry : list (list N)) :
  wf_string selected -> wf_answer answer -> Forall wf_string registry ->
  wf_string (fst (chosen selected answer registry)) /\
  Forall wf_string (snd (chosen selected answer registry)).
Proof.
  intros Hs Ha Hr. unfold chosen.
  destruct (str_eqb _ _); [destruct answer as [name|]|]; cbn [fst snd].
  - split; [exact Ha | apply wf_register; assumption].
  - split; [constructor | exact Hr].
  - split; assumption.
Qed.

Section Survival.
Context {collator : Collator}.

Lemma draft_saveAndRender (h : Host) (w : World) :
  currentTaskDraft (saveAndRender h w) = currentTaskDraft w.
Proof.
  unfold saveAndRender, rerender, saveData.
  destruct (hasCreationStorage h).
  - destruct (btoa _); [destruct (storageFails h)|]; reflexivity.
  - destruct (storageFails h); reflexivity.
Qed.

Lemma draft_in_processVoiceResponse (P : N -> Prop) (data : Draft.t) (w : World) :
  draft_in P data -> draft_in P (currentTaskDraft w) ->
  draft_in P (currentTaskDraft (processVoiceResponse data w)).
Proof.
  intros (D1 & D2 & D3 & D4) (W1 & W2 & W3 & W4).
  unfold processVoiceResponse, draft_in.
  cbn [currentTaskDraft with_dom with_draft with_listening
       Draft.task Draft.project Draft.organization Draft.dueDate].
  repeat split;
    match goal with |- Forall P (if ?b then _ else _) => destruct b end;
    assumption.
Qed.

(** The draft stays within an alphabet that has the code units up to
    255, when the transcriptions do. *)
Lemma draft_in_step (P : N -> Prop) (h : Host) (e : Event) (w : World) :
  (forall c, (c <= 255)%N -> P c) ->
  match e with
  | PluginMessage data => draft_in P data
  | _ => True
  end ->
  draft_in P (currentTaskDraft w) ->
  draft_in P (currentTaskDraft (step h e w)).
Proof.
  intros HP He Hw.
  assert (Hempty : draft_in P Draft.empty) by (repeat split; constructor).
  assert (Hl : forall s, latin1 s -> Forall P s).
  { intros s Hs. eapply Forall_impl; [|exact Hs]. exact HP. }
  destruct e as [| taskId | | | | data | | | form | confirmed | taskId |];
    cbn [step].
  - exact Hempty.
  - unfold showEditView. cbn [appState with_editing].
    destruct (findTask _ _); exact Hw.
  - exact Hempty.
  - exact Hw.
  - unfold handleSideClick.
    destruct (str_eqb _ _); [destruct (negb _)|]; exact Hw.
  - unfold onPluginMessage.
    destruct (isListening w); [destruct (truthy _)|]; try exact Hw.
    apply draft_in_processVoiceResponse; assumption.
  - unfold simulateVoiceInput.
    apply draft_in_processVoiceResponse; [|exact Hw].
    unfold draft_in.
    cbn [Draft.task Draft.project Draft.organization Draft.dueDate].
    repeat split; try (apply Hl, latin1_js).
    apply Hl, Forall_split_at_fst, latin1_toISOString.
  - unfold confirmTask. destruct (negb _); [exact Hw|].
    unfold showView. cbn [currentTaskDraft with_dom].
    rewrite draft_saveAndRender. exact Hw.
  - unfold saveEdit. destruct (editing w); [|exact Hw].
    destruct (findTask _ _); [|exact Hw].
    destruct (negb _); [exact Hw|].
    destruct (chosen (editProjectSelect form) _ _).
    destruct (chosen (editOrgSelect form) _ _).
    unfold showView. cbn [currentTaskDraft with_dom].
    rewrite draft_saveAndRender. exact Hw.
  - unfold deleteTask. destruct (editing w); [|exact Hw].
    destruct confirmed; [|exact Hw].
    unfold showView. cbn [currentTaskDraft with_dom].
    rewrite draft_saveAndRender. exact Hw.
  - unfold toggleTaskComplete. destruct (findTask _ _); [|exact Hw].
    rewrite draft_saveAndRender. exact Hw.
  - unfold toggleSort. rewrite draft_saveAndRender. exact Hw.
Qed.

Lemma wf_draft_step (h : Host) (e : Event) (w : World) :
  wf_input h e -> wf_draft (currentTaskDraft w) ->
  wf_draft (currentTaskDraft (step h e w)).
Proof.
  intros [_ He] Hw.
  apply (draft_in_step (fun c => (c < 65536)%N)); [lia | | exact Hw].
  destruct e; try exact I. exact He.
Qed.

Lemma latin1_draft_step (h : Host) (e : Event) (w : World) :
  latin1_input h e -> latin1_draft (currentTaskDraft w) ->
  latin1_draft (currentTaskDraft (step h e w)).
Proof.
  intros [_ He] Hw.
  apply (draft_in_step (fun c => (c <= 255)%N)); [auto | | exact Hw].
  destruct e; try exact I. exact He.
Qed.

Lemma valid_step (h : Host) (e : Event) (w : World) :
  wf_input h e -> wf_draft (currentTaskDraft w) ->
  valid_state (appState w) -> valid_state (appState (step h e w)).
Proof.
  intros [Hnow He] (D1 & D2 & D3 & D4) Hv.
  pose proof Hv as (Ht & Hp & Ho & Hm).
  apply step_cases; [exact Hv | | | | |].
  - intros _ Hd. unfold valid_state, confirmedState.
    cbn [tasks projects organizations currentSortMode].
    split; [|split; [|split]];
      [| apply wf_register; assumption | apply wf_register; assumption | exact Hm].
    apply Forall_app. split; [exact Ht|]. constructor; [|constructor].
    unfold valid_task, createdTask.
    cbn [id task project organization dueDate createdAt].
    repeat split; try assumption. apply wf_toISOString.
  - intros i form t -> _ _ Htrim.
    destruct He as (E1 & E2 & E3 & E4 & E5 & E6).
    destruct (wf_chosen (editProjectSelect form) (promptProject form) (projects (appState w))
                E2 E5 Hp) as [P1 P2].
    destruct (wf_chosen (editOrgSelect form) (promptOrg form) (organizations (appState w))
                E3 E6 Ho) as [O1 O2].
    unfold valid_state, editedState.
    cbn [tasks projects organizations currentSortMode].
    split; [|split; [|split]]; [| exact P2 | exact O2 | exact Hm].
    apply Forall_updateFound; [|exact Ht].
    intros t0 (V1 & V2 & V3 & V4 & V5 & V6 & V7).
    unfold valid_task, editedTask.
    cbn [id task project organization dueDate createdAt].
    repeat split; try assumption. apply wf_trim, E1.
  - intros i _ _. unfold valid_state, deletedState.
    cbn [tasks projects organizations currentSortMode].
    split; [|split; [|split]]; try assumption.
    apply Forall_filter_keep, Ht.
  - intros i t _ _. unfold valid_state, toggledState.
    cbn [tasks projects organizations currentSortMode].
    split; [|split; [|split]]; try assumption.
    apply Forall_updateFound; [|exact Ht].
    intros t0 Ht0. exact Ht0.
  - intros _. unfold valid_state, sortToggledState.
    cbn [tasks projects organizations currentSortMode].
    split; [|split; [|split]]; try assumption.
    destruct (str_eqb _ _); [right | left]; reflexivity.
Qed.

Lemma reopen_in_sync (h : Host) (w : World) :
  browser_host h -> valid_state (appState w) -> in_sync w ->
  exists w'',
    initialize h (reopen w) = Fulfilled w'' /\
    appState w'' = appState w /\ listenersBound (dom w'') = true.
Proof.
  intros [Hcs Hfail] Hv Hs.
  destruct (reopen_after_save_localStorage h w Hv Hcs Hfail) as (w' & Hsave & Hl).
  assert (E : reopen w' = reopen w).
  { unfold saveData in Hsave. rewrite Hcs, Hfail in Hsave.
    inversion Hsave; subst w'. unfold reopen. f_equal.
    cbn [storage with_storage]. unfold in_sync in Hs.
    destruct (storage w) as [cs ls]. cbn [localStorage_item creationStorage_item] in *.
    rewrite Hs. reflexivity. }
  rewrite E in Hl.
  destruct (initialize_after_load h (reopen w) (appState w) Hl)
    as (w'' & Hi & Ha & Hb & _).
  exists w''. auto.
Qed.

(** An event either saves and renders, or leaves the state and the
    storage as they are. *)
Lemma step_saves_or_keeps (h : Host) (e : Event) (w : World) :
  (exists w0, step h e w = saveAndRender h w0 \/
              step h e w = showView (js "mainView") (saveAndRender h w0)) \/
  (storage (step h e w) = storage w /\ appState (step h e w) = appState w).
Proof.
  destruct e as [| taskId | | | | data | | | form | confirmed | taskId |];
    cbn [step].
  - right; split; reflexivity.
  - right. unfold showEditView. destruct (findTask _ _); split; reflexivity.
  - right; split; reflexivity.
  - right; split; reflexivity.
  - right. unfold handleSideClick.
    destruct (str_eqb _ _); [destruct (negb _)|]; split; reflexivity.
  - right. unfold onPluginMessage.
    destruct (isListening w); [destruct (truthy _)|]; split; reflexivity.
  - right; split; reflexivity.
  - unfold confirmTask.
    destruct (negb (truthy (Draft.task (currentTaskDraft w))));
      [right; split; reflexivity|].
    left. eexists. right. reflexivity.
  - unfold saveEdit.
    destruct (editing w) as [i|]; [|right; split; reflexivity].
    destruct (findTask i _); [|right; split; reflexivity].
    destruct (negb (truthy _)); [right; split; reflexivity|].
    destruct (chosen (editProjectSelect form) _ _) as [newProject projects'].
    destruct (chosen (editOrgSelect form) _ _) as [newOrg organizations'].
    left. eexists. right. reflexivity.
  - unfold deleteTask.
    destruct (editing w) as [i|]; [|right; split; reflexivity].
    destruct confirmed; [|right; split; reflexivity].
    left. eexists. right. reflexivity.
  - unfold toggleTaskComplete.
    destruct (findTask taskId _); [|right; split; reflexivity].
    left. eexists. left. reflexivity.
  - unfold toggleSort. left. eexists. left. reflexivity.
Qed.

(** What [loadData] hands on is the world it found, with the state it
    read or the one that was there. *)
Lemma loadData_shape (h : Host) (w w' : World) :
  loadData h w = Fulfilled w' -> exists a, w' = with_appState a w.
Proof.
  assert (Hself : forall w1, w1 = w -> exists a, w1 = with_appState a w).
  { intros w1 ->. exists (appState w). destruct w; reflexivity. }
  assert (Ha : forall data,
             assign data w = Fulfilled w' -> exists a, w' = with_appState a w).
  { intros data. unfold assign.
    destruct (or_else tasks_of_json _ _); [|discriminate].
    destruct (or_else strings_of_json _ _); [|discriminate].
    destruct (or_else strings_of_json _ _); [|discriminate].
    destruct (or_else string_of_json _ _); [|discriminate].
    intros H. eexists. inversion H. reflexivity. }
  assert (Hw : Fulfilled w = Fulfilled w' -> exists a, w' = with_appState a w).
  { intros H. apply Hself. congruence. }
  unfold loadData. destruct (hasCreationStorage h).
  - destruct (storageFails h); [exact Hw|].
    destruct (creationStorage_item (storage w)) as [stored|]; [|exact Hw].
    destruct (truthy stored); [|exact Hw].
    destruct (atob stored) as [text|]; [|exact Hw].
    destruct (JSON_parse text) as [data rest| |]; [|exact Hw|discriminate].
    destruct (json_truthy data); [apply Ha | exact Hw].
  - destruct (storageFails h); [discriminate|].
    destruct (localStorage_item (storage w)) as [stored|]; [|exact Hw].
    destruct (truthy stored); [|exact Hw].
    destruct (JSON_parse stored) as [data rest| |]; [|discriminate|discriminate].
    destruct (json_truthy data); [apply Ha | exact Hw].
Qed.

(** Start-up reads the same state on every host with the same storage
    interface, and leaves storage and draft as they were. *)
Lemma initialize_hosts_alike (h0 h : Host) (w w0 : World) :
  hasCreationStorage h = hasCreationStorage h0 ->
  storageFails h = storageFails h0 ->
  initialize h0 w = Fulfilled w0 ->
  storage w0 = storage w /\ currentTaskDraft w0 = currentTaskDraft w /\
  exists w'',
    initialize h w = Fulfilled w'' /\
    appState w'' = appState w0 /\ listenersBound (dom w'') = true.
Proof.
  intros Hcs Hfail Hi.
  assert (E : loadData h w = loadData h0 w).
  { unfold loadData. rewrite Hcs, Hfail. reflexivity. }
  unfold initialize in *. rewrite E.
  destruct (loadData h0 w) as [w1| |] eqn:Hl; try discriminate.
  destruct (loadData_shape _ _ _ Hl) as [a ->].
  assert (Ew : rerender h0 (with_dom (setListenersBound (dom (with_appState a w)))
                              (with_appState a w)) = w0) by congruence.
  subst w0. split; [reflexivity|]. split; [reflexivity|].
  eexists. split; [reflexivity|]. split; reflexivity.
Qed.

(** A world whose stored item a fresh page reads as the state in memory,
    stays one. *)
Lemma reopen_step (h1 : Host) (e : Event) (w : World) :
  browser_host h1 -> valid_state (appState (step h1 e w)) ->
  (forall h, browser_host h ->
     exists w'',
       initialize h (reopen w) = Fulfilled w'' /\
       appState w'' = appState w /\ listenersBound (dom w'') = true) ->
  forall h, browser_host h ->
    exists w'',
      initialize h (reopen (step h1 e w)) = Fulfilled w'' /\
      appState w'' = appState (step h1 e w) /\ listenersBound (dom w'') = true.
Proof.
  intros Hh1 Hv Hw h Hh.
  destruct (step_saves_or_keeps h1 e w) as [(w0 & Hs) | (Hs & Ha)].
  - apply reopen_in_sync; [exact Hh | exact Hv|].
    destruct Hs as [-> | ->]; apply (in_sync_saveAndRender h1 w0 Hh1).
  - unfold reopen. rewrite Hs, Ha. apply Hw, Hh.
Qed.

(** X7.  On browsers whose storage works, from the page as start-up
    leaves it over whatever is stored, when the state it read is valid,
    with inputs that are strings of code units and a clock within the
    exact integers: whatever the user does, the state stays valid, and a
    page opened again at any moment starts with exactly the state the
    first page had then.  The first run, with nothing stored, is such a
    start. *)
Theorem state_survives_any_run
  (h0 h : Host) (s : Storage) (trace : list (Host * Event)) (w : World) :
  browser_host h0 -> initialize h0 (initialWorld s) = Fulfilled w ->
  valid_state (appState w) ->
  browser_trace trace -> browser_host h ->
  valid_state (appState (run trace w)) /\
  exists w'',
    initialize h (reopen (run trace w)) = Fulfilled w'' /\
    appState w'' = appState (run trace w) /\ listenersBound (dom w'') = true.
Proof.
  intros Hh0 Hstart Hv Htrace Hh.
  assert (Hd : wf_draft (currentTaskDraft w)).
  { destruct (initialize_hosts_alike h0 h0 _ _ eq_refl eq_refl Hstart) as (_ & -> & _).
    repeat split; constructor. }
  assert (Hw : forall h, browser_host h ->
             exists w'',
               initialize h (reopen w) = Fulfilled w'' /\
               appState w'' = appState w /\ listenersBound (dom w'') = true).
  { intros h' [Hcs' Hfail']. destruct Hh0 as [Hcs0 Hfail0].
    destruct (initialize_hosts_alike h0 h' _ _ (eq_trans Hcs' (eq_sym Hcs0))
                (eq_trans Hfail' (eq_sym Hfail0)) Hstart) as (Es & _ & Hr).
    unfold reopen. rewrite Es. exact Hr. }
  clear Hstart Hh0. revert w Hv Hd Hw.
  induction trace as [|[h1 e] trace IH]; intros w Hv Hd Hw.
  - split; [exact Hv | apply Hw, Hh].
  - inversion Htrace as [|x l [Hb Hin] Hrest]; subst. cbn [fst snd] in *.
    assert (Hv' : valid_state (appState (step h1 e w)))
      by (apply valid_step; assumption).
    cbn [run]. apply IH; [exact Hrest | exact Hv' | |].
    + apply wf_draft_step; assumption.
    + apply reopen_step; assumption.
Qed.

End Survival.

Lemma state_survives_any_run_witness :
  exists w0,
    browser_host noonBrowser /\
    @initialize ordinal_collator noonBrowser (initialWorld emptyStorage) = Fulfilled w0 /\
    valid_state (appState w0) /\
    browser_trace (oneTaskTrace ++ editLater) /\ browser_host laterBrowser /\
    valid_state (appState (@run ordinal_collator (oneTaskTrace ++ editLater) w0)) /\
    exists w'',
      @initialize ordinal_collator laterBrowser
        (reopen (@run ordinal_collator (oneTaskTrace ++ editLater) w0))
      = Fulfilled w'' /\
      appState w'' = appState (@run ordinal_collator (oneTaskTrace ++ editLater) w0) /\
      map task (tasks (appState w'')) = [js "Fix the bug"] /\
      listenersBound (dom w'') = true.
Proof.
  assert (Hh0 : browser_host noonBrowser) by (split; reflexivity).
  assert (Hh : browser_host laterBrowser) by (split; reflexivity).
  assert (Hnow0 : (Z.abs (now noonBrowser) <= MAX_SAFE)%Z) by (vm_compute; discriminate).
  assert (Hnow : (Z.abs (now laterBrowser) <= MAX_SAFE)%Z) by (vm_compute; discriminate).
  assert (Ht : browser_trace (oneTaskTrace ++ editLater)).
  { unfold browser_trace, oneTaskTrace, addFlow, editLater. cbn [app].
    repeat (apply Forall_cons;
            [split; [first [exact Hh0 | exact Hh]|];
             split; [first [exact Hnow0 | exact Hnow]|]|]);
      [exact I | exact I | | exact I | exact I | | exact I | exact I | constructor].
    - unfold wf_draft, spoken. cbn [Draft.task Draft.project Draft.organization
                                     Draft.dueDate].
      repeat split; first [apply wf_js | constructor].
    - unfold wf_edit, renameEdit, wf_answer.
      cbn [editTaskInput editProjectSelect editOrgSelect editDueInput
           promptProject promptOrg].
      repeat split; first [apply wf_js | constructor]. }
  eexists. split; [exact Hh0|]. split; [reflexivity|].
  assert (Hv : valid_state (appState
                 (rerender noonBrowser
                    (with_dom (setListenersBound (dom (initialWorld emptyStorage)))
                       (initialWorld emptyStorage))))).
  { repeat split; try constructor. reflexivity. }
  split; [exact Hv|]. split; [exact Ht|]. split; [exact Hh|].
  destruct (@state_survives_any_run ordinal_collator noonBrowser laterBrowser
              emptyStorage (oneTaskTrace ++ editLater) _ Hh0 eq_refl Hv Ht Hh)
    as (Hv' & w'' & Hi & Ha & Hb).
  split; [exact Hv'|]. exists w''. split; [exact Hi|]. split; [exact Ha|].
  split; [|exact Hb]. rewrite Ha. vm_compute. reflexivity.
Defined.

(** ** Single handlers *)


Lemma updateFound_twice (i : Z) (f g : Task -> Task) (l : list Task) :
  (forall t, id (f t) = id t) ->
  updateFound i g (updateFound i f l) = updateFound i (fun t => g (f t)) l.
Proof.
  intros Hf. induction l as [|t l IH]; [reflexivity|].
  cbn [updateFound]. destruct (id t =? i)%Z eqn:E; cbn [updateFound].
  - rewrite Hf, E. reflexivity.
  - rewrite E, IH. reflexivity.
Qed.

Lemma updateFound_same (i : Z) (f : Task -> Task) (l : list Task) :
  (forall t, f t = t) -> updateFound i f l = l.
Proof.
  intros Hf. induction l as [|t l IH]; [reflexivity|].
  cbn [updateFound]. destruct (id t =? i)%Z; congruence.
Qed.

Lemma toggledTask_twice (t : Task) : toggledTask (toggledTask t) = t.
Proof. destruct t as [i x p o d c a]. unfold toggledTask. cbn. rewrite negb_involutive. reflexivity. Qed.

Lemma findTask_filter_out (i : Z) (l : list Task) :
  findTask i (filter (fun t => negb (id t =? i)%Z) l) = None.
Proof.
  unfold findTask. induction l as [|t l IH]; [reflexivity|].
  cbn [filter]. destruct (id t =? i)%Z eqn:E; cbn [negb]; [exact IH|].
  cbn [find]. rewrite E. exact IH.
Qed.

Section SingleHandlers.
Context {collator : Collator}.

Lemma dom_saveAndRender (h : Host) (w : World) :
  dom (saveAndRender h w)
  = setTaskList (renderTasks h (tasks (appState w)) (currentSortMode (appState w)))
      (dom w).
Proof.
  unfold saveAndRender, rerender, saveData.
  destruct (hasCreationStorage h).
  - destruct (btoa _); [destruct (storageFails h)|]; reflexivity.
  - destruct (storageFails h); reflexivity.
Qed.

Lemma editing_saveAndRender (h : Host) (w : World) :
  editingTaskId (saveAndRender h w) = editingTaskId w.
Proof.
  unfold saveAndRender, rerender, saveData.
  destruct (hasCreationStorage h).
  - destruct (btoa _); [destruct (storageFails h)|]; reflexivity.
  - destruct (storageFails h); reflexivity.
Qed.


(** X8.  A confirmed delete removes every task that has the id of the
    edited one and no other, and goes back to the main view.  The id of
    the deleted task stays in [editingTaskId]: a later [saveEdit] finds no
    task and changes nothing.  A delete that is not confirmed changes
    nothing. *)
Theorem deleteTask_removes_the_id (h h' : Host) (form : EditForm) (w : World) (i : Z) :
  editing w = Some i ->
  let w' := deleteTask h true w in
  (forall t, In t (tasks (appState w')) <->
             In t (tasks (appState w)) /\ id t <> i) /\
  activeView (dom w') = js "mainView" /\
  editingTaskId w' = editingTaskId w /\
  saveEdit h' form w' = w' /\
  deleteTask h false w = w.
Proof.
  intros He w'.
  assert (Ha : appState w' = deletedState i (appState w)).
  { apply appState_deleteTask, He. }
  assert (Hed : editingTaskId w' = editingTaskId w).
  { unfold w', deleteTask. rewrite He. unfold showView.
    cbn [editingTaskId with_dom]. rewrite editing_saveAndRender. reflexivity. }
  split; [|split; [|split; [|split]]].
  - intros t. rewrite Ha. unfold deletedState. cbn [tasks].
    rewrite filter_In, negb_true_iff, Z.eqb_neq. reflexivity.
  - unfold w', deleteTask. rewrite He. reflexivity.
  - exact Hed.
  - unfold saveEdit.
    assert (He' : editing w' = Some i).
    { unfold editing in *. rewrite Hed. exact He. }
    rewrite He', Ha. unfold deletedState. cbn [tasks].
    rewrite findTask_filter_out. reflexivity.
  - unfold deleteTask. rewrite He. reflexivity.
Qed.

(** X9.  [toggleTaskComplete] flips the completion flag of the first task
    with the id and of no other task; toggling the same id twice gives
    back the state, and an id that no task has changes nothing at all. *)
Theorem toggleTaskComplete_twice (h h' : Host) (i : Z) (w : World) :
  appState (toggleTaskComplete h' i (toggleTaskComplete h i w)) = appState w /\
  (forall t, findTask i (tasks (appState w)) = Some t ->
             findTask i (tasks (appState (toggleTaskComplete h i w)))
             = Some (toggledTask t)) /\
  (findTask i (tasks (appState w)) = None -> toggleTaskComplete h i w = w).
Proof.
  assert (Hid : forall t, id (toggledTask t) = id t) by reflexivity.
  split; [|split].
  - destruct (findTask i (tasks (appState w))) as [t|] eqn:Hf.
    + pose proof (appState_toggleTaskComplete h w i t Hf) as E1.
      assert (Hf' : findTask i (tasks (appState (toggleTaskComplete h i w)))
                    = Some (toggledTask t)).
      { rewrite E1. unfold toggledState. cbn [tasks].
        apply findTask_updateFound; assumption. }
      rewrite (appState_toggleTaskComplete h' _ i _ Hf'), E1.
      unfold toggledState. cbn [tasks projects organizations currentSortMode].
      rewrite updateFound_twice by exact Hid.
      rewrite updateFound_same by apply toggledTask_twice.
      destruct (appState w); reflexivity.
    + unfold toggleTaskComplete. rewrite Hf. cbv zeta. rewrite Hf. reflexivity.
  - intros t Hf. rewrite (appState_toggleTaskComplete h w i t Hf).
    unfold toggledState. cbn [tasks]. apply findTask_updateFound; assumption.
  - intros Hf. unfold toggleTaskComplete. rewrite Hf. reflexivity.
Qed.

(** X10.  [toggleSort] twice gives back the state exactly when the sort
    mode is one of ['date'] and ['project']; from any other mode (one read
    from a stored snapshot) the first toggle goes to ['date']. *)
Theorem toggleSort_twice (h h' : Host) (w : World) :
  (appState (toggleSort h' (toggleSort h w)) = appState w
   <-> known_mode (appState w)) /\
  (currentSortMode (appState w) <> js "date" ->
   currentSortMode (appState (toggleSort h w)) = js "date").
Proof.
  rewrite !appState_toggleSort. unfold sortToggledState, known_mode.
  cbn [tasks projects organizations currentSortMode].
  destruct (appState w) as [ts ps os mode].
  cbn [tasks projects organizations currentSortMode].
  split.
  - destruct (str_eqb mode (js "date")) eqn:E.
    + apply str_eqb_eq in E. subst mode.
      split; [left; reflexivity | reflexivity].
    + cbn [str_eqb js]. rewrite str_eqb_refl. split.
      * intros H. right. congruence.
      * intros [-> | ->]; [discriminate E | reflexivity].
  - intros Hm. apply str_eqb_neq in Hm. rewrite Hm. reflexivity.
Qed.

(** X11.  One listening session takes one transcription: a message with a
    task text that arrives while the page listens ends the session, puts
    the text into the draft and enables the confirm button, and a message
    that arrives after it is ignored. *)
Theorem one_transcription_per_session (data later : Draft.t) (w : World) :
  isListening w = true -> Draft.task data <> [] ->
  let w' := onPluginMessage data w in
  isListening w' = false /\
  Draft.task (currentTaskDraft w') = Draft.task data /\
  confirmTaskBtn_disabled (dom w') = false /\
  appState w' = appState w /\
  onPluginMessage later w' = w'.
Proof.
  intros Hl Hd w'. unfold w', onPluginMessage. rewrite Hl.
  destruct (Draft.task data) as [|c r] eqn:E; [congruence|].
  cbn [truthy]. unfold processVoiceResponse. rewrite E.
  cbn [truthy isListening with_dom with_draft with_listening currentTaskDraft
       Draft.task dom setConfirmDisabled confirmTaskBtn_disabled negb appState].
  repeat split; reflexivity.
Qed.

(** X12.  No handler but the side button and a transcription ends a
    listening session: when the add view is left with Cancel while the
    page listens and is opened again, the page still listens, so the first
    press of the side button stops the session instead of starting one,
    and a transcription that arrives on the main view still fills the
    draft. *)
Theorem listening_survives_cancel (data : Draft.t) (w : World) :
  isListening w = true -> Draft.task data <> [] ->
  isListening (cancelAdd w) = true /\
  handleSideClick (cancelAdd w) = cancelAdd w /\
  Draft.task (currentTaskDraft (onPluginMessage data (cancelAdd w)))
  = Draft.task data /\
  activeView (dom (onPluginMessage data (cancelAdd w))) = js "mainView" /\
  isListening (handleSideClick (showAddView (cancelAdd w))) = false.
Proof.
  intros Hl Hd.
  assert (H1 : isListening (cancelAdd w) = true) by exact Hl.
  split; [exact H1|]. split; [reflexivity|].
  unfold onPluginMessage. rewrite H1.
  destruct (Draft.task data) as [|c r] eqn:E; [congruence|].
  cbn [truthy]. unfold processVoiceResponse. rewrite E.
  split; [reflexivity|]. split; [reflexivity|].
  unfold handleSideClick.
  change (activeView (dom (showAddView (cancelAdd w)))) with (js "addView").
  rewrite str_eqb_refl.
  change (isListening (showAddView (cancelAdd w))) with (isListening w).
  rewrite Hl. reflexivity.
Qed.

Lemma button_follows_draft_step (h : Host) (e : Event) (w : World) :
  button_follows_draft w -> button_follows_draft (step h e w).
Proof.
  intros Hw.
  assert (Hkeep : forall w0,
             currentTaskDraft w0 = currentTaskDraft w /\
             confirmTaskBtn_disabled (dom w0) = confirmTaskBtn_disabled (dom w) ->
             button_follows_draft w0).
  { intros w0 [E1 E2]. unfold button_follows_draft in *. congruence. }
  assert (Hsr : forall w0,
             currentTaskDraft w0 = currentTaskDraft w -> dom w0 = dom w ->
             button_follows_draft (showView (js "mainView") (saveAndRender h w0))).
  { intros w0 E1 E2. apply Hkeep. unfold showView.
    cbn [currentTaskDraft with_dom dom setView confirmTaskBtn_disabled].
    rewrite draft_saveAndRender, dom_saveAndRender, E1, E2. split; reflexivity. }
  assert (Hr : forall w0,
             currentTaskDraft w0 = currentTaskDraft w -> dom w0 = dom w ->
             button_follows_draft (saveAndRender h w0)).
  { intros w0 E1 E2. apply Hkeep.
    rewrite draft_saveAndRender, dom_saveAndRender, E1, E2. split; reflexivity. }
  clear Hkeep.
  destruct e as [| taskId | | | | data | | | form | confirmed | taskId |];
    cbn [step].
  - reflexivity.
  - unfold showEditView. cbn [appState with_editing].
    destruct (findTask _ _); exact Hw.
  - reflexivity.
  - exact Hw.
  - unfold handleSideClick.
    destruct (str_eqb _ _); [destruct (isListening w)|]; exact Hw.
  - unfold onPluginMessage.
    destruct (isListening w); [destruct (truthy (Draft.task data))|]; try exact Hw.
    reflexivity.
  - reflexivity.
  - unfold confirmTask.
    destruct (Draft.task (currentTaskDraft w)); [exact Hw|].
    cbn [truthy negb]. apply Hsr; reflexivity.
  - unfold saveEdit. destruct (editing w); [|exact Hw].
    destruct (findTask _ _); [|exact Hw].
    destruct (trim (editTaskInput form)); [exact Hw|]. cbn [truthy negb].
    destruct (chosen (editProjectSelect form) _ _).
    destruct (chosen (editOrgSelect form) _ _).
    apply Hsr; reflexivity.
  - unfold deleteTask. destruct (editing w); [|exact Hw].
    destruct confirmed; [|exact Hw]. apply Hsr; reflexivity.
  - unfold toggleTaskComplete. destruct (findTask _ _); [|exact Hw].
    apply Hr; reflexivity.
  - unfold toggleSort. apply Hr; reflexivity.
Qed.

(** X13.  Once the add view has been opened, whatever the user does,
    the confirm button is disabled exactly when the draft has no task
    text; and [confirmTask] with the button disabled adds nothing. *)
Theorem confirm_button_follows_draft (trace : list (Host * Event)) (w0 : World)
        (h : Host) :
  let w := run trace (showAddView w0) in
  button_follows_draft w /\
  (confirmTaskBtn_disabled (dom w) = true -> confirmTask h w = w).
Proof.
  intros w.
  assert (Hb : button_follows_draft w).
  { unfold w.
    generalize (showAddView w0), (eq_refl : button_follows_draft (showAddView w0)).
    induction trace as [|[h1 e] trace IH]; intros w1 H1; [exact H1|].
    cbn [run]. apply IH, button_follows_draft_step, H1. }
  split; [exact Hb|].
  intros Hd. unfold button_follows_draft in Hb. rewrite Hd in Hb.
  unfold confirmTask. rewrite <- Hb. reflexivity.
Qed.

Lemma indicator_after_render (h : Host) (w : World) :
  indicator_follows_tasks (saveAndRender h w).
Proof.
  unfold indicator_follows_tasks.
  rewrite dom_saveAndRender, tasks_saveAndRender.
  cbn [taskList setTaskList]. unfold renderTasks.
  destruct (tasks (appState w)); reflexivity.
Qed.

Lemma indicator_step (h : Host) (e : Event) (w : World) :
  indicator_follows_tasks w -> indicator_follows_tasks (step h e w).
Proof.
  intros Hw.
  assert (Hsr : forall w0,
             indicator_follows_tasks (showView (js "mainView") (saveAndRender h w0))).
  { intros w0. apply (indicator_after_render h w0). }
  destruct e as [| taskId | | | | data | | | form | confirmed | taskId |];
    cbn [step].
  - exact Hw.
  - unfold showEditView. cbn [appState with_editing].
    destruct (findTask _ _); exact Hw.
  - exact Hw.
  - exact Hw.
  - unfold handleSideClick.
    destruct (str_eqb _ _); [destruct (negb _)|]; exact Hw.
  - unfold onPluginMessage.
    destruct (isListening w); [destruct (truthy _)|]; exact Hw.
  - exact Hw.
  - unfold confirmTask. destruct (negb _); [exact Hw | apply Hsr].
  - unfold saveEdit. destruct (editing w); [|exact Hw].
    destruct (findTask _ _); [|exact Hw].
    destruct (negb _); [exact Hw|].
    destruct (chosen (editProjectSelect form) _ _).
    destruct (chosen (editOrgSelect form) _ _). apply Hsr.
  - unfold deleteTask. destruct (editing w); [|exact Hw].
    destruct confirmed; [apply Hsr | exact Hw].
  - unfold toggleTaskComplete. destruct (findTask _ _); [|exact Hw].
    apply indicator_after_render.
  - apply indicator_after_render.
Qed.

(** X14.  Once the page has started, whatever the user does, the
    empty-state indicator is shown exactly when the task list is empty:
    every handler that changes the list renders it again. *)
Theorem empty_state_follows_tasks (h : Host) (trace : list (Host * Event))
        (w0 w : World) :
  initialize h w0 = Fulfilled w ->
  indicator_follows_tasks (run trace w).
Proof.
  intros Hi.
  assert (H0 : indicator_follows_tasks w).
  { unfold initialize in Hi. destruct (loadData h w0) as [w1 | |]; try discriminate.
    inversion Hi; subst w. unfold indicator_follows_tasks, rerender, renderTasks.
    cbn [dom with_dom taskList setTaskList appState].
    destruct (tasks (appState w1)); reflexivity. }
  clear Hi. revert w H0.
  induction trace as [|[h1 e] trace IH]; intros w H0; [exact H0|].
  cbn [run]. apply IH, indicator_step, H0.
Qed.

End SingleHandlers.

Lemma deleteTask_removes_the_id_witness :
  editing (@run ordinal_collator editOpen (initialWorld emptyStorage))
  = Some 1749556800000%Z /\
  tasks (appState (@deleteTask ordinal_collator laterBrowser true
                     (@run ordinal_collator editOpen (initialWorld emptyStorage))))
  = [] /\
  @saveEdit ordinal_collator laterBrowser renameEdit
    (@deleteTask ordinal_collator laterBrowser true
       (@run ordinal_collator editOpen (initialWorld emptyStorage)))
  = @deleteTask ordinal_collator laterBrowser true
      (@run ordinal_collator editOpen (initialWorld emptyStorage)).
Proof.
  assert (He : editing (@run ordinal_collator editOpen (initialWorld emptyStorage))
               = Some 1749556800000%Z) by (vm_compute; reflexivity).
  split; [exact He|].
  destruct (@deleteTask_removes_the_id ordinal_collator laterBrowser laterBrowser
              renameEdit _ _ He) as (_ & _ & _ & H4 & _).
  split; [vm_compute; reflexivity | exact H4].
Defined.

Lemma one_transcription_witness :
  isListening (@run ordinal_collator listeningTrace (initialWorld emptyStorage)) = true /\
  onPluginMessage (spoken "Write tests")
    (onPluginMessage (spoken "Fix bug")
       (@run ordinal_collator listeningTrace (initialWorld emptyStorage)))
  = onPluginMessage (spoken "Fix bug")
      (@run ordinal_collator listeningTrace (initialWorld emptyStorage)).
Proof.
  assert (Hl : isListening (@run ordinal_collator listeningTrace (initialWorld emptyStorage))
               = true) by reflexivity.
  split; [exact Hl|].
  destruct (one_transcription_per_session (spoken "Fix bug") (spoken "Write tests") _ Hl)
    as (_ & _ & _ & _ & H5); [discriminate | exact H5].
Defined.

Lemma listening_survives_cancel_witness :
  isListening (@run ordinal_collator listeningTrace (initialWorld emptyStorage)) = true /\
  isListening
    (handleSideClick
       (showAddView
          (cancelAdd (@run ordinal_collator listeningTrace (initialWorld emptyStorage)))))
  = false.
Proof.
  assert (Hl : isListening (@run ordinal_collator listeningTrace (initialWorld emptyStorage))
               = true) by reflexivity.
  split; [exact Hl|].
  destruct (listening_survives_cancel (spoken "Fix bug") _ Hl)
    as (_ & _ & _ & _ & H5); [discriminate | exact H5].
Defined.

Lemma empty_state_follows_tasks_witness :
  exists w,
    @initialize ordinal_collator noonBrowser (initialWorld emptyStorage) = Fulfilled w /\
    indicator_follows_tasks (@run ordinal_collator oneTaskTrace w).
Proof.
  exists (@rerender ordinal_collator noonBrowser
            (with_dom (setListenersBound (dom (initialWorld emptyStorage)))
               (initialWorld emptyStorage))).
  assert (Hi : @initialize ordinal_collator noonBrowser (initialWorld emptyStorage)
               = Fulfilled
                   (@rerender ordinal_collator noonBrowser
                      (with_dom (setListenersBound (dom (initialWorld emptyStorage)))
                         (initialWorld emptyStorage)))) by reflexivity.
  split; [exact Hi|].
  apply (@empty_state_follows_tasks ordinal_collator noonBrowser oneTaskTrace _ _ Hi).
Defined.

(** ** The label of a due date *)

Lemma Date_parse_midnight (s : list N) (date : Z) :
  Date_parse s = Some date -> exists k, date = (k * msPerDay)%Z.
Proof.
  unfold Date_parse.
  destruct s as [|y1 [|y2 [|y3 [|y4 [|h1 [|m1 [|m2 [|h2 [|d1 [|d2 [|x r]]]]]]]]]]];
    try discriminate.
  destruct (_ && _)%bool; [|discriminate].
  destruct (number4 y1 y2 y3 y4) as [y|]; [|discriminate].
  destruct (number2 m1 m2) as [m|]; [|discriminate].
  destruct (number2 d1 d2) as [d|]; [|discriminate].
  destruct (_ && _)%bool; [|discriminate].
  intros E. inversion E. eexists. reflexivity.
Qed.

Lemma Date_parse_truthy (s : list N) (date : Z) :
  Date_parse s = Some date -> truthy s = true.
Proof. destruct s; [discriminate | reflexivity]. Qed.

Lemma localDay_midnight (h : Host) (k : Z) :
  localDay h (k * msPerDay) = (k + timezone h / msPerDay)%Z.
Proof. unfold localDay. apply Z.div_add_l. unfold msPerDay. lia. Qed.

Lemma monthShort_head (m : Z) :
  exists c r, monthShort m = c :: r /\ c <> 84%N.
Proof.
  unfold monthShort.
  repeat match goal with
         | |- context [if ?b then _ else _] => destruct b
         end;
    eexists; eexists; (split; [reflexivity | discriminate]).
Qed.

(** [formatDate] says ['Today'] and ['Tomorrow'] for the local days of the
    clock and of the day after, and for nothing else. *)
Lemma formatDate_labels (h : Host) (s : list N) (date : Z) :
  s <> [] -> new_Date h s = Some date ->
  (formatDate h s = js "Today" <-> localDay h date = localDay h (now h)) /\
  (formatDate h s = js "Tomorrow" <-> localDay h date = (localDay h (now h) + 1)%Z).
Proof.
  intros Hs Hp. unfold formatDate. rewrite Hp.
  destruct s as [|c0 r0]; [congruence|]. cbn [truthy negb]. cbv zeta.
  destruct (localDay h date =? localDay h (now h))%Z eqn:E1.
  - apply Z.eqb_eq in E1. split; [tauto|].
    split; [discriminate | lia].
  - apply Z.eqb_neq in E1.
    destruct (localDay h date =? localDay h (now h) + 1)%Z eqn:E2.
    + apply Z.eqb_eq in E2. split; [|tauto]. split; [discriminate | lia].
    + apply Z.eqb_neq in E2.
      destruct (civil_from_days (localDay h date)) as [[y m] d].
      destruct (civil_from_days (localDay h (now h))) as [[thisYear m'] d'].
      destruct (monthShort_head m) as (c & r & -> & Hc).
      split; (split; [intros E; inversion E; congruence | lia]).
Qed.

Lemma Date_parse_nonempty (s : list N) (date : Z) :
  Date_parse s = Some date -> s <> [].
Proof. intros H E. subst s. discriminate H. Qed.

(** X15.  A due date is read as midnight UTC and compared by local days.
    East of UTC (and at UTC) the label ['Today'] goes to the date of the
    local day; west of UTC it goes to the date of the day after, and the
    date of the local day itself is not labelled ['Today']. *)
Theorem formatDate_today_by_zone (h : Host) (s : list N) (date : Z) :
  Date_parse s = Some date ->
  ((0 <= timezone h < msPerDay)%Z ->
   (formatDate h s = js "Today" <-> (date / msPerDay)%Z = localDay h (now h))) /\
  ((- msPerDay <= timezone h < 0)%Z ->
   (formatDate h s = js "Today" <-> (date / msPerDay)%Z = (localDay h (now h) + 1)%Z)).
Proof.
  intros Hp. destruct (Date_parse_midnight s date Hp) as (k & ->).
  destruct (formatDate_labels h s _ (Date_parse_nonempty _ _ Hp)
              (new_Date_date_only h _ _ Hp)) as [-> _].
  rewrite localDay_midnight, Z.div_mul by (unfold msPerDay; lia).
  split; intros Htz.
  - rewrite Z.div_small by lia. lia.
  - replace (timezone h / msPerDay)%Z with (-1)%Z; [lia|].
    apply Z.div_unique with (r := (timezone h + msPerDay)%Z); lia.
Qed.

(** X16.  A task whose label is ['Tomorrow'] is never marked overdue, in
    any time zone. *)
Theorem tomorrow_never_overdue (h : Host) (t : Task) :
  formatDate h (dueDate t) = js "Tomorrow" -> isOverdue h t = false.
Proof.
  intros Hf. apply not_true_is_false. intros Ho.
  apply isOverdue_iff in Ho as (Hne & _ & due & Hp & Hlt).
  destruct (formatDate_labels h (dueDate t) due Hne Hp) as [_ [H _]].
  specialize (H Hf). unfold localDay in H.
  assert (Hd : (0 < msPerDay)%Z) by (unfold msPerDay; lia).
  pose proof (Z.div_le_mono (due + timezone h) (now h + timezone h) msPerDay Hd) as Hm.
  lia.
Qed.

(** X17.  East of UTC (and at UTC) a task that is not completed, whose
    due date is a date-only text naming a day and whose label is
    ['Today'], is marked overdue exactly when the local time of day is
    later than the offset of the zone: at UTC from the first millisecond of
    the day, two hours east of UTC from two o'clock. *)
Theorem today_overdue_after_offset (h : Host) (t : Task) (due : Z) :
  Date_parse (dueDate t) = Some due ->
  (0 <= timezone h < msPerDay)%Z ->
  completed t = false ->
  formatDate h (dueDate t) = js "Today" ->
  (isOverdue h t = true <-> (timezone h < (now h + timezone h) mod msPerDay)%Z).
Proof.
  intros Hp Htz Hc Hf.
  assert (Hd : (0 < msPerDay)%Z) by (unfold msPerDay; lia).
  pose proof (Date_parse_nonempty _ _ Hp) as Hne.
  pose proof (new_Date_date_only h _ _ Hp) as Hn.
  destruct (Date_parse_midnight _ _ Hp) as (k & Ek).
  destruct (formatDate_labels h (dueDate t) due Hne Hn) as [[H _] _].
  specialize (H Hf). subst due.
  rewrite localDay_midnight, Z.div_small in H by lia.
  unfold localDay in H.
  pose proof (Z.div_mod (now h + timezone h) msPerDay ltac:(lia)) as Hdm.
  rewrite isOverdue_iff. split.
  - intros (_ & _ & due & Hp' & Hlt).
    rewrite Hn in Hp'. inversion Hp'; subst due. nia.
  - intros Hlt. split; [exact Hne|]. split; [exact Hc|].
    exists (k * msPerDay)%Z. split; [exact Hn | nia].
Qed.

(** A due date with a time of day is read as local time: at noon such a
    task due at eight in the evening is labelled ['Today'] and is not
    overdue. *)
Example evening_task_not_overdue_at_noon :
  Date_parse (dueDate dueThisEvening) = None /\
  new_Date noonBrowser (dueDate dueThisEvening) = Some 1749585600000%Z /\
  formatDate noonBrowser (dueDate dueThisEvening) = js "Today" /\
  isOverdue noonBrowser dueThisEvening = false.
Proof. vm_compute. repeat split; reflexivity. Qed.

Lemma formatDate_today_by_zone_witness :
  Date_parse (js "2025-06-11") = Some 1749600000000%Z /\
  formatDate westHost (js "2025-06-11") = js "Today".
Proof.
  assert (Hp : Date_parse (js "2025-06-11") = Some 1749600000000%Z)
    by (vm_compute; reflexivity).
  split; [exact Hp|].
  destruct (formatDate_today_by_zone westHost _ _ Hp) as [_ H].
  apply H; [unfold msPerDay; cbn; lia | vm_compute; reflexivity].
Defined.

Lemma tomorrow_never_overdue_witness :
  formatDate noonBrowser (dueDate dueTomorrowTask) = js "Tomorrow" /\
  isOverdue noonBrowser dueTomorrowTask = false.
Proof.
  assert (Hf : formatDate noonBrowser (dueDate dueTomorrowTask) = js "Tomorrow")
    by (vm_compute; reflexivity).
  split; [exact Hf|].
  apply (tomorrow_never_overdue noonBrowser dueTomorrowTask Hf).
Defined.

Lemma today_overdue_after_offset_witness :
  Date_parse (dueDate dueTodayTask) = Some 1749513600000%Z /\
  formatDate eastHost (dueDate dueTodayTask) = js "Today" /\
  isOverdue eastHost dueTodayTask = true.
Proof.
  assert (Hp : Date_parse (dueDate dueTodayTask) = Some 1749513600000%Z)
    by (vm_compute; reflexivity).
  assert (Hf : formatDate eastHost (dueDate dueTodayTask) = js "Today")
    by (vm_compute; reflexivity).
  split; [exact Hp|]. split; [exact Hf|].
  apply (today_overdue_after_offset eastHost dueTodayTask _ Hp);
    [unfold msPerDay; cbn; lia | reflexivity | exact Hf
    | vm_compute; reflexivity].
Defined.

(** ** The QR code and the share link *)

Lemma Forall_trimStart (P : N -> Prop) (s : list N) :
  Forall P s -> Forall P (trimStart s).
Proof.
  induction 1 as [|c s Hc Hs IH]; [constructor|].
  cbn [trimStart]. destruct (is_js_ws c); [exact IH | constructor; assumption].
Qed.

Lemma Forall_trimEnd (P : N -> Prop) (s : list N) :
  Forall P s -> Forall P (trimEnd s).
Proof.
  induction 1 as [|c s Hc Hs IH]; [constructor|].
  cbn [trimEnd]. destruct (trimEnd s) as [|d r].
  - destruct (is_js_ws c); repeat constructor; assumption.
  - constructor; assumption.
Qed.

Lemma latin1_trim (s : list N) : latin1 s -> latin1 (trim s).
Proof. intros H. apply Forall_trimEnd, Forall_trimStart, H. Qed.

Lemma latin1_json_of_form (form : FormData) :
  latin1_form form -> latin1 (JSON_stringify (json_of_form (getFormData form))).
Proof.
  intros (H1 & H2 & H3 & H4 & H5). apply latin1_stringify.
  unfold json_of_form. apply latin1_json_JObj.
  repeat (apply Forall_cons;
          [split; [apply latin1_js
                  | cbn [snd latin1_json getFormData title url description
                         iconUrl themeColor];
                    first [apply latin1_trim; assumption | assumption]]|]).
  constructor.
Qed.

Lemma truthy_false (s : list N) : truthy s = false <-> s = [].
Proof. destruct s; split; intros H; congruence || reflexivity || discriminate. Qed.

Lemma truthy_true (s : list N) : truthy s = true <-> s <> [].
Proof. destruct s; split; intros H; congruence || reflexivity || discriminate. Qed.

(** X18.  [generateQRCode] refuses a form exactly when title, URL and
    description are blank after trimming; otherwise the text of the code
    is the JSON text of the trimmed form data, and it parses back to that
    data, whatever characters the fields hold. *)
Theorem qr_data_reads_back (form : FormData) :
  wf_form form ->
  (generateQRCode form = FillInWarning <->
   trim (title form) = [] /\ trim (url form) = [] /\ trim (description form) = []) /\
  (forall text,
      generateQRCode form = QRData text ->
      text = JSON_stringify (json_of_form (getFormData form)) /\
      JSON_parse text = POk (json_of_form (getFormData form)) []).
Proof.
  intros Hwf.
  assert (Hg : negb (truthy (title (getFormData form))) &&
               negb (truthy (url (getFormData form))) &&
               negb (truthy (description (getFormData form))) = true <->
               trim (title form) = [] /\ trim (url form) = [] /\
               trim (description form) = []).
  { rewrite !andb_true_iff, !negb_true_iff, !truthy_false. cbn [getFormData title url
      description]. tauto. }
  unfold generateQRCode. cbv zeta.
  destruct (negb (truthy (title (getFormData form))) &&
            negb (truthy (url (getFormData form))) &&
            negb (truthy (description (getFormData form)))) eqn:E.
  - split.
    + split; [intros _; apply Hg; reflexivity | reflexivity].
    + intros text H. discriminate H.
  - split.
    + split; [discriminate|]. intros H. apply Hg in H. discriminate H.
    + intros text H.
      assert (Et : JSON_stringify (json_of_form (getFormData form)) = text)
        by congruence.
      subst text. split; [reflexivity|].
      apply JSON_parse_stringify, wf_json_of_form, Hwf.
Qed.

(** X19.  A form whose fields hold no code unit above 255 and that has
    data gets a share link: the address of the page, [?jsondata=] and
    base64 text in the URL-safe alphabet.  A form with a code unit above
    255 that is not a surrogate in its title gets none: the share field is
    cleared. *)
Theorem share_link_needs_latin1 (origin pathname : list N) (form : FormData) :
  hasData (getFormData form) = true ->
  (latin1_form form ->
   exists encoded,
     updateShareURL origin pathname form
     = origin ++ pathname ++ js "?jsondata=" ++ encoded /\
     forallb unreserved encoded = true) /\
  (forall c, In c (trim (title form)) -> beyond_latin1 c ->
             updateShareURL origin pathname form = []).
Proof.
  intros Hd. unfold updateShareURL, shareQuery. rewrite Hd. split.
  - intros Hl. rewrite btoa_latin1 by (apply latin1_json_of_form, Hl).
    eexists. split; [reflexivity|].
    apply urlSafe_unreserved, b64_encode_written.
  - intros c Hc Hb. rewrite btoa_rejects; [reflexivity|].
    intros Hl.
    assert (Hin : In c (JSON_stringify (json_of_form (getFormData form)))).
    { unfold json_of_form. rewrite stringify_JObj. right.
      apply in_or_app. left.
      eapply In_join_comma; [left; reflexivity|].
      unfold stringify_member. cbn [fst snd]. apply in_or_app. right. right.
      cbn [JSON_stringify getFormData title]. unfold QuoteJSONString. right.
      apply in_or_app. left. apply In_quote_units; assumption. }
    unfold latin1 in Hl. rewrite Forall_forall in Hl.
    specialize (Hl c Hin). destruct Hb as (Hb & _). lia.
Qed.

Lemma counts_as_data_iff (value : list N) :
  truthy value && negb (str_eqb value (js "#FE5000")) = true
  <-> counts_as_data value.
Proof.
  unfold counts_as_data.
  rewrite andb_true_iff, negb_true_iff, truthy_true, str_eqb_neq. reflexivity.
Qed.

Lemma hasData_iff (d : FormData) :
  hasData d = true <->
  counts_as_data (title d) \/ counts_as_data (url d) \/
  counts_as_data (description d) \/ counts_as_data (iconUrl d) \/
  counts_as_data (themeColor d).
Proof.
  unfold hasData. cbn [existsb].
  rewrite !orb_true_iff, !counts_as_data_iff. intuition discriminate.
Qed.

(** X20.  The two guards differ.  A form that [generateQRCode] refuses
    still has data for [updateShareURL] exactly when its icon URL or its
    colour is neither empty nor the text of the default colour; so a page
    opened at the link of such a form fills the form and then asks to fill
    in a field.  And a form without data for [updateShareURL] still gets a
    QR code exactly when title, URL or description is the text
    [#FE5000]: each value is compared with the default colour, not the
    colour alone. *)
Theorem share_and_qr_guards_differ (form : FormData) :
  (generateQRCode form = FillInWarning ->
   (hasData (getFormData form) = true <->
    counts_as_data (trim (iconUrl form)) \/ counts_as_data (themeColor form))) /\
  (hasData (getFormData form) = false ->
   (generateQRCode form <> FillInWarning <->
    trim (title form) = js "#FE5000" \/ trim (url form) = js "#FE5000" \/
    trim (description form) = js "#FE5000")).
Proof.
  assert (Hg : generateQRCode form = FillInWarning <->
               trim (title form) = [] /\ trim (url form) = [] /\
               trim (description form) = []).
  { unfold generateQRCode. cbv zeta. cbn [getFormData title url description].
    destruct (trim (title form)), (trim (url form)), (trim (description form));
      cbn [truthy negb andb]; split;
      first [intros (? & ? & ?); discriminate | intros; discriminate | auto]. }
  assert (Hc : forall value, ~ counts_as_data value ->
                             value <> [] -> value = js "#FE5000").
  { intros value Hn Hv. destruct (str_eqb value (js "#FE5000")) eqn:E.
    - apply str_eqb_eq, E.
    - exfalso. apply Hn. split; [exact Hv | apply str_eqb_neq, E]. }
  split.
  - intros Hr. apply Hg in Hr as (H1 & H2 & H3).
    rewrite hasData_iff. cbn [getFormData title url description iconUrl themeColor].
    rewrite H1, H2, H3. unfold counts_as_data at 1 2 3. tauto.
  - intros Hd. apply not_true_iff_false in Hd. rewrite hasData_iff in Hd.
    cbn [getFormData title url description iconUrl themeColor] in Hd.
    rewrite Hg. split.
    + intros Hn.
      destruct (trim (title form)) as [|c1 r1] eqn:E1.
      * destruct (trim (url form)) as [|c2 r2] eqn:E2.
        -- destruct (trim (description form)) as [|c3 r3] eqn:E3; [tauto|].
           right; right. apply Hc; [tauto | discriminate].
        -- right; left. apply Hc; [tauto | discriminate].
      * left. apply Hc; [tauto | discriminate].
    + intros [E | [E | E]] (H1 & H2 & H3); rewrite E in *; discriminate.
Qed.

Lemma b64_decode_one_over (s : list N) :
  Nat.modulo (List.length s) 4 = 1%nat -> b64_decode s = None.
Proof.
  remember (List.length s) as n eqn:En. revert s En.
  induction n as [n IH] using lt_wf_ind. intros s En Hn.
  destruct s as [|w [|x [|y [|z r]]]]; cbn [List.length] in En; subst n.
  - discriminate Hn.
  - reflexivity.
  - discriminate Hn.
  - discriminate Hn.
  - assert (Hr : b64_decode r = None).
    { apply (IH (List.length r)); [lia | reflexivity|].
      transitivity (Nat.modulo (List.length r + 1 * 4) 4);
        [symmetry; apply Nat.Div0.mod_add | rewrite <- Hn; f_equal; lia]. }
    cbn [b64_decode]. rewrite Hr.
    destruct (b64_index w), (b64_index x), (b64_index y), (b64_index z); reflexivity.
Qed.

Lemma unreserved_not_ws (v : list N) :
  forallb unreserved v = true ->
  filter (fun c => negb (is_ascii_ws c))
         (replaceAll 95 47 (replaceAll 45 43 v))
  = replaceAll 95 47 (replaceAll 45 43 v).
Proof.
  intros Hv. unfold replaceAll. rewrite map_map.
  induction v as [|c v IH]; [reflexivity|].
  cbn [forallb] in Hv. apply andb_true_iff in Hv as [Hc Hv].
  cbn [map filter].
  assert (E : is_ascii_ws
                (if ((if (c =? 45)%N then 43%N else c) =? 95)%N then 47%N
                 else if (c =? 45)%N then 43%N else c) = false).
  { unfold unreserved in Hc.
    rewrite !orb_true_iff, !andb_true_iff, !N.leb_le, !N.eqb_eq in Hc.
    unfold is_ascii_ws.
    destruct (c =? 45)%N eqn:E45; [reflexivity|].
    destruct (c =? 95)%N eqn:E95; [reflexivity|].
    apply N.eqb_neq in E45, E95.
    repeat match goal with
           | |- context [(c =? ?k)%N] =>
               replace (c =? k)%N with false by (symmetry; apply N.eqb_neq; lia)
           end.
    reflexivity. }
  rewrite E. cbn [negb]. rewrite IH by exact Hv. reflexivity.
Qed.

(** X21.  A link whose [jsondata] text is made of URL-safe characters and
    is one character longer than a multiple of four is not base64:
    [atob] throws, the notification of the [catch] is raised and the form
    is left alone.  This is what a link that lost its last characters can
    come to. *)
Theorem odd_link_rejected (v : list N) (form : FormData) :
  forallb unreserved v = true ->
  Nat.modulo (List.length v) 4 = 1%nat ->
  parseURLParameters (js "?jsondata=" ++ v) form = InvalidParameters.
Proof.
  intros Hv Hn. unfold parseURLParameters.
  rewrite URLSearchParams_get_jsondata by exact Hv.
  destruct v as [|c r] eqn:Ev; [discriminate Hn|]. rewrite <- Ev in *.
  replace (negb (truthy v)) with false by (subst v; reflexivity).
  assert (Ha : atob (replaceAll 95 47 (replaceAll 45 43 v)) = None).
  { unfold atob. cbv zeta. rewrite unreserved_not_ws by exact Hv.
    assert (Hlen : List.length (replaceAll 95 47 (replaceAll 45 43 v)) = List.length v).
    { unfold replaceAll. rewrite !length_map. reflexivity. }
    rewrite Hlen, Hn. cbn [Nat.eqb].
    apply b64_decode_one_over. rewrite Hlen. exact Hn. }
  rewrite Ha. reflexivity.
Qed.

Lemma qr_data_reads_back_witness :
  wf_form snowmanForm /\
  exists text,
    generateQRCode snowmanForm = QRData text /\
    JSON_parse text = POk (json_of_form (getFormData snowmanForm)) [].
Proof.
  assert (Hwf : wf_form snowmanForm).
  { unfold wf_form, snowmanForm; cbn; closed_wf. }
  split; [exact Hwf|].
  destruct (qr_data_reads_back snowmanForm Hwf) as [_ H].
  eexists. split; [reflexivity|].
  apply (H _ eq_refl).
Defined.

Lemma share_link_needs_latin1_witness :
  hasData (getFormData snowmanForm) = true /\
  updateShareURL (js "https://qr.example") (js "/") snowmanForm = [].
Proof.
  assert (Hd : hasData (getFormData snowmanForm) = true) by (vm_compute; reflexivity).
  split; [exact Hd|].
  destruct (share_link_needs_latin1 (js "https://qr.example") (js "/") snowmanForm Hd)
    as [_ H].
  apply (H 9731%N); [vm_compute; tauto | repeat split].
Defined.


Lemma odd_link_rejected_witness :
  forallb unreserved (js "eyJ0a") = true /\
  parseURLParameters (js "?jsondata=" ++ js "eyJ0a") blankForm = InvalidParameters.
Proof.
  assert (Hu : forallb unreserved (js "eyJ0a") = true) by reflexivity.
  split; [exact Hu|].
  apply (odd_link_rejected (js "eyJ0a") blankForm Hu). reflexivity.
Defined.

Example guards_differ_on_forms :
  generateQRCode iconOnlyForm = FillInWarning /\
  shareQuery iconOnlyForm <> None /\
  generateQRCode colourTitleForm <> FillInWarning /\
  shareQuery colourTitleForm = None.
Proof. vm_compute. repeat split; discriminate. Qed.

(** ** Editing *)

Lemma In_updateFound_other (i : Z) (f : Task -> Task) (l : list Task) (t : Task) :
  In t l -> id t <> i -> In t (updateFound i f l).
Proof.
  intros Ht Hi. induction l as [|x l IH]; [destruct Ht|].
  cbn [updateFound]. destruct (id x =? i)%Z eqn:E.
  - destruct Ht as [-> | Ht]; [apply Z.eqb_eq in E; contradiction | right; exact Ht].
  - destruct Ht as [-> | Ht]; [left; reflexivity | right; apply IH, Ht].
Qed.

Section Editing.
Context {collator : Collator}.

(** X22.  An edit that is accepted changes the first task with the edited
    id and no task with another id: its text is the trimmed input, its id,
    completion flag and creation time stay, and the tasks keep their
    places.  When the prompt for a new project is dismissed the task
    loses its project and the registry stays as it was. *)
Theorem saveEdit_changes_one_task (h : Host) (form : EditForm) (w : World) (i : Z)
        (t : Task) :
  editing w = Some i -> findTask i (tasks (appState w)) = Some t ->
  trim (editTaskInput form) <> [] ->
  let w' := saveEdit h form w in
  (exists t', findTask i (tasks (appState w')) = Some t' /\
              task t' = trim (editTaskInput form) /\
              dueDate t' = editDueInput form /\
              id t' = id t /\ completed t' = completed t /\
              createdAt t' = createdAt t /\
              (editProjectSelect form = js "__new__" -> promptProject form = None ->
               project t' = [] /\ projects (appState w') = projects (appState w))) /\
  map id (tasks (appState w')) = map id (tasks (appState w)) /\
  (forall t0, In t0 (tasks (appState w)) -> id t0 <> i ->
              In t0 (tasks (appState w'))) /\
  activeView (dom w') = js "mainView".
Proof.
  intros He Hf Ht w'.
  assert (Ha : appState w' = editedState i form (appState w)).
  { apply (appState_saveEdit h form w i t); assumption. }
  rewrite Ha. unfold editedState. cbn [tasks projects].
  split; [|split; [|split]].
  - eexists. split; [apply findTask_updateFound; [reflexivity | exact Hf]|].
    unfold editedTask. cbn [task dueDate id completed createdAt project].
    do 5 (split; [reflexivity|]).
    intros Hsel Hans. unfold chosen. rewrite Hsel, str_eqb_refl, Hans.
    split; reflexivity.
  - apply map_id_updateFound. reflexivity.
  - intros t0 H0 Hi. apply In_updateFound_other; assumption.
  - unfold w', saveEdit. rewrite He, Hf.
    destruct (trim (editTaskInput form)) as [|c r]; [congruence|].
    cbn [truthy negb].
    destruct (chosen (editProjectSelect form) _ _).
    destruct (chosen (editOrgSelect form) _ _). reflexivity.
Qed.

(** X23.  The edit view treats the id 0 as no id: a task whose id is 0
    (made at the first instant of the clock) opens in the edit view, and
    there neither [saveEdit] nor [deleteTask] does anything. *)
Theorem id_zero_cannot_be_edited (h : Host) (form : EditForm) (confirmed : bool)
        (w : World) (t : Task) :
  findTask 0 (tasks (appState w)) = Some t ->
  let w' := showEditView 0 w in
  activeView (dom w') = js "editView" /\
  saveEdit h form w' = w' /\
  deleteTask h confirmed w' = w'.
Proof.
  intros Hf w'.
  assert (He : editing w' = None).
  { unfold w', showEditView. cbn [appState with_editing]. rewrite Hf. reflexivity. }
  split; [|split].
  - unfold w', showEditView. cbn [appState with_editing]. rewrite Hf. reflexivity.
  - unfold saveEdit. rewrite He. reflexivity.
  - unfold deleteTask. rewrite He. reflexivity.
Qed.

End Editing.

Lemma saveEdit_changes_one_task_witness :
  editing (@run ordinal_collator editOpen (initialWorld emptyStorage))
  = Some 1749556800000%Z /\
  map task (tasks (appState
     (@saveEdit ordinal_collator laterBrowser renameEdit
        (@run ordinal_collator editOpen (initialWorld emptyStorage)))))
  = [js "Fix the bug"] /\
  activeView (dom
     (@saveEdit ordinal_collator laterBrowser renameEdit
        (@run ordinal_collator editOpen (initialWorld emptyStorage))))
  = js "mainView".
Proof.
  assert (He : editing (@run ordinal_collator editOpen (initialWorld emptyStorage))
               = Some 1749556800000%Z) by (vm_compute; reflexivity).
  split; [exact He|]. split; [vm_compute; reflexivity|].
  destruct (@saveEdit_changes_one_task ordinal_collator laterBrowser renameEdit
              (@run ordinal_collator editOpen (initialWorld emptyStorage))
              1749556800000%Z
              {| id := 1749556800000; task := js "Fix bug"; project := [];
                 organization := []; dueDate := []; completed := false;
                 createdAt := js "2025-06-10T12:00:00.000Z" |} He)
    as (_ & _ & _ & H4).
  - vm_compute; reflexivity.
  - vm_compute; discriminate.
  - exact H4.
Defined.

Lemma id_zero_cannot_be_edited_witness :
  findTask 0 (tasks (appState epochWorld)) = Some epochTask /\
  @deleteTask ordinal_collator noonBrowser true (showEditView 0 epochWorld)
  = showEditView 0 epochWorld.
Proof.
  assert (Hf : findTask 0 (tasks (appState epochWorld)) = Some epochTask)
    by reflexivity.
  split; [exact Hf|].
  destruct (@id_zero_cannot_be_edited ordinal_collator noonBrowser renameEdit true
              epochWorld epochTask Hf) as (_ & _ & H3).
  exact H3.
Defined.

(** ** Snapshots that lack a field *)

Lemma wf_tasksOnly (ts : list Task) :
  Forall valid_task ts -> wf_json (tasksOnly ts).
Proof.
  intros Ht. unfold tasksOnly. apply wf_json_JObj.
  constructor; [|constructor]. split; [apply wf_js|]. cbn [snd].
  apply wf_json_JArr. apply Forall_map.
  eapply Forall_impl; [|exact Ht].
  intros t (H1 & H2 & _ & H3 & H4 & H5 & H6).
  unfold json_of_task. apply wf_json_JObj.
  repeat (apply Forall_cons;
          [split; [apply wf_js | cbn [snd wf_json]; auto]|]).
  constructor.
Qed.

(** X24.  [loadData] fills what a stored snapshot lacks with defaults,
    not with what the page holds: from a snapshot with the tasks and
    nothing else the registries come out empty and the sort mode
    ['date']. *)
Theorem partial_snapshot_gets_defaults (h : Host) (w : World) (ts : list Task) :
  browser_host h -> Forall valid_task ts ->
  localStorage_item (storage w) = Some (JSON_stringify (tasksOnly ts)) ->
  loadData h w
  = Fulfilled
      (with_appState
         {| tasks := ts; projects := []; organizations := [];
            currentSortMode := js "date" |} w).
Proof.
  intros [Hcs Hfail] Ht Hs. unfold loadData. rewrite Hcs, Hfail, Hs.
  destruct (stringify_head (tasksOnly ts)) as (c & r & E & _).
  rewrite E. cbn [truthy]. rewrite <- E.
  rewrite JSON_parse_stringify by (apply wf_tasksOnly, Ht).
  cbn [tasksOnly json_truthy]. unfold assign.
  change (property (js "tasks") (tasksOnly ts))
    with (Some (JArr (map json_of_task ts))).
  change (property (js "projects") (tasksOnly ts)) with (@None json).
  change (property (js "organizations") (tasksOnly ts)) with (@None json).
  change (property (js "currentSortMode") (tasksOnly ts)) with (@None json).
  cbn [or_else json_truthy tasks_of_json].
  rewrite (all_some_map task_of_json json_of_task) by apply task_of_json_of_task.
  reflexivity.
Qed.

Lemma partial_snapshot_gets_defaults_witness :
  browser_host noonBrowser /\
  loadData noonBrowser
    (with_storage
       {| creationStorage_item := None;
          localStorage_item := Some (JSON_stringify (tasksOnly [apostropheTask])) |}
       apostropheWorld)
  = Fulfilled
      (with_appState
         {| tasks := [apostropheTask]; projects := []; organizations := [];
            currentSortMode := js "date" |}
         (with_storage
            {| creationStorage_item := None;
               localStorage_item := Some (JSON_stringify (tasksOnly [apostropheTask])) |}
            apostropheWorld)).
Proof.
  assert (Hh : browser_host noonBrowser) by (split; reflexivity).
  split; [exact Hh|].
  apply (partial_snapshot_gets_defaults noonBrowser _ [apostropheTask] Hh);
    [|reflexivity].
  destruct apostropheState_valid as [Hv _]. exact Hv.
Defined.

(** ** The date text of [toISOString] *)

Local Open Scope Z_scope.

Lemma civil_from_days_valid (z : Z) :
  let '(y, m, d) := civil_from_days z in
  1 <= m <= 12 /\ 1 <= d /\ days_from_civil y m d = z.
Proof.
  unfold civil_from_days, days_from_civil. cbv zeta.
  set (z' := z + 719468).
  set (era := z' / 146097).
  set (doe := z' - era * 146097).
  set (yoe := (doe - doe / 1460 + doe / 36524 - doe / 146096) / 365).
  set (doy := doe - (365 * yoe + yoe / 4 - yoe / 100)).
  set (mp := (5 * doy + 2) / 153).
  assert (Hdoe : 0 <= doe < 146097).
  { subst doe era. Z.to_euclidean_division_equations; lia. }
  assert (Hyoe : 0 <= yoe <= 399 /\ 0 <= doy <= 365).
  { subst doy yoe. Z.to_euclidean_division_equations; lia. }
  assert (Hmp : 0 <= mp <= 11).
  { subst mp. Z.to_euclidean_division_equations; lia. }
  destruct (Z.ltb_spec mp 10) as [H10 | H10].
  - destruct (Z.leb_spec (mp + 3) 2) as [H2 | H2]; [lia|].
    destruct (Z.leb_spec (mp + 3) 2) as [H2' | H2']; [lia|].
    split; [lia|]. split.
    { subst mp. Z.to_euclidean_division_equations; lia. }
    replace ((mp + 3 + 9) mod 12) with mp by (Z.to_euclidean_division_equations; lia).
    replace ((yoe + era * 400) / 400) with era by (Z.to_euclidean_division_equations; lia).
    replace (yoe + era * 400 - era * 400) with yoe by lia.
    subst doy doe z'. lia.
  - destruct (Z.leb_spec (mp - 9) 2) as [H2 | H2]; [|lia].
    destruct (Z.leb_spec (mp - 9) 2) as [H2' | H2']; [|lia].
    split; [lia|]. split.
    { subst mp. Z.to_euclidean_division_equations; lia. }
    replace ((mp - 9 + 9) mod 12) with mp by (Z.to_euclidean_division_equations; lia).
    replace (yoe + era * 400 + 1 - 1) with (yoe + era * 400) by lia.
    replace ((yoe + era * 400) / 400) with era by (Z.to_euclidean_division_equations; lia).
    replace (yoe + era * 400 - era * 400) with yoe by lia.
    subst doy doe z'. lia.
Qed.

Lemma civil_from_days_in_month (z : Z) :
  let '(y, m, d) := civil_from_days z in d <= days_in_month y m.
Proof.
  unfold civil_from_days. cbv zeta.
  set (z' := z + 719468).
  set (era := z' / 146097).
  set (doe := z' - era * 146097).
  set (yoe := (doe - doe / 1460 + doe / 36524 - doe / 146096) / 365).
  set (doy := doe - (365 * yoe + yoe / 4 - yoe / 100)).
  set (mp := (5 * doy + 2) / 153).
  assert (Hdoe : 0 <= doe < 146097).
  { subst doe era. Z.to_euclidean_division_equations; lia. }
  assert (Hyoe : 0 <= yoe <= 399 /\ 0 <= doy <= 365 /\
                 (doy = 365 -> (yoe mod 4 = 3 /\ yoe mod 100 <> 99) \/ yoe = 399)).
  { subst doy yoe. Z.to_euclidean_division_equations; lia. }
  assert (Hmp : 0 <= mp <= 11).
  { subst mp. Z.to_euclidean_division_equations; lia. }
  unfold days_in_month, is_leap.
  destruct (Z.ltb_spec mp 10) as [H10 | H10].
  - destruct (Z.leb_spec (mp + 3) 2) as [H2 | H2]; [lia|].
    repeat match goal with
           | |- context [(?a =? ?b)] => destruct (Z.eqb_spec a b)
           end; cbn [orb andb negb]; try lia;
      subst mp; Z.to_euclidean_division_equations; lia.
  - destruct (Z.leb_spec (mp - 9) 2) as [H2 | H2]; [|lia].
    destruct Hyoe as (Hy & Hd & Hleap).
    repeat match goal with
           | |- context [(?a =? ?b)] => destruct (Z.eqb_spec a b)
           end; cbn [orb andb negb]; try lia;
      subst mp; Z.to_euclidean_division_equations; lia.
Qed.

Lemma civil_from_days_year (z : Z) :
  0 <= z <= 2932896 ->
  let '(y, m, d) := civil_from_days z in 1970 <= y <= 9999.
Proof.
  intros Hz. unfold civil_from_days. cbv zeta.
  set (z' := z + 719468).
  set (era := z' / 146097).
  set (doe := z' - era * 146097).
  set (yoe := (doe - doe / 1460 + doe / 36524 - doe / 146096) / 365).
  set (doy := doe - (365 * yoe + yoe / 4 - yoe / 100)).
  set (mp := (5 * doy + 2) / 153).
  assert (Hdoe : 0 <= doe < 146097).
  { subst doe era. Z.to_euclidean_division_equations; lia. }
  assert (Hyoe : 0 <= yoe <= 399 /\ 0 <= doy <= 365).
  { subst doy yoe. Z.to_euclidean_division_equations; lia. }
  assert (Hera : 4 <= era <= 24).
  { subst era z'. Z.to_euclidean_division_equations; lia. }
  assert (Hmp : 0 <= mp <= 11).
  { subst mp. Z.to_euclidean_division_equations; lia. }
  destruct (Z.ltb_spec mp 10) as [H10 | H10].
  - destruct (Z.leb_spec (mp + 3) 2) as [H2 | H2]; [lia|].
    subst mp doy yoe doe era z'. Z.to_euclidean_division_equations; lia.
  - destruct (Z.leb_spec (mp - 9) 2) as [H2 | H2]; [|lia].
    subst mp doy yoe doe era z'. Z.to_euclidean_division_equations; lia.
Qed.

Local Close Scope Z_scope.

Lemma digit_of_range (n : Z) : (48 <= digit_of n <= 57)%N.
Proof.
  unfold digit_of. pose proof (Z.mod_pos_bound n 10 ltac:(lia)). lia.
Qed.

Lemma digit_value_digit_of (n : Z) : digit_value (digit_of n) = Some (n mod 10)%Z.
Proof.
  pose proof (digit_of_range n) as Hr. unfold digit_value, is_digit.
  replace (48 <=? digit_of n)%N with true by (symmetry; apply N.leb_le; lia).
  replace (digit_of n <=? 57)%N with true by (symmetry; apply N.leb_le; lia).
  cbn [andb]. f_equal. unfold digit_of.
  pose proof (Z.mod_pos_bound n 10 ltac:(lia)). lia.
Qed.

Lemma number2_pad (n : Z) :
  (0 <= n <= 99)%Z -> number2 (digit_of (n / 10)) (digit_of n) = Some n.
Proof.
  intros Hn. unfold number2. rewrite !digit_value_digit_of. f_equal.
  Z.to_euclidean_division_equations; lia.
Qed.

Lemma number4_pad (n : Z) :
  (0 <= n <= 9999)%Z ->
  number4 (digit_of (n / 1000)) (digit_of (n / 100)) (digit_of (n / 10)) (digit_of n)
  = Some n.
Proof.
  intros Hn. unfold number4, number2. rewrite !digit_value_digit_of. f_equal.
  Z.to_euclidean_division_equations; lia.
Qed.

Lemma fst_split_at_cons (sep c : N) (r : list N) :
  c <> sep -> fst (split_at sep (c :: r)) = c :: fst (split_at sep r).
Proof.
  intros Hc. cbn [split_at]. apply N.eqb_neq in Hc. rewrite Hc.
  destruct (split_at sep r). reflexivity.
Qed.

Lemma fst_split_at_digit (n : Z) (r : list N) :
  fst (split_at 84 (digit_of n :: r)) = digit_of n :: fst (split_at 84 r).
Proof.
  apply fst_split_at_cons. pose proof (digit_of_range n). lia.
Qed.

(** The text before the [T] of [toISOString] names the UTC day of the
    instant, and the [Date] constructor reads it back as the midnight of
    that day. *)
Lemma Date_parse_date_text (t : Z) :
  (0 <= t < 253402300800000)%Z ->
  Date_parse (fst (split_at 84 (toISOString t))) = Some (t / msPerDay * msPerDay)%Z.
Proof.
  intros Ht.
  assert (Hz : (0 <= t / msPerDay <= 2932896)%Z).
  { unfold msPerDay. Z.to_euclidean_division_equations; lia. }
  pose proof (civil_from_days_valid (t / msPerDay)) as Hv.
  pose proof (civil_from_days_in_month (t / msPerDay)) as Hm.
  pose proof (civil_from_days_year (t / msPerDay) Hz) as Hy.
  unfold toISOString.
  destruct (civil_from_days (t / msPerDay)) as [[y m] d].
  destruct Hv as (Hm12 & Hd1 & Hback).
  replace ((0 <=? y)%Z && (y <=? 9999)%Z) with true
    by (symmetry; apply andb_true_iff; split; apply Z.leb_le; lia).
  cbn [pad4 pad3 pad2 app].
  rewrite !fst_split_at_digit.
  rewrite fst_split_at_cons by discriminate.
  rewrite !fst_split_at_digit.
  rewrite fst_split_at_cons by discriminate.
  rewrite !fst_split_at_digit.
  cbn [split_at N.eqb Pos.eqb fst].
  unfold Date_parse. cbn [N.eqb Pos.eqb andb].
  assert (Hdim : (days_in_month y m <= 31)%Z).
  { unfold days_in_month. destruct (m =? 2)%Z; [destruct (is_leap y); lia|].
    destruct (_ || _)%bool; lia. }
  rewrite number4_pad, !number2_pad by lia.
  replace ((1 <=? m)%Z && (m <=? 12)%Z && (1 <=? d)%Z && (d <=? days_in_month y m)%Z)
    with true
    by (symmetry; rewrite !andb_true_iff, !Z.leb_le; lia).
  rewrite Hback. reflexivity.
Qed.

(** X25.  The task that [simulateVoiceInput] dictates on a browser is due
    a week after the UTC day of the clock: the due date it writes with
    [toISOString] is read back by the [Date] constructor as the midnight
    of that day, so the task is not marked overdue when it is made; the
    confirm button is enabled and the listening session is over. *)
Theorem simulated_task_due_in_a_week (h : Host) (w : World) :
  (0 <= now h < lastSimulatedInstant)%Z ->
  let w' := simulateVoiceInput h w in
  let due := Draft.dueDate (currentTaskDraft w') in
  Date_parse due = Some ((now h / msPerDay + 7) * msPerDay)%Z /\
  Draft.task (currentTaskDraft w') = js "Implement user authentication" /\
  confirmTaskBtn_disabled (dom w') = false /\
  isListening w' = false /\
  (forall t, dueDate t = due -> isOverdue h t = false).
Proof.
  intros Hnow w' due.
  assert (Hp : Date_parse
                 (fst (split_at 84 (toISOString (now h + 7 * 24 * 60 * 60 * 1000)%Z)))
               = Some ((now h / msPerDay + 7) * msPerDay)%Z).
  { rewrite Date_parse_date_text by (unfold lastSimulatedInstant in Hnow; lia).
    do 2 f_equal. unfold msPerDay. Z.to_euclidean_division_equations; lia. }
  assert (Hdue : due = fst (split_at 84 (toISOString (now h + 7 * 24 * 60 * 60 * 1000)%Z))).
  { unfold due, w', simulateVoiceInput, processVoiceResponse.
    cbn [currentTaskDraft with_dom with_draft with_listening Draft.dueDate].
    rewrite (Date_parse_truthy _ _ Hp). reflexivity. }
  split; [rewrite Hdue; exact Hp|].
  split; [reflexivity|]. split; [reflexivity|]. split; [reflexivity|].
  intros t Ht. unfold isOverdue.
  rewrite Ht, Hdue, (new_Date_date_only h _ _ Hp).
  replace ((now h / msPerDay + 7) * msPerDay <? now h)%Z with false.
  - rewrite andb_false_r. reflexivity.
  - symmetry. apply Z.ltb_ge. unfold msPerDay.
    Z.to_euclidean_division_equations; lia.
Qed.

Lemma simulated_task_witness :
  (0 <= now noonBrowser < lastSimulatedInstant)%Z /\
  Date_parse
    (Draft.dueDate
       (currentTaskDraft
          (simulateVoiceInput noonBrowser (initialWorld emptyStorage))))
  = Some ((now noonBrowser / msPerDay + 7) * msPerDay)%Z.
Proof.
  assert (Hn : (0 <= now noonBrowser < lastSimulatedInstant)%Z).
  { unfold lastSimulatedInstant. cbn. lia. }
  split; [exact Hn|].
  destruct (simulated_task_due_in_a_week noonBrowser (initialWorld emptyStorage) Hn)
    as (H1 & _).
  exact H1.
Defined.

(** ** Links made by hand *)

Lemma populateField_string (key : list N) (data : json) (current : list N) :
  string_or_absent key data ->
  populateField key data current = Some (field_after key data current).
Proof.
  unfold string_or_absent, populateField, field_after.
  destruct (property key data) as [[]|]; intros H; first [reflexivity | destruct H].
Qed.

(** X26.  [parseURLParameters] reads back every link made the way
    [updateShareURL] makes one from a JSON value whose text holds no code
    unit above 255 and whose title, url, description, iconUrl and
    themeColor, where it has them, are strings: the value goes to
    [populateForm], which fills the fields the value has and leaves the
    others as they are; the value [null] raises the notification (reading
    a field of it throws). *)
Theorem link_carries_string_fields (data : json) (form : FormData) :
  wf_json data -> latin1 (JSON_stringify data) -> string_fields data ->
  parseURLParameters (linkOf data) form
  = match data with
    | JNull => InvalidParameters
    | _ => Populated
             {| title := field_after (js "title") data (title form);
                url := field_after (js "url") data (url form);
                description := field_after (js "description") data (description form);
                iconUrl := field_after (js "iconUrl") data (iconUrl form);
                themeColor := field_after (js "themeColor") data (themeColor form) |}
    end.
Proof.
  intros Hwf Hl (F1 & F2 & F3 & F4 & F5). unfold linkOf.
  set (text := JSON_stringify data) in *.
  pose proof (urlSafe_unreserved _ (b64_encode_written text)) as Hu.
  pose proof (urlSafe_reversed _ (b64_encode_written text)) as Hr.
  pose proof (atob_unpadded text Hl) as Ha. rewrite <- Hr in Ha.
  unfold parseURLParameters.
  rewrite URLSearchParams_get_jsondata by exact Hu.
  destruct (urlSafe (b64_encode text)) as [|c r] eqn:Es.
  { exfalso.
    assert (Hne : text <> []).
    { destruct (stringify_head data) as (c0 & r0 & Ec & _).
      unfold text. rewrite Ec. discriminate. }
    apply Hne.
    assert (E0 : Some (@nil N) = Some text) by exact Ha.
    congruence. }
  cbn [truthy negb]. rewrite Ha. unfold text.
  rewrite JSON_parse_stringify by exact Hwf.
  assert (Hp : populateForm data form
               = Some {| title := field_after (js "title") data (title form);
                         url := field_after (js "url") data (url form);
                         description :=
                           field_after (js "description") data (description form);
                         iconUrl := field_after (js "iconUrl") data (iconUrl form);
                         themeColor :=
                           field_after (js "themeColor") data (themeColor form) |}).
  { unfold populateForm.
    rewrite (populateField_string _ _ _ F1), (populateField_string _ _ _ F2),
      (populateField_string _ _ _ F3), (populateField_string _ _ _ F4),
      (populateField_string _ _ _ F5).
    reflexivity. }
  rewrite Hp. destruct data; reflexivity.
Qed.

Lemma link_carries_string_fields_witness :
  wf_json titleOnly /\ latin1 (JSON_stringify titleOnly) /\
  string_fields titleOnly /\
  parseURLParameters (linkOf titleOnly) sampleForm
  = Populated {| title := js "Release party"; url := url sampleForm;
                 description := description sampleForm;
                 iconUrl := iconUrl sampleForm;
                 themeColor := themeColor sampleForm |}.
Proof.
  assert (Hwf : wf_json titleOnly).
  { unfold titleOnly. apply wf_json_JObj. constructor; [|constructor].
    split; [apply wf_js | apply wf_js]. }
  assert (Hl : latin1 (JSON_stringify titleOnly)).
  { apply latin1_forallb. vm_compute. reflexivity. }
  assert (Hf : string_fields titleOnly) by (vm_compute; tauto).
  split; [exact Hwf|]. split; [exact Hl|]. split; [exact Hf|].
  rewrite (link_carries_string_fields titleOnly sampleForm Hwf Hl Hf).
  reflexivity.
Defined.

(** A link whose title is a number is outside what is modelled: the
    input would hold the number written out. *)
Example number_title_outside_model :
  parseURLParameters (linkOf (JObj [(js "title", JNum 5)])) blankForm = OutsideModel.
Proof. vm_compute. reflexivity. Qed.

(** ** The preview *)

Lemma parse_members_indented (l : list (list N * list N)) :
  l <> [] ->
  Forall (fun kv => wf_string (fst kv) /\ wf_string (snd kv)) l ->
  forall (fuel : nat) (rest : list N),
    (List.length l < fuel)%nat ->
    parse_members fuel
      (10%N :: join_lines (map indented_member l) ++ 10%N :: 125%N :: rest)
    = POk (map (fun kv => (fst kv, JStr (snd kv))) l) rest.
Proof.
  intros Hne Hwf. induction Hwf as [|[k v] l [Hk Hv] Hl IH]; [congruence|].
  intros fuel rest Hfuel. cbn [fst snd] in Hk, Hv.
  destruct fuel as [|[|fuel]]; cbn [List.length] in Hfuel; try lia.
  assert (Hmember : forall tail,
             parse_members (S (S fuel)) (10%N :: indented_member (k, v) ++ tail)
             = match skip_ws tail with
               | [] => PSyntaxError
               | c :: rest3 =>
                   if (c =? 44)%N then
                     match parse_members (S fuel) rest3 with
                     | POk l0 rest4 => POk ((k, JStr v) :: l0) rest4
                     | PSyntaxError => PSyntaxError
                     | PUnsupported => PUnsupported
                     end
                   else if (c =? 125)%N then POk [(k, JStr v)] rest3
                   else PSyntaxError
               end).
  { intros tail. unfold indented_member, QuoteJSONString. cbn [fst snd].
    cbn [parse_members].
    change (skip_ws (10%N :: (32%N :: 32%N ::
              (34%N :: quote_units k ++ [34%N]) ++
              58%N :: 32%N :: 34%N :: quote_units v ++ [34%N]) ++ tail))
      with (34%N :: ((quote_units k ++ [34%N]) ++
              58%N :: 32%N :: 34%N :: quote_units v ++ [34%N]) ++ tail).
    cbn [N.eqb Pos.eqb negb].
    replace (((quote_units k ++ [34%N]) ++
              58%N :: 32%N :: 34%N :: quote_units v ++ [34%N]) ++ tail)
      with (quote_units k ++ 34%N :: 58%N :: 32%N :: 34%N :: quote_units v ++ 34%N :: tail)
      by (rewrite <- !app_assoc; cbn [app]; rewrite <- !app_assoc; reflexivity).
    rewrite parse_chars_quote_units by exact Hk.
    change (skip_ws (58%N :: 32%N :: 34%N :: quote_units v ++ 34%N :: tail))
      with (58%N :: 32%N :: 34%N :: quote_units v ++ 34%N :: tail).
    cbn [N.eqb Pos.eqb negb].
    cbn [parse_value].
    change (skip_ws (32%N :: 34%N :: quote_units v ++ 34%N :: tail))
      with (34%N :: quote_units v ++ 34%N :: tail).
    cbn [N.eqb Pos.eqb].
    rewrite parse_chars_quote_units by exact Hv.
    reflexivity. }
  destruct l as [|kv' l'].
  - cbn [map join_lines]. rewrite Hmember. reflexivity.
  - change (join_lines (map indented_member ((k, v) :: kv' :: l')))
      with (indented_member (k, v) ++ 44%N :: 10%N ::
            join_lines (map indented_member (kv' :: l'))).
    rewrite <- app_assoc. rewrite Hmember.
    cbn [app skip_ws is_ws N.eqb Pos.eqb orb].
    rewrite IH by (cbn [List.length] in *; first [discriminate | lia]).
    reflexivity.
Qed.

(** X27.  The text [updateJSONPreview] shows, with its line breaks and
    indentation, parses to the same value as the text [generateQRCode]
    puts into the code: the preview shows what the code carries. *)
Theorem preview_shows_qr_data (form : FormData) :
  wf_form form ->
  JSON_parse (updateJSONPreview form) = POk (json_of_form (getFormData form)) [] /\
  JSON_parse (updateJSONPreview form)
  = JSON_parse (JSON_stringify (json_of_form (getFormData form))).
Proof.
  intros Hwf.
  assert (Hp : JSON_parse (updateJSONPreview form)
               = POk (json_of_form (getFormData form)) []).
  { unfold updateJSONPreview, stringify_indented, form_members, JSON_parse.
    set (l := [(js "title", title (getFormData form));
               (js "url", url (getFormData form));
               (js "description", description (getFormData form));
               (js "iconUrl", iconUrl (getFormData form));
               (js "themeColor", themeColor (getFormData form))]).
    assert (Hl : Forall (fun kv => wf_string (fst kv) /\ wf_string (snd kv)) l).
    { destruct Hwf as (H1 & H2 & H3 & H4 & H5). unfold l.
      repeat (apply Forall_cons;
              [split; [apply wf_js
                      | cbn [snd getFormData title url description iconUrl themeColor];
                        first [apply wf_trim; assumption | assumption]]|]).
      constructor. }
    assert (Hlen : exists n,
               List.length (123%N :: 10%N :: join_lines (map indented_member l)
                                    ++ [10%N; 125%N])
               = (6 + n)%nat).
    { unfold l. cbn [map join_lines indented_member List.length app fst QuoteJSONString].
      eexists. reflexivity. }
    destruct Hlen as (n & ->).
    change (S (6 + n)) with (S (S (5 + n))).
    cbn [parse_value].
    change (skip_ws (123%N :: 10%N :: join_lines (map indented_member l)
                          ++ [10%N; 125%N]))
      with (123%N :: 10%N :: join_lines (map indented_member l) ++ [10%N; 125%N]).
    cbn [N.eqb Pos.eqb is_digit orb andb N.leb N.compare Pos.compare Pos.compare_cont].
    assert (Hskip : exists c r,
               skip_ws (10%N :: join_lines (map indented_member l) ++ [10%N; 125%N])
               = c :: r /\ (c =? 125)%N = false).
    { unfold l. cbn [map join_lines indented_member fst QuoteJSONString app].
      eexists. eexists. split; reflexivity. }
    destruct Hskip as (c & r & -> & ->).
    rewrite (parse_members_indented l ltac:(discriminate) Hl (S (5 + n)) [])
      by (cbn [List.length l]; lia).
    reflexivity. }
  split; [exact Hp|].
  rewrite Hp. symmetry. apply JSON_parse_stringify, wf_json_of_form, Hwf.
Qed.

Lemma preview_shows_qr_data_witness :
  wf_form sampleForm /\
  JSON_parse (updateJSONPreview sampleForm)
  = JSON_parse (JSON_stringify (json_of_form (getFormData sampleForm))).
Proof.
  assert (Hwf : wf_form sampleForm).
  { unfold wf_form, sampleForm; cbn; closed_wf. }
  split; [exact Hwf|].
  destruct (preview_shows_qr_data sampleForm Hwf) as [_ H]. exact H.
Defined.

(** ** The device: every state the page reaches is stored and read back *)

Lemma latin1_wf (s : list N) : latin1 s -> wf_string s.
Proof. intros H. eapply Forall_impl; [|exact H]. cbv beta. lia. Qed.

Lemma latin1_input_wf (h : Host) (e : Event) : latin1_input h e -> wf_input h e.
Proof.
  intros [Hn He]. split; [exact Hn|].
  destruct e as [| taskId | | | | data | | | form | confirmed | taskId |];
    try exact I.
  - destruct He as (H1 & H2 & H3 & H4). repeat split; apply latin1_wf; assumption.
  - destruct He as (H1 & H2 & H3 & H4 & H5 & H6).
    repeat split; try (apply latin1_wf; assumption).
    + destruct (promptProject form); [apply latin1_wf, H5 | exact I].
    + destruct (promptOrg form); [apply latin1_wf, H6 | exact I].
Qed.

Lemma latin1_draft_wf (d : Draft.t) : latin1_draft d -> wf_draft d.
Proof.
  intros (H1 & H2 & H3 & H4). repeat split; apply latin1_wf; assumption.
Qed.

Lemma latin1_register (name : list N) (registry : list (list N)) :
  latin1 name -> Forall latin1 registry -> Forall latin1 (register name registry).
Proof.
  intros Hn Hr. unfold register. destruct (_ && _)%bool; [|exact Hr].
  apply Forall_app. split; [exact Hr | repeat constructor; exact Hn].
Qed.

Lemma latin1_chosen (selected : list N) (answer : option (list N))
      (registry : list (list N)) :
  latin1 selected -> latin1_answer answer -> Forall latin1 registry ->
  latin1 (fst (chosen selected answer registry)) /\
  Forall latin1 (snd (chosen selected answer registry)).
Proof.
  intros Hs Ha Hr. unfold chosen.
  destruct (str_eqb _ _); [destruct answer as [name|]|]; cbn [fst snd].
  - split; [exact Ha | apply latin1_register; assumption].
  - split; [constructor | exact Hr].
  - split; assumption.
Qed.

Section Device.
Context {collator : Collator}.

Lemma latin1_step (h : Host) (e : Event) (w : World) :
  latin1_input h e -> latin1_draft (currentTaskDraft w) ->
  latin1_state (appState w) -> latin1_state (appState (step h e w)).
Proof.
  intros [_ He] (D1 & D2 & D3 & D4) Hv.
  pose proof Hv as (Ht & Hp & Ho).
  apply step_cases; [exact Hv | | | | |].
  - intros _ Hd. unfold latin1_state, confirmedState.
    cbn [tasks projects organizations].
    split; [|split]; [| apply latin1_register; assumption
                      | apply latin1_register; assumption].
    apply Forall_app. split; [exact Ht|]. constructor; [|constructor].
    unfold latin1_task, createdTask.
    cbn [task project organization dueDate createdAt].
    repeat split; try assumption. apply latin1_toISOString.
  - intros i form t -> _ _ Htrim.
    destruct He as (E1 & E2 & E3 & E4 & E5 & E6).
    destruct (latin1_chosen (editProjectSelect form) (promptProject form)
                (projects (appState w)) E2 E5 Hp) as [P1 P2].
    destruct (latin1_chosen (editOrgSelect form) (promptOrg form)
                (organizations (appState w)) E3 E6 Ho) as [O1 O2].
    unfold latin1_state, editedState. cbn [tasks projects organizations].
    split; [|split]; [| exact P2 | exact O2].
    apply Forall_updateFound; [|exact Ht].
    intros t0 (V1 & V2 & V3 & V4 & V5).
    unfold latin1_task, editedTask.
    cbn [task project organization dueDate createdAt].
    repeat split; try assumption. apply latin1_trim, E1.
  - intros i _ _. unfold latin1_state, deletedState.
    cbn [tasks projects organizations].
    split; [|split]; try assumption. apply Forall_filter_keep, Ht.
  - intros i t _ _. unfold latin1_state, toggledState.
    cbn [tasks projects organizations].
    split; [|split]; try assumption.
    apply Forall_updateFound; [|exact Ht]. intros t0 Ht0. exact Ht0.
  - intros _. exact Hv.
Qed.

Lemma device_sync_saveAndRender (h : Host) (w : World) :
  device_host h ->
  latin1 (JSON_stringify (json_of_state (appState w))) ->
  device_sync (saveAndRender h w).
Proof.
  intros [Hcs Hfail] Hl. unfold device_sync.
  rewrite tasks_saveAndRender, storage_saveAndRender.
  unfold saveData. rewrite Hcs, (btoa_latin1 _ Hl), Hfail. reflexivity.
Qed.

Lemma device_sync_step (h : Host) (e : Event) (w : World) :
  device_host h ->
  latin1 (JSON_stringify (json_of_state (appState (step h e w)))) ->
  device_sync w -> device_sync (step h e w).
Proof.
  intros Hh Hl Hw. revert Hl.
  assert (Hr : forall w0,
             latin1 (JSON_stringify (json_of_state (appState (saveAndRender h w0)))) ->
             device_sync (saveAndRender h w0)).
  { intros w0 Hl. apply (device_sync_saveAndRender h w0 Hh).
    rewrite tasks_saveAndRender in Hl. exact Hl. }
  assert (Hsr : forall w0,
             latin1 (JSON_stringify (json_of_state
                       (appState (showView (js "mainView") (saveAndRender h w0))))) ->
             device_sync (showView (js "mainView") (saveAndRender h w0))).
  { intros w0 Hl. apply (Hr w0 Hl). }
  destruct e as [| taskId | | | | data | | | form | confirmed | taskId |];
    cbn [step].
  - intros _; exact Hw.
  - unfold showEditView. cbn [appState with_editing].
    destruct (findTask _ _); intros _; exact Hw.
  - intros _; exact Hw.
  - intros _; exact Hw.
  - unfold handleSideClick.
    destruct (str_eqb _ _); [destruct (negb _)|]; intros _; exact Hw.
  - unfold onPluginMessage.
    destruct (isListening w); [destruct (truthy _)|]; intros _; exact Hw.
  - intros _; exact Hw.
  - unfold confirmTask.
    destruct (negb (truthy (Draft.task (currentTaskDraft w)))); [intros _; exact Hw|].
    apply Hsr.
  - unfold saveEdit.
    destruct (editing w) as [i|]; [|intros _; exact Hw].
    destruct (findTask i _); [|intros _; exact Hw].
    destruct (negb (truthy _)); [intros _; exact Hw|].
    destruct (chosen (editProjectSelect form) _ _) as [newProject projects'].
    destruct (chosen (editOrgSelect form) _ _) as [newOrg organizations'].
    apply Hsr.
  - unfold deleteTask.
    destruct (editing w) as [i|]; [|intros _; exact Hw].
    destruct confirmed; [|intros _; exact Hw]. apply Hsr.
  - unfold toggleTaskComplete.
    destruct (findTask taskId _); [|intros _; exact Hw].
    apply Hr.
  - unfold toggleSort. apply Hr.
Qed.

Lemma latin1_snapshot (a : AppState) :
  valid_state a -> latin1_state a -> latin1 (JSON_stringify (json_of_state a)).
Proof.
  intros Hv Hl. apply latin1_json_of_state; [exact Hl|].
  destruct Hv as (_ & _ & _ & [-> | ->]); apply latin1_js.
Qed.

Lemma reopen_device_sync (h : Host) (w : World) :
  device_host h -> valid_state (appState w) -> latin1_state (appState w) ->
  device_sync w ->
  exists w'',
    initialize h (reopen w) = Fulfilled w'' /\
    appState w'' = appState w /\ listenersBound (dom w'') = true.
Proof.
  intros [Hcs Hfail] Hv Hl Hs.
  pose proof (latin1_snapshot _ Hv Hl) as Htext.
  destruct (reopen_after_save_creationStorage h w Hv Htext Hcs Hfail)
    as (w' & Hsave & Hload).
  assert (E : reopen w' = reopen w).
  { unfold saveData in Hsave. rewrite Hcs, (btoa_latin1 _ Htext), Hfail in Hsave.
    assert (Ew : with_storage
                   {| creationStorage_item :=
                        Some (b64_encode (JSON_stringify (json_of_state (appState w))));
                      localStorage_item := localStorage_item (storage w) |} w = w')
      by congruence.
    subst w'. unfold reopen. f_equal.
    cbn [storage with_storage]. unfold device_sync in Hs.
    destruct (storage w) as [cs ls]. cbn [localStorage_item creationStorage_item] in *.
    rewrite Hs. reflexivity. }
  rewrite E in Hload.
  destruct (initialize_after_load h (reopen w) (appState w) Hload)
    as (w'' & Hi & Ha & Hb & _).
  exists w''. auto.
Qed.

(** On the device a world whose stored item a fresh page reads as the
    state in memory, stays one. *)
Lemma reopen_device_step (h1 : Host) (e : Event) (w : World) :
  device_host h1 -> valid_state (appState (step h1 e w)) ->
  latin1_state (appState (step h1 e w)) ->
  (forall h, device_host h ->
     exists w'',
       initialize h (reopen w) = Fulfilled w'' /\
       appState w'' = appState w /\ listenersBound (dom w'') = true) ->
  forall h, device_host h ->
    exists w'',
      initialize h (reopen (step h1 e w)) = Fulfilled w'' /\
      appState w'' = appState (step h1 e w) /\ listenersBound (dom w'') = true.
Proof.
  intros Hh1 Hv Hl Hw h Hh.
  destruct (step_saves_or_keeps h1 e w) as [(w0 & Hs) | (Hs & Ha)].
  - apply reopen_device_sync; [exact Hh | exact Hv | exact Hl |].
    pose proof (latin1_snapshot _ Hv Hl) as Htext.
    destruct Hs as [E | E]; rewrite E in Htext |- *;
      apply (device_sync_saveAndRender h1 w0 Hh1);
      rewrite <- (tasks_saveAndRender h1 w0); exact Htext.
  - unfold reopen. rewrite Hs, Ha. apply Hw, Hh.
Qed.

(** X28.  On the device, with [creationStorage] working, from the page as
    start-up leaves it over whatever is stored, when the state it read is
    valid and holds no code unit above 255, with inputs without such a
    code unit and a clock within the exact integers: whatever the user
    does, the state stays valid and free of such code units, and a page
    opened again at any moment starts with exactly the state the first
    page had then.  The first run, with nothing stored, is such a
    start. *)
Theorem state_survives_on_device
  (h0 h : Host) (s : Storage) (trace : list (Host * Event)) (w : World) :
  device_host h0 -> initialize h0 (initialWorld s) = Fulfilled w ->
  valid_state (appState w) -> latin1_state (appState w) ->
  device_trace trace -> device_host h ->
  valid_state (appState (run trace w)) /\
  latin1_state (appState (run trace w)) /\
  exists w'',
    initialize h (reopen (run trace w)) = Fulfilled w'' /\
    appState w'' = appState (run trace w) /\ listenersBound (dom w'') = true.
Proof.
  intros Hh0 Hstart Hv Hl Htrace Hh.
  assert (Hd : latin1_draft (currentTaskDraft w)).
  { destruct (initialize_hosts_alike h0 h0 _ _ eq_refl eq_refl Hstart) as (_ & -> & _).
    repeat split; constructor. }
  assert (Hw : forall h, device_host h ->
             exists w'',
               initialize h (reopen w) = Fulfilled w'' /\
               appState w'' = appState w /\ listenersBound (dom w'') = true).
  { intros h' [Hcs' Hfail']. destruct Hh0 as [Hcs0 Hfail0].
    destruct (initialize_hosts_alike h0 h' _ _ (eq_trans Hcs' (eq_sym Hcs0))
                (eq_trans Hfail' (eq_sym Hfail0)) Hstart) as (Es & _ & Hr).
    unfold reopen. rewrite Es. exact Hr. }
  clear Hstart Hh0. revert w Hv Hl Hd Hw.
  induction trace as [|[h1 e] trace IH]; intros w Hv Hl Hd Hw.
  - split; [exact Hv|]. split; [exact Hl | apply Hw, Hh].
  - inversion Htrace as [|x l [Hb Hin] Hrest]; subst. cbn [fst snd] in *.
    assert (Hv' : valid_state (appState (step h1 e w))).
    { apply valid_step;
        [apply latin1_input_wf, Hin | apply latin1_draft_wf, Hd | exact Hv]. }
    assert (Hl' : latin1_state (appState (step h1 e w))).
    { apply latin1_step; assumption. }
    cbn [run]. apply IH; [exact Hrest | exact Hv' | exact Hl' | |].
    + apply latin1_draft_step; assumption.
    + apply reopen_device_step; assumption.
Qed.

End Device.

Lemma state_survives_on_device_witness :
  exists w0,
    device_host noonHost /\
    @initialize ordinal_collator noonHost (initialWorld emptyStorage) = Fulfilled w0 /\
    valid_state (appState w0) /\ latin1_state (appState w0) /\
    device_trace (oneTaskOnDevice ++ editOnDevice) /\ device_host laterHost /\
    exists w'',
      @initialize ordinal_collator laterHost
        (reopen (@run ordinal_collator (oneTaskOnDevice ++ editOnDevice) w0))
      = Fulfilled w'' /\
      appState w''
      = appState (@run ordinal_collator (oneTaskOnDevice ++ editOnDevice) w0) /\
      map task (tasks (appState w'')) = [js "Fix the bug"] /\
      listenersBound (dom w'') = true.
Proof.
  assert (Hh0 : device_host noonHost) by (split; reflexivity).
  assert (Hh : device_host laterHost) by (split; reflexivity).
  assert (Hnow0 : (Z.abs (now noonHost) <= MAX_SAFE)%Z) by (vm_compute; discriminate).
  assert (Hnow : (Z.abs (now laterHost) <= MAX_SAFE)%Z) by (vm_compute; discriminate).
  assert (Ht : device_trace (oneTaskOnDevice ++ editOnDevice)).
  { unfold device_trace, oneTaskOnDevice, addFlow, editOnDevice. cbn [app].
    repeat (apply Forall_cons;
            [split; [first [exact Hh0 | exact Hh]|];
             split; [first [exact Hnow0 | exact Hnow]|]|]);
      [exact I | exact I | | exact I | exact I | | exact I | exact I | constructor].
    - unfold latin1_draft, spoken. cbn [Draft.task Draft.project Draft.organization
                                         Draft.dueDate].
      repeat split; first [apply latin1_js | constructor].
    - unfold latin1_edit, renameEdit, latin1_answer.
      cbn [editTaskInput editProjectSelect editOrgSelect editDueInput
           promptProject promptOrg].
      repeat split; first [apply latin1_js | constructor]. }
  eexists. split; [exact Hh0|]. split; [reflexivity|].
  assert (Hv : valid_state (appState
                 (rerender noonHost
                    (with_dom (setListenersBound (dom (initialWorld emptyStorage)))
                       (initialWorld emptyStorage))))).
  { repeat split; try constructor. reflexivity. }
  assert (Hl : latin1_state (appState
                 (rerender noonHost
                    (with_dom (setListenersBound (dom (initialWorld emptyStorage)))
                       (initialWorld emptyStorage))))).
  { repeat split; constructor. }
  split; [exact Hv|]. split; [exact Hl|]. split; [exact Ht|]. split; [exact Hh|].
  destruct (@state_survives_on_device ordinal_collator noonHost laterHost
              emptyStorage (oneTaskOnDevice ++ editOnDevice) _ Hh0 eq_refl Hv Hl Ht Hh)
    as (_ & _ & w'' & Hi & Ha & Hb).
  exists w''. split; [exact Hi|]. split; [exact Ha|].
  split; [|exact Hb]. rewrite Ha. vm_compute. reflexivity.
Defined.

